(** * Excel file splitter: planner, reader, staging store and consolidator

    A shallow embedding of the repartitioning pipeline of the repository
    (excel_splitter_rewrite.py and excel_splitter_db.py) together with the
    properties of its natural-language specification.

    Python integers are unbounded and are modelled as [Z].  Dictionaries are
    stdpp finite maps.  Exceptions are explicit: a computation returns a
    value, raises a Python exception, or (for the [while] loop of the
    planner, which the source does not bound) runs out of fuel. *)

From stdpp Require Import base numbers option list strings gmap fin_maps sorting.

Local Open Scope Z_scope.

(** ** Outcomes of Python computations *)

Inductive exn : Type :=
  | ZeroDivisionError
  | KeyError
  | ValueError
  | FileNotFoundError
  | OtherError.

Inductive outcome (A : Type) : Type :=
  | Returns (a : A)
  | Raises (e : exn)
  | OutOfFuel.

Arguments Returns {A} a.
Arguments Raises {A} e.
Arguments OutOfFuel {A}.

Definition obind {A B} (m : outcome A) (k : A → outcome B) : outcome B :=
  match m with
  | Returns a => k a
  | Raises e => Raises e
  | OutOfFuel => OutOfFuel
  end.

Notation "x ←! m ; k" := (obind m (λ x, k))
  (at level 20, m at level 100, k at level 200, right associativity,
   format "x  ←!  m ;  '/' k").

(** [math.ceil(a / b)] on Python integers: true division raises on a zero
    divisor; the quotient is a float, rounded towards plus infinity.  For
    integers below 2^53 in magnitude the float quotient is correctly
    rounded and its ceiling is the ceiling of the exact quotient, which is
    what [ceil_div] computes; beyond that magnitude the code can report
    another number.  The properties of the reported counts that are stated
    for an arbitrary analysis carry the bound [float_exact]. *)
Definition ceil_div (a b : Z) : Z := - ((- a) / b).

(** The integers for which [ceil_div] is what the code computes. *)
Definition float_exact (n : Z) : Prop := - 2 ^ 53 < n < 2 ^ 53.

Definition math_ceil_div (a b : Z) : outcome Z :=
  if decide (b = 0) then Raises ZeroDivisionError else Returns (ceil_div a b).

(** ** Tabular data

    A cell is its text.  A [dataframe] is a pandas DataFrame: the column
    labels and the data rows below the header.  A workbook is the ordered
    list of its named sheets; a sheet is stored as its header row and its
    data rows, that is, as the DataFrame that reading it whole returns. *)

Definition cell : Type := string.

Record dataframe : Type := DataFrame {
  columns : list string;
  rows : list (list cell)
}.

Abbreviation workbook := (list (string * dataframe)).

(** [df.empty]: some axis has length zero. *)
Definition df_empty (df : dataframe) : bool :=
  bool_decide (columns df = [] ∨ rows df = []).

(** [len(df)] *)
Definition df_len (df : dataframe) : Z := Z.of_nat (length (rows df)).

(** [df.iloc[1:]] *)
Definition iloc_from_1 (df : dataframe) : dataframe :=
  DataFrame (columns df) (drop 1 (rows df)).

(** The cells of a row of a frame with the labels [from], under the labels
    [cols]: a label that the frame does not have gets an empty cell. *)
Definition reindex (cols from : list string) (r : list cell) : list cell :=
  (λ c, match list_find (λ x, x = c) from with
        | Some (i, _) => default String.EmptyString (r !! i)
        | None => String.EmptyString
        end) <$> cols.

(** [pd.concat([a, b], ignore_index=True)]: frames with the same labels are
    appended as they are, the rows of [b] after the rows of [a].  Frames
    with different labels are aligned on the labels: the result has the
    labels of [a] followed by the labels that only [b] has, and a cell that
    a frame does not have is empty; pandas raises when it has to align a
    frame that has a label twice. *)
Definition pd_concat (a b : dataframe) : outcome dataframe :=
  if decide (columns a = columns b) then
    Returns (DataFrame (columns a) (rows a ++ rows b))
  else if decide (NoDup (columns a) ∧ NoDup (columns b)) then
    let cols := columns a ++ filter (λ c, c ∉ columns a) (columns b) in
    Returns (DataFrame cols
               ((reindex cols (columns a) <$> rows a) ++
                (reindex cols (columns b) <$> rows b)))
  else Raises OtherError.

Fixpoint lookup_sheet (name : string) (wb : workbook) : option dataframe :=
  match wb with
  | [] => None
  | (n, sh) :: wb' => if decide (n = name) then Some sh else lookup_sheet name wb'
  end.

(** [pd.read_excel(file, sheet_name=name, skiprows=list(range(1, skip + 1)),
    nrows=nrows)]: the header row is kept, the first [skip] data rows are
    dropped and at most [nrows] data rows are parsed.  pandas raises when
    the file cannot be opened, when the sheet is not in the workbook and
    when [nrows] is negative; it does not raise when fewer rows than
    requested are left. *)
Definition read_excel (file : option workbook) (name : string) (skip : Z)
    (nrows : option Z) : outcome dataframe :=
  match file with
  | None => Raises FileNotFoundError
  | Some wb =>
    match lookup_sheet name wb with
    | None => Raises ValueError
    | Some sh =>
      let body := drop (Z.to_nat skip) (rows sh) in
      match nrows with
      | None => Returns (DataFrame (columns sh) body)
      | Some n =>
        if decide (n < 0) then Raises ValueError
        else Returns (DataFrame (columns sh) (take (Z.to_nat n) body))
      end
    end
  end.

(** [try: body except Exception as e: handler(e)] *)
Definition try_except {A} (body : outcome A) (handler : exn → outcome A) : outcome A :=
  match body with
  | Raises e => handler e
  | r => r
  end.

(** The lexicographic order on pairs of integers: the order of targets
    [(file, sheet)] and of the keys [(source_sheet, row_num)]. *)
Definition lex_le (k1 k2 : Z * Z) : Prop :=
  k1.1 < k2.1 ∨ (k1.1 = k2.1 ∧ k1.2 ≤ k2.2).

Global Instance lex_le_dec k1 k2 : Decision (lex_le k1 k2).
Proof. unfold lex_le. apply _. Defined.


Fixpoint sum_Z (l : list Z) : Z :=
  match l with
  | [] => 0
  | x :: l' => x + sum_Z l'
  end.

(** An output file: a workbook, from the index of a sheet to its DataFrame,
    or a file that exists but that pandas cannot parse. *)
Inductive out_file : Type :=
  | Corrupt
  | Book (wb : gmap Z dataframe).

(** Every file of the directory is a workbook of at most [G] sheets, each
    of at most [R] records. *)
Definition dir_within (G R : Z) (dir : gmap Z out_file) : Prop :=
  ∀ f file, dir !! f = Some file →
    ∃ wb, file = Book wb ∧ Z.of_nat (size wb) ≤ G ∧
      ∀ s df, wb !! s = Some df → df_len df ≤ R.

(** ** Input analyzer (excel_splitter_rewrite.py) *)

Module Analyzer.

(** [sheets_info[name] = {"total_rows": .., "data_rows": ..}] *)
Record sheet_info : Type := SheetInfo {
  total_rows : Z;
  data_rows : Z
}.

(** The dictionary returned by [analyze_input_file]. *)
Record input_analysis : Type := InputAnalysis {
  num_sheets : Z;
  sheet_names : list string;
  sheets_info : gmap string sheet_info;
  total_data_rows : Z
}.

(** The answer of a library call on the input file: a value or a raised
    exception. *)
Inductive answer (A : Type) : Type :=
  | Answer (a : A)
  | Failure (e : exn).

Arguments Answer {A} a.
Arguments Failure {A} e.

Definition ask {A} (r : answer A) : outcome A :=
  match r with
  | Answer a => Returns a
  | Failure e => Raises e
  end.

(** What the analyzer asks of the input file.  Each question opens the file
    anew, so a sheet that was listed may be gone when it is counted. *)
Record source : Type := Source {
  (** [pd.ExcelFile(input_file).sheet_names] *)
  listed_sheet_names : answer (list string);
  (** [load_workbook(input_file, read_only=True)[sheet_name].max_row] *)
  openpyxl_max_row : string → answer Z;
  (** [sum(len(chunk) for chunk in df_iter)] of the pandas fallback *)
  pandas_chunk_rows : string → answer Z
}.

(** The answers of a file that holds [listed] when its sheets are listed and
    [counted] when they are counted ([None]: the file cannot be opened). *)
Definition source_of_file (listed counted : option workbook) : source :=
  Source
    (match listed with
     | None => Failure FileNotFoundError
     | Some wb => Answer (wb.*1)
     end)
    (λ name,
       match counted with
       | None => Failure FileNotFoundError
       | Some wb =>
         match lookup_sheet name wb with
         | None => Failure KeyError
         | Some sh => Answer (1 + df_len sh)
         end
       end)
    (λ name,
       match counted with
       | None => Failure FileNotFoundError
       | Some wb =>
         match lookup_sheet name wb with
         | None => Failure ValueError
         | Some sh => Answer (df_len sh)
         end
       end).

Definition count_rows_in_sheet (src : source) (sheet_name : string) : outcome (Z * Z) :=
  try_except
    (total_rows ←! ask (openpyxl_max_row src sheet_name);
     let data_rows := total_rows - 1 in
     Returns (total_rows, data_rows))
    (λ _,
       try_except
         (n ←! ask (pandas_chunk_rows src sheet_name);
          let data_rows := n - 1 in
          let total_rows := data_rows + 1 in
          Returns (total_rows, data_rows))
         (λ _, Returns (0, 0))).

(** [for sheet_name in sheet_names: ...] of [analyze_input_file], threading
    [sheets_info] and [total_data_rows]. *)
Fixpoint count_all (src : source) (names : list string)
    (info : gmap string sheet_info) (total : Z) : outcome (gmap string sheet_info * Z) :=
  match names with
  | [] => Returns (info, total)
  | sheet_name :: rest =>
    c ←! count_rows_in_sheet src sheet_name;
    count_all src rest (<[sheet_name := SheetInfo c.1 c.2]> info) (total + c.2)
  end.

Definition analyze_input_file (src : source) : outcome input_analysis :=
  names ←! ask (listed_sheet_names src);
  r ←! count_all src names ∅ 0;
  Returns (InputAnalysis (Z.of_nat (length names)) names r.1 r.2).

(** The counted size of a listed sheet. *)
Definition size_in (info : gmap string sheet_info) (name : string) : option Z :=
  data_rows <$> info !! name.

Definition size_of (ia : input_analysis) (name : string) : option Z :=
  size_in (sheets_info ia) name.

(** The sizes in listing order. *)
Definition sizes (ia : input_analysis) : list Z :=
  omap (size_in (sheets_info ia)) (sheet_names ia).

(** An analysis as the data model has it: the group names are distinct,
    every group has a counted size that is not negative, and the total is
    the sum of the sizes. *)
Definition well_formed (ia : input_analysis) : Prop :=
  NoDup (sheet_names ia) ∧
  Forall (λ n, ∃ z, size_of ia n = Some z ∧ 0 ≤ z) (sheet_names ia) ∧
  total_data_rows ia = sum_Z (sizes ia).

End Analyzer.

Import Analyzer.

(** ** Partition planner (excel_splitter_rewrite.py) *)

Module Planner.

(** One element of [data_segments]. *)
Record segment : Type := Segment {
  input_sheet : string;
  start_row : Z;
  num_rows : Z;
  output_file : Z;
  output_sheet : Z
}.

(** [output_distribution["files"][f] = {"sheets": {s: rows}}] *)
Record file_entry : Type := FileEntry {
  sheets : gmap Z Z
}.

Record output_distribution : Type := OutputDistribution {
  files : gmap Z file_entry;
  total_output_files : Z;
  total_output_sheets : Z;
  data_segments : list segment
}.

(** The local variables of [calculate_output_distribution] that the two
    nested loops update. *)
Record planner_state : Type := PlannerState {
  ps_files : gmap Z file_entry;
  remaining_data_rows : Z;
  current_file : Z;
  current_sheet : Z;
  ps_segments : list segment;
  current_positions : gmap string Z
}.

(** [if current_file not in files: files[current_file] = {"sheets": {}}] *)
Definition ensure_file (f : Z) (fs : gmap Z file_entry) : gmap Z file_entry :=
  match fs !! f with
  | Some _ => fs
  | None => <[f := FileEntry ∅]> fs
  end.

(** [files[f]["sheets"]]; the callers have made sure that the file is there. *)
Definition sheets_of (f : Z) (fs : gmap Z file_entry) : gmap Z Z :=
  match fs !! f with
  | Some e => sheets e
  | None => ∅
  end.

(** [if current_sheet not in files[f]["sheets"]: files[f]["sheets"][s] = 0] *)
Definition ensure_sheet (f s : Z) (fs : gmap Z file_entry) : gmap Z file_entry :=
  match sheets_of f fs !! s with
  | Some _ => fs
  | None => <[f := FileEntry (<[s := 0]> (sheets_of f fs))]> fs
  end.

(** [files[f]["sheets"][s]] as an optional value. *)
Definition sheet_rows (fs : gmap Z file_entry) (f s : Z) : option Z :=
  sheets_of f fs !! s.

(** [files[f]["sheets"][s] = c] *)
Definition set_sheet_rows (f s c : Z) (fs : gmap Z file_entry) : gmap Z file_entry :=
  <[f := FileEntry (<[s := c]> (sheets_of f fs))]> fs.

(** [current_sheet += 1; if current_sheet > sheets_per_file: current_file += 1;
    current_sheet = 1] *)
Definition advance_sheet (sheets_per_file : Z) (st : planner_state) : planner_state :=
  let cs := current_sheet st + 1 in
  if decide (cs > sheets_per_file)
  then PlannerState (ps_files st) (remaining_data_rows st) (current_file st + 1) 1
         (ps_segments st) (current_positions st)
  else PlannerState (ps_files st) (remaining_data_rows st) (current_file st) cs
         (ps_segments st) (current_positions st).

(** One pass through the body of the [while rows_processed < sheet_data_rows]
    loop; returns the new [rows_processed] and the new state. *)
Definition while_body (sheets_per_file data_rows_per_sheet : Z) (sheet_name : string)
    (sheet_data_rows rows_processed : Z) (st : planner_state)
    : outcome (Z * planner_state) :=
  let rows_left_in_sheet := sheet_data_rows - rows_processed in
  let fs := ensure_sheet (current_file st) (current_sheet st)
              (ensure_file (current_file st) (ps_files st)) in
  let current_output_rows :=
    default 0 (sheet_rows fs (current_file st) (current_sheet st)) in
  let rows_available_in_output := data_rows_per_sheet - current_output_rows in
  let rows_to_copy := Z.min rows_left_in_sheet rows_available_in_output in
  if decide (rows_to_copy > 0) then
    match current_positions st !! sheet_name with
    | None => Raises KeyError
    | Some start =>
      let seg := Segment sheet_name start rows_to_copy (current_file st) (current_sheet st) in
      let fs' := set_sheet_rows (current_file st) (current_sheet st)
                   (current_output_rows + rows_to_copy) fs in
      let st' := PlannerState fs' (remaining_data_rows st - rows_to_copy)
                   (current_file st) (current_sheet st)
                   (ps_segments st ++ [seg])
                   (<[sheet_name := start + rows_to_copy]> (current_positions st)) in
      Returns (rows_processed + rows_to_copy,
               if decide (current_output_rows + rows_to_copy >= data_rows_per_sheet)
               then advance_sheet sheets_per_file st'
               else st')
    end
  else
    let st' := PlannerState fs (remaining_data_rows st) (current_file st) (current_sheet st)
                 (ps_segments st) (current_positions st) in
    Returns (rows_processed, advance_sheet sheets_per_file st').

(** The [while] loop for one input sheet.  The source loop has no bound of
    its own; [fuel] counts the iterations that are allowed. *)
Fixpoint while_sheet (fuel : nat) (sheets_per_file data_rows_per_sheet : Z)
    (sheet_name : string) (sheet_data_rows rows_processed : Z) (st : planner_state)
    : outcome planner_state :=
  if decide (rows_processed < sheet_data_rows) then
    match fuel with
    | O => OutOfFuel
    | S fuel' =>
      r ←! while_body sheets_per_file data_rows_per_sheet sheet_name
             sheet_data_rows rows_processed st;
      while_sheet fuel' sheets_per_file data_rows_per_sheet sheet_name
        sheet_data_rows r.1 r.2
    end
  else Returns st.

(** [for sheet_name in input_analysis["sheet_names"]: ...] *)
Fixpoint for_sheets (fuel : nat) (sheets_per_file data_rows_per_sheet : Z)
    (info : gmap string sheet_info) (names : list string) (st : planner_state)
    : outcome planner_state :=
  match names with
  | [] => Returns st
  | sheet_name :: rest =>
    match info !! sheet_name with
    | None => Raises KeyError
    | Some i =>
      st' ←! while_sheet fuel sheets_per_file data_rows_per_sheet sheet_name
               (data_rows i) 0 st;
      for_sheets fuel sheets_per_file data_rows_per_sheet info rest st'
    end
  end.

(** [{sheet_name: 0 for sheet_name in input_analysis["sheet_names"]}] *)
Definition initial_positions (names : list string) : gmap string Z :=
  list_to_map ((λ n, (n, 0)) <$> names).

Definition initial_state (ia : input_analysis) : planner_state :=
  PlannerState ∅ (total_data_rows ia) 1 1 [] (initial_positions (sheet_names ia)).

Definition calculate_output_distribution (fuel : nat) (ia : input_analysis)
    (sheets_per_file data_rows_per_sheet : Z) : outcome output_distribution :=
  tos ←! math_ceil_div (total_data_rows ia) data_rows_per_sheet;
  tof ←! math_ceil_div tos sheets_per_file;
  st ←! for_sheets fuel sheets_per_file data_rows_per_sheet
          (sheets_info ia) (sheet_names ia) (initial_state ia);
  Returns (OutputDistribution (ps_files st) tof tos (ps_segments st)).

(** *** Vocabulary of the planner's properties *)

(** The target of a segment. *)
Definition dest (sg : segment) : Z * Z := (output_file sg, output_sheet sg).

(** The segments assigned to a target, in plan order. *)
Definition segments_of (t : Z * Z) (segs : list segment) : list segment :=
  filter (λ sg, dest sg = t) segs.

(** The sum of the lengths of the segments assigned to a target. *)
Definition seg_total (t : Z * Z) (segs : list segment) : Z :=
  sum_Z (num_rows <$> segments_of t segs).

(** The number of output sheets that the layout [files] holds. *)
Definition count_sheets (fs : gmap Z file_entry) : nat :=
  map_fold (λ _ e n, (size (sheets e) + n)%nat) 0%nat fs.

(** [segs] are non-empty ranges of the sheet [name] that follow one another
    from row [from] up to row [to]. *)
Fixpoint contiguous (name : string) (from to : Z) (segs : list segment) : Prop :=
  match segs with
  | [] => from = to
  | sg :: rest =>
    input_sheet sg = name ∧ start_row sg = from ∧ 0 < num_rows sg ∧
    contiguous name (from + num_rows sg) to rest
  end.

(** [segs] read in order cover the listed sheets one after the other, each
    over its full range from row 0 to its size. *)
Fixpoint covers (info : gmap string sheet_info) (names : list string)
    (segs : list segment) : Prop :=
  match names with
  | [] => segs = []
  | name :: rest =>
    ∃ chunk segs' z, segs = chunk ++ segs' ∧ size_in info name = Some z ∧
      contiguous name 0 z chunk ∧ covers info rest segs'
  end.

(** [l[start : start + n]] *)
Definition slice {A} (start n : Z) (l : list A) : list A :=
  take (Z.to_nat n) (drop (Z.to_nat start) l).

(** The records of the source range of a segment. *)
Definition segment_records (input : workbook) (sg : segment) : list (list cell) :=
  match lookup_sheet (input_sheet sg) input with
  | Some sh => slice (start_row sg) (num_rows sg) (rows sh)
  | None => []
  end.

(** The records of an output group: those of its segments, in plan order. *)
Definition output_group (input : workbook) (segs : list segment) (t : Z * Z)
    : list (list cell) :=
  segments_of t segs ≫= segment_records input.

(** The targets in target order: by file, then by sheet within the file. *)
Definition target_grid (total_files sheets_per_file : Z) : list (Z * Z) :=
  f ← seqZ 1 total_files; s ← seqZ 1 sheets_per_file; [(f, s)].


(** The records of all input groups, concatenated in listing order. *)
Definition input_records (input : workbook) : list (list cell) :=
  input ≫= (λ p, rows p.2).

(** The state of the walk after [(a * G + b) * R + r] records: [a] full
    files, [b] full sheets in the current file, [r] records in the current
    sheet. *)
Record inv (G R a b r : Z) (st : planner_state) : Prop := Inv {
  inv_a : 0 ≤ a;
  inv_b : 0 ≤ b < G;
  inv_r : 0 ≤ r < R;
  inv_file : current_file st = 1 + a;
  inv_sheet : current_sheet st = 1 + b;
  inv_cur : sheet_rows (ps_files st) (1 + a) (1 + b) = if decide (r = 0) then None else Some r;
  inv_entries : ∀ f s c, sheet_rows (ps_files st) f s = Some c →
    0 < c ≤ R ∧ 1 ≤ s ≤ G ∧ 1 ≤ f ∧ lex_le (f, s) (1 + a, 1 + b);
  inv_present : ∀ f, is_Some (ps_files st !! f) → 1 ≤ f ≤ 1 + a;
  inv_cur_file : is_Some (ps_files st !! (1 + a)) ↔ (0 < b ∨ 0 < r);
  inv_size : Z.of_nat (size (ps_files st)) = a + (if decide (0 < b ∨ 0 < r) then 1 else 0);
  inv_count : Z.of_nat (count_sheets (ps_files st)) =
    a * G + b + (if decide (r = 0) then 0 else 1);
  inv_totals : ∀ t, seg_total t (ps_segments st) =
    default 0 (sheet_rows (ps_files st) t.1 t.2);
  inv_segs : Forall (λ sg, 0 < num_rows sg ∧
    is_Some (sheet_rows (ps_files st) (output_file sg) (output_sheet sg))) (ps_segments st);
  inv_sorted : StronglySorted lex_le (dest <$> ps_segments st)
}.

End Planner.


Import Planner.

(** ** Chunked reader (excel_splitter_rewrite.py) *)

Module Reader.

(** [df.columns = header_df.columns]: pandas raises on a length mismatch. *)
Definition set_columns (df : dataframe) (cols : list string) : outcome dataframe :=
  if decide (length (columns df) = length cols)
  then Returns (DataFrame cols (rows df))
  else Raises ValueError.

Definition read_sheet_data (input_file : option workbook) (sheet_name : string)
    (start_row : Z) (num_rows : option Z) : outcome dataframe :=
  try_except
    (if decide (start_row = 0) then
       read_excel input_file sheet_name 0 num_rows
     else
       df ←! read_excel input_file sheet_name start_row num_rows;
       header_df ←! read_excel input_file sheet_name 0 (Some 1);
       set_columns df (columns header_df))
    (λ _, Returns (DataFrame [] [])).

End Reader.

Import Reader.

(** ** Output consolidator and coordinator (excel_splitter_rewrite.py)

    The output directory maps the index [i] of [output_i.xlsx] to the file;
    a workbook maps the index [j] of [Sheet_j] to its DataFrame.  A file
    that exists but that pandas cannot parse is [Corrupt]. *)

Module Consolidator.

(** The [logger.error] calls of [process_data_segment]. *)
Inductive log_record : Type :=
  | CannotReadSegment (sheet_name : string) (start_row : Z)
  | WriteError (file sheet : Z)
  | CannotRecover (file : Z)
  | SegmentError.

Record world : Type := World {
  out_dir : gmap Z out_file;
  log : list log_record
}.

(** How a block that writes a file can fail for reasons outside the model
    (the disk, a writer of another process): it does not fail, or it raises
    before the file is touched, or it raises after the file was opened for
    writing and leaves it truncated or partly written, in the state
    [remains]. *)
Inductive failure : Type :=
  | Succeeds
  | FailsBefore
  | FailsLeaving (remains : out_file).

(** The failures of the two writer blocks of [process_data_segment]: the
    locked write and the rewrite of the recovery path. *)
Record faults : Type := Faults {
  write_fault : failure;
  recover_fault : failure
}.

Definition no_faults : faults := Faults Succeeds Succeeds.

(** Computations on the output directory: state is kept when they raise. *)
Definition io (A : Type) : Type := world → outcome A * world.

Definition io_ret {A} (a : A) : io A := λ w, (Returns a, w).

Definition io_raise {A} (e : exn) : io A := λ w, (Raises e, w).

Definition io_bind {A B} (m : io A) (k : A → io B) : io B :=
  λ w, match m w with
       | (Returns a, w') => k a w'
       | (Raises e, w') => (Raises e, w')
       | (OutOfFuel, w') => (OutOfFuel, w')
       end.

Definition io_try {A} (body : io A) (handler : exn → io A) : io A :=
  λ w, match body w with
       | (Raises e, w') => handler e w'
       | r => r
       end.

Definition logger_error (r : log_record) : io unit :=
  λ w, (Returns tt, World (out_dir w) (log w ++ [r])).

(** [os.path.exists(output_path)] *)
Definition path_exists (f : Z) : io bool :=
  λ w, (Returns (bool_decide (is_Some (out_dir w !! f))), w).

(** [pd.ExcelFile(output_path)] with its sheets read: [.sheet_names], and
    [pd.read_excel(output_path, sheet_name=sheet)] for every sheet. *)
Definition excel_file_sheets (f : Z) : io (gmap Z dataframe) :=
  λ w, match out_dir w !! f with
       | Some (Book wb) => (Returns wb, w)
       | Some Corrupt => (Raises OtherError, w)
       | None => (Raises FileNotFoundError, w)
       end.

(** [df.to_excel(writer, sheet_name=.., index=False)] on the workbook of a
    writer with [if_sheet_exists='overlay']: the cells of the frame are
    written from the top of the sheet; rows of the sheet below the frame
    stay. *)
Definition overlay (old : option dataframe) (new : dataframe) : dataframe :=
  match old with
  | None => new
  | Some o => DataFrame (columns new) (rows new ++ drop (length (rows new)) (rows o))
  end.

Definition to_excel_overlay (s : Z) (df : dataframe) (book : gmap Z dataframe)
    : gmap Z dataframe :=
  <[s := overlay (book !! s) df]> book.

Inductive writer_mode : Type := ModeW | ModeA.

(** [with pd.ExcelWriter(output_path, engine='openpyxl', mode=mode,
    if_sheet_exists='overlay') as writer: body], for a pandas that knows
    ['overlay'].  pandas accepts [if_sheet_exists] in append mode only:
    with mode ['w'] the constructor raises [ValueError] before it opens the
    file, and the file is neither created nor changed.  With mode ['a'] the
    writer loads the stored workbook, [body] writes to the loaded workbook,
    and the workbook is saved when the block is left; when [body] raises,
    the workbook is saved as it was loaded. *)
Definition excel_writer_overlay (flt : failure) (mode : writer_mode) (f : Z)
    (body : gmap Z dataframe → outcome (gmap Z dataframe)) : io unit :=
  λ w, match mode with
       | ModeW => (Raises ValueError, w)
       | ModeA =>
         match out_dir w !! f with
         | Some (Book book) =>
           match flt with
           | Succeeds =>
             match body book with
             | Returns book' =>
               (Returns tt, World (<[f := Book book']> (out_dir w)) (log w))
             | Raises e => (Raises e, w)
             | OutOfFuel => (OutOfFuel, w)
             end
           | FailsBefore => (Raises OtherError, w)
           | FailsLeaving remains =>
             (Raises OtherError, World (<[f := remains]> (out_dir w)) (log w))
           end
         | Some Corrupt => (Raises OtherError, w)
         | None => (Raises FileNotFoundError, w)
         end
       end.

(** [with pd.ExcelWriter(output_path, engine='openpyxl', mode='w') as writer:
    for name, data in all_sheets.items(): data.to_excel(writer, sheet_name=name)]:
    the constructor opens the file, which empties it, and the workbook is
    written when the block is left. *)
Definition excel_rewrite (flt : failure) (f : Z) (all_sheets : gmap Z dataframe) : io unit :=
  λ w, match flt with
       | Succeeds => (Returns tt, World (<[f := Book all_sheets]> (out_dir w)) (log w))
       | FailsBefore => (Raises OtherError, w)
       | FailsLeaving remains =>
         (Raises OtherError, World (<[f := remains]> (out_dir w)) (log w))
       end.

(** The rows that an append adds: [df.iloc[1:] if include_header else df]. *)
Definition appended (include_header : bool) (df : dataframe) : dataframe :=
  if include_header then iloc_from_1 df else df.

Definition process_data_segment (input_file : option workbook) (seg : segment)
    (flt : faults) : io unit :=
  io_try
    (let input_sheet := input_sheet seg in
     let start_row := start_row seg in
     let num_rows := num_rows seg in
     let f := output_file seg in
     let s := output_sheet seg in
     let include_header := bool_decide (start_row = 0) in
     match read_sheet_data input_file input_sheet start_row (Some num_rows) with
     | Raises e => io_raise e
     | OutOfFuel => λ w, (OutOfFuel, w)
     | Returns df =>
       if df_empty df then logger_error (CannotReadSegment input_sheet start_row)
       else
         (* with file_lock: *)
         io_bind (path_exists f) (λ file_exists,
         io_bind
           (if file_exists then
              io_try (io_bind (excel_file_sheets f)
                        (λ wb, io_ret (true, bool_decide (is_Some (wb !! s)))))
                     (λ _, io_ret (false, false))
            else io_ret (false, false))
           (λ probe,
              let file_exists := probe.1 in
              let sheet_exists := probe.2 in
              let mode := if file_exists then ModeA else ModeW in
              io_try
                (excel_writer_overlay (write_fault flt) mode f (λ book,
                   if negb sheet_exists then
                     Returns (to_excel_overlay s df book)
                   else
                     (* existing_data = pd.read_excel(output_path, ..): the
                        file still is as the writer loaded it *)
                     match book !! s with
                     | None => Raises ValueError
                     | Some existing_data =>
                       combined_data ←!
                         pd_concat existing_data (appended include_header df);
                       Returns (to_excel_overlay s combined_data book)
                     end))
                (λ _,
                   io_bind (logger_error (WriteError f s)) (λ _,
                   io_try
                     (io_bind (excel_file_sheets f) (λ all_sheets,
                      let all_sheets' :=
                        match all_sheets !! s with
                        | Some old =>
                          combined ←! pd_concat old (appended include_header df);
                          Returns (<[s := combined]> all_sheets)
                        | None => Returns (<[s := df]> all_sheets)
                        end in
                      match all_sheets' with
                      | Returns sheets => excel_rewrite (recover_fault flt) f sheets
                      | Raises e => io_raise e
                      | OutOfFuel => λ w, (OutOfFuel, w)
                      end))
                     (λ _, logger_error (CannotRecover f))))))
     end)
    (λ _, logger_error SegmentError).

(** *** Vocabulary of the consolidator's properties *)

(** The workbook stored for an output file, when pandas can parse it. *)
Definition book_of (dir : gmap Z out_file) (f : Z) : option (gmap Z dataframe) :=
  match dir !! f with
  | Some (Book wb) => Some wb
  | _ => None
  end.

(** The content of a target after a batch is consolidated into it. *)
Definition new_sheet_content (old : option dataframe) (include_header : bool)
    (df : dataframe) : outcome dataframe :=
  match old with
  | None => Returns df
  | Some o => pd_concat o (appended include_header df)
  end.

(** The workbook after the batch [df] of [seg] is consolidated into it. *)
Definition consolidated_book (wb : gmap Z dataframe) (seg : segment) (df : dataframe)
    : outcome (gmap Z dataframe) :=
  content ←! new_sheet_content (wb !! output_sheet seg)
               (bool_decide (start_row seg = 0)) df;
  Returns (<[output_sheet seg := content]> wb).

(** The workbook after the batch is consolidated into it when no writer
    fails; it stays as it is when pandas cannot concatenate. *)
Definition appended_book (wb : gmap Z dataframe) (seg : segment) (df : dataframe)
    : gmap Z dataframe :=
  match consolidated_book wb seg df with
  | Returns wb' => wb'
  | _ => wb
  end.

(** What a writer block that failed leaves of the file [file]. *)
Definition left_by (flt : failure) (file : out_file) : out_file :=
  match flt with
  | FailsLeaving remains => remains
  | _ => file
  end.

(** The recovery path on the file [file]: the file after it, and whether
    the file was rewritten. *)
Definition recovery (flt : failure) (seg : segment) (df : dataframe) (file : out_file)
    : out_file * bool :=
  match file with
  | Corrupt => (Corrupt, false)
  | Book wb =>
    match consolidated_book wb seg df with
    | Returns wb' =>
      match flt with
      | Succeeds => (Book wb', true)
      | _ => (left_by flt file, false)
      end
    | _ => (file, false)
    end
  end.

(** What [process_data_segment] does with a batch [df] that is not empty to
    the file of its target, when the file exists: the file after it, and
    what is logged. *)
Definition file_effect (seg : segment) (flt : faults) (df : dataframe) (file : out_file)
    : out_file * list log_record :=
  let f := output_file seg in
  let s := output_sheet seg in
  match file with
  | Corrupt => (Corrupt, [WriteError f s; CannotRecover f])
  | Book wb =>
    match write_fault flt, consolidated_book wb seg df with
    | Succeeds, Returns wb' => (Book wb', [])
    | _, _ =>
      let r := recovery (recover_fault flt) seg df (left_by (write_fault flt) file) in
      (r.1, if r.2 then [WriteError f s] else [WriteError f s; CannotRecover f])
    end
  end.

(** What [process_data_segment] does to the output directory. *)
Definition dir_effect (input_file : option workbook) (seg : segment) (flt : faults)
    (dir : gmap Z out_file) : gmap Z out_file :=
  match read_sheet_data input_file (input_sheet seg) (start_row seg)
          (Some (num_rows seg)) with
  | Returns df =>
    if df_empty df then dir
    else match dir !! output_file seg with
         | Some file => <[output_file seg := (file_effect seg flt df file).1]> dir
         | None => dir
         end
  | _ => dir
  end.

(** What [process_data_segment] appends to the log. *)
Definition log_effect (input_file : option workbook) (seg : segment) (flt : faults)
    (dir : gmap Z out_file) : list log_record :=
  match read_sheet_data input_file (input_sheet seg) (start_row seg)
          (Some (num_rows seg)) with
  | Returns df =>
    if df_empty df then [CannotReadSegment (input_sheet seg) (start_row seg)]
    else match dir !! output_file seg with
         | Some file => (file_effect seg flt df file).2
         | None => [WriteError (output_file seg) (output_sheet seg);
                    CannotRecover (output_file seg)]
         end
  | _ => [SegmentError]
  end.

(** The output directory after the segments [segs] took effect in order. *)
Definition run_dir (input_file : option workbook) (flt : segment → faults)
    (segs : list segment) (dir : gmap Z out_file) : gmap Z out_file :=
  foldl (λ d sg, dir_effect input_file sg (flt sg) d) dir segs.

(** The submitted segments, each run to its end under the lock of its file.
    The pool may start them in any order; [segs] is the order in which they
    take effect. *)
Fixpoint run_segments (input_file : option workbook) (flt : segment → faults)
    (segs : list segment) : io unit :=
  match segs with
  | [] => io_ret tt
  | seg :: rest =>
    io_bind (io_try (process_data_segment input_file seg (flt seg))
                    (λ _, logger_error SegmentError))
      (λ _, run_segments input_file flt rest)
  end.

(** [split_excel_file_distributed]; [ThreadPoolExecutor] raises when it is
    given no worker. *)
Definition split_excel_file_distributed (fuel : nat) (cpu_count : Z) (src : source)
    (input_file : option workbook) (sheets_per_file data_rows_per_sheet : Z)
    (max_workers : option Z) (flt : segment → faults) : io Z :=
  λ w,
    let max_workers :=
      match max_workers with
      | None => Z.max 1 (cpu_count - 1)
      | Some m => m
      end in
    match analyze_input_file src with
    | Raises e => (Raises e, w)
    | OutOfFuel => (OutOfFuel, w)
    | Returns input_analysis =>
      match calculate_output_distribution fuel input_analysis
              sheets_per_file data_rows_per_sheet with
      | Raises e => (Raises e, w)
      | OutOfFuel => (OutOfFuel, w)
      | Returns distribution =>
        let data_segments := data_segments distribution in
        let active_workers := Z.min max_workers (Z.of_nat (length data_segments)) in
        if decide (active_workers <= 0) then (Raises ValueError, w)
        else
          io_bind (run_segments input_file flt data_segments)
            (λ _, io_ret (total_output_files distribution)) w
      end
    end.

End Consolidator.

Import Consolidator.

(** ** Staging store and emission (excel_splitter_db.py)

    The table [excel_data] is the list of its rows in insertion order; the
    autoincremented [id] of a row is its position in that list. *)

Module Staging.

Record staged_row : Type := StagedRow {
  source_sheet : Z;
  row_num : Z;
  serial : cell;
  qri : cell
}.

Definition order_key (r : staged_row) : Z * Z := (source_sheet r, row_num r).

(** The order of [ORDER BY source_sheet, row_num]. *)
Definition row_le (r1 r2 : staged_row) : Prop :=
  lex_le (order_key r1) (order_key r2).

Global Instance row_le_dec r1 r2 : Decision (row_le r1 r2).
Proof. unfold row_le. apply _. Defined.

(** The value of a row in a column; a short row reads as an empty cell. *)
Definition cell_at (i : nat) (r : list cell) : cell := default String.EmptyString (r !! i).

(** [df.iloc[:, 0:2]] renamed to [serial], [qri], with the columns
    [source_sheet = sheet_idx] and [row_num = 1 .. len(df)] added. *)
Definition stage_rows (sheet_idx : Z) (df : dataframe) : list staged_row :=
  imap (λ i r, StagedRow sheet_idx (Z.of_nat i + 1) (cell_at 0 r) (cell_at 1 r)) (rows df).

(** Returns the reported row count and the table after the insert. *)
Definition read_sheet_to_db (input_file : option workbook) (sheet_name : string)
    (sheet_idx : Z) (table : list staged_row) : Z * list staged_row :=
  match read_excel input_file sheet_name 0 None with
  | Returns df =>
    let total_rows := df_len df in
    let table' :=
      if decide (2 ≤ length (columns df))%nat
      then table ++ stage_rows sheet_idx df
      else table in
    (total_rows - 1, table')
  | _ => (0, table)
  end.

(** [enumerate(sheet_names, 1)] *)
Definition enumerate1 {A} (l : list A) : list (Z * A) :=
  imap (λ i x, (Z.of_nat i + 1, x)) l.

(** The order in which the jobs that were submitted to a pool complete.
    [picks] names, step by step, the pending job that completes next, by
    its position among the pending jobs; a position that is not there is
    passed over, and the jobs that are left when [picks] ends complete in
    the order of their submission. *)
Fixpoint completion_order {A} (picks : list nat) (pending : list A) : list A :=
  match picks with
  | [] => pending
  | k :: picks' =>
    match pending !! k with
    | Some job => job :: completion_order picks' (delete k pending)
    | None => completion_order picks' pending
    end
  end.

(** The jobs [read_sheet_to_db(input_file, sheet_name, idx, db_path)] of
    the pool of [read_excel_to_db], one worker process per sheet, each
    inserting the rows of its sheet in one transaction; [jobs] is the order
    in which they complete.  [total_data_rows += sheet_rows] is run as the
    jobs complete. *)
Fixpoint ingest_sheets (input_file : option workbook) (jobs : list (Z * string))
    (total : Z) (table : list staged_row) : Z * list staged_row :=
  match jobs with
  | [] => (total, table)
  | (idx, sheet_name) :: rest =>
    let r := read_sheet_to_db input_file sheet_name idx table in
    ingest_sheets input_file rest (total + r.1) r.2
  end.

(** [read_excel_to_db]; [picks] is the order in which the pool completes
    the jobs. *)
Definition read_excel_to_db (picks : list nat) (input_file : option workbook)
    (table : list staged_row) : outcome (Z * list staged_row) :=
  match input_file with
  | None => Raises FileNotFoundError
  | Some wb =>
    Returns (ingest_sheets input_file (completion_order picks (enumerate1 wb.*1)) 0 table)
  end.

(** [SELECT COUNT( * ) FROM excel_data] *)
Definition count_data_rows (table : list staged_row) : Z := Z.of_nat (length table).

(** [ORDER BY source_sheet, row_num] *)
Definition order_by_key (table : list staged_row) : list staged_row :=
  merge_sort row_le table.

(** [LIMIT limit OFFSET offset] of SQLite: a negative limit is no limit and a
    negative offset is no offset. *)
Definition limit_offset {A} (limit offset : Z) (l : list A) : list A :=
  let rest := drop (Z.to_nat offset) l in
  if decide (limit < 0) then rest else take (Z.to_nat limit) rest.

(** The rows that the query of [get_data_for_sheet] selects, before the
    projection to [serial, qri]. *)
Definition selected_rows (table : list staged_row) (start_row row_count : Z)
    : list staged_row :=
  limit_offset row_count (start_row - 1) (order_by_key table).

Definition get_data_for_sheet (table : list staged_row) (start_row row_count : Z)
    : dataframe :=
  DataFrame ["serial"; "qri"]%string
    ((λ r, [serial r; qri r]) <$> selected_rows table start_row row_count).

(** The output directory maps the index [i] of [output_i.xlsx] to the file;
    a workbook maps the index [j] of sheet [CA j] to its DataFrame. *)

(** Which of the three writer blocks of [write_excel_file] raise, each
    before it opens the file: the intended write, the rewrite of the inner
    handler, the rewrite of the outer handler. *)
Record write_faults : Type := WriteFaults {
  first_fails : bool;
  inner_fails : bool;
  outer_fails : bool
}.

Definition write_excel_file (flt : write_faults) (dir : gmap Z out_file)
    (f sheet_idx : Z) (data_df : dataframe) (is_new_file : bool) : gmap Z out_file :=
  let fresh (d : gmap Z out_file) := <[f := Book {[sheet_idx := data_df]}]> d in
  let outer_handler (d : gmap Z out_file) := if outer_fails flt then d else fresh d in
  if is_new_file || negb (bool_decide (is_Some (dir !! f))) then
    if first_fails flt then outer_handler dir else fresh dir
  else
    match dir !! f with
    | Some (Book book) =>
      (* book.remove(..); book.save(output_path) *)
      if decide (delete sheet_idx book = ∅) then
        (* openpyxl refuses to save a workbook without a sheet, after it
           opened the file for writing; the handlers run, and the file ends
           as a file that cannot be parsed *)
        <[f := Corrupt]> dir
      else
        let saved := <[f := Book (delete sheet_idx book)]> dir in
        if first_fails flt then
          if inner_fails flt then outer_handler saved else fresh saved
        else <[f := Book (<[sheet_idx := data_df]> (delete sheet_idx book))]> dir
    | _ =>
      if inner_fails flt then outer_handler dir else fresh dir
    end.

(** [range(1, n + 1)] *)
Definition range1 (n : Z) : list Z := seqZ 1 n.

(** The [(file_idx, sheet_idx_in_file)] pairs that [create_output_files]
    visits. *)
Definition tasks (sheets_per_file total_files total_sheets : Z) : list (Z * Z) :=
  file_idx ← range1 total_files;
  sheet_idx_in_file ← range1 sheets_per_file;
  let global_sheet_idx := (file_idx - 1) * sheets_per_file + sheet_idx_in_file in
  if decide (global_sheet_idx <= total_sheets) then [(file_idx, sheet_idx_in_file)] else [].

(** The closure [process_sheet]: the new directory and the returned flag. *)
Definition process_sheet (flt : Z * Z → write_faults) (table : list staged_row)
    (sheets_per_file rows_per_sheet total_rows : Z) (dir : gmap Z out_file)
    (file_idx sheet_idx_in_file : Z) : gmap Z out_file * bool :=
  let global_sheet_idx := (file_idx - 1) * sheets_per_file + sheet_idx_in_file in
  let start_row := (global_sheet_idx - 1) * rows_per_sheet + 1 in
  let sheet_row_count := Z.min rows_per_sheet (total_rows - (start_row - 1)) in
  if decide (sheet_row_count <= 0) then (dir, false)
  else
    let data_df := get_data_for_sheet table start_row sheet_row_count in
    if df_empty data_df then (dir, false)
    else
      let is_new_file :=
        bool_decide (sheet_idx_in_file = 1) && negb (bool_decide (is_Some (dir !! file_idx))) in
      (write_excel_file (flt (file_idx, sheet_idx_in_file)) dir file_idx sheet_idx_in_file
         data_df is_new_file, true).

Definition create_output_files (flt : Z * Z → write_faults) (table : list staged_row)
    (dir : gmap Z out_file) (sheets_per_file rows_per_sheet : Z)
    : outcome (Z * gmap Z out_file) :=
  let total_rows := count_data_rows table in
  total_sheets ←! math_ceil_div total_rows rows_per_sheet;
  total_files ←! math_ceil_div total_sheets sheets_per_file;
  Returns (total_files,
           foldl (λ d t, (process_sheet flt table sheets_per_file rows_per_sheet total_rows
                            d t.1 t.2).1)
                 dir (tasks sheets_per_file total_files total_sheets)).

(** *** Vocabulary of the emitter's properties *)

(** Every file of the directory is a workbook that has a sheet; its sheets
    are targets of [visited], with indices from 1 to [G] and at most [R]
    records each. *)
Definition emitted_within (G R : Z) (visited : list (Z * Z)) (dir : gmap Z out_file)
    : Prop :=
  ∀ f file, dir !! f = Some file →
    ∃ wb, file = Book wb ∧ wb ≠ ∅ ∧
      ∀ s df, wb !! s = Some df → (f, s) ∈ visited ∧ 1 ≤ s ≤ G ∧ df_len df ≤ R.

(** The global index of a target of the emitter. *)
Definition global_sheet_idx (sheets_per_file : Z) (t : Z * Z) : Z :=
  (t.1 - 1) * sheets_per_file + t.2.

(** The rows that [process_sheet] reads for the output sheet of global
    index [g]; none when it returns before the query. *)
Definition sheet_rows_read (table : list staged_row) (rows_per_sheet g : Z)
    : list (list cell) :=
  let total_rows := count_data_rows table in
  let start_row := (g - 1) * rows_per_sheet + 1 in
  let sheet_row_count := Z.min rows_per_sheet (total_rows - (start_row - 1)) in
  if decide (sheet_row_count <= 0) then []
  else rows (get_data_for_sheet table start_row sheet_row_count).

(** The rows read for all targets that [create_output_files] visits,
    concatenated in target order. *)
Definition emitted_in_target_order (table : list staged_row)
    (sheets_per_file rows_per_sheet : Z) : list (list cell) :=
  let total_rows := count_data_rows table in
  let total_sheets := ceil_div total_rows rows_per_sheet in
  let total_files := ceil_div total_sheets sheets_per_file in
  tasks sheets_per_file total_files total_sheets ≫=
    (λ t, sheet_rows_read table rows_per_sheet (global_sheet_idx sheets_per_file t)).

End Staging.

Import Staging.

(** ** Streaming splitter (excel_splitter.py)

    The splitter keeps one writer open.  The workbook of the open writer
    maps the index [j] of [Sheet_j] to the worksheet, a grid of cells with
    the header row first; the file of a writer is written when the writer
    is closed. *)

Module Streaming.

(** The variables that the loops of [split_excel_file_with_optimized_memory]
    update, the workbook of the open writer and the output directory. *)
Record stream_state : Type := StreamState {
  ss_dir : gmap Z out_file;
  writer_book : gmap Z (list (list cell));
  rows_processed : Z;
  current_output_file : Z;
  current_sheet_in_file : Z;
  current_rows_in_sheet : Z
}.

(** Computations on that state: the state is kept when they raise. *)
Definition sio (A : Type) : Type := stream_state → outcome A * stream_state.

Definition sret {A} (a : A) : sio A := λ st, (Returns a, st).

Definition sraise {A} (e : exn) : sio A := λ st, (Raises e, st).

Definition sbind {A B} (m : sio A) (k : A → sio B) : sio B :=
  λ st, match m st with
        | (Returns a, st') => k a st'
        | (Raises e, st') => (Raises e, st')
        | (OutOfFuel, st') => (OutOfFuel, st')
        end.

(** [list(range(0, stop, step))] *)
Definition py_range (stop step : Z) : outcome (list Z) :=
  if decide (step = 0) then Raises ValueError
  else Returns ((λ i, i * step) <$> seqZ 0 (ceil_div stop step)).

(** The position that an index of a slice denotes in a sequence of length
    [len]: a negative index counts from the end. *)
Definition py_bound (len i : Z) : Z :=
  if decide (i < 0) then Z.max 0 (len + i) else Z.min len i.

(** [df.iloc[start:stop]] on the rows of a frame. *)
Definition iloc_rows {A} (start stop : Z) (l : list A) : list A :=
  let len := Z.of_nat (length l) in
  let a := py_bound len start in
  let b := py_bound len stop in
  take (Z.to_nat (b - a)) (drop (Z.to_nat a) l).

(** Writing the cells of a row over a row of a worksheet. *)
Definition overlay_row (new old : list cell) : list cell :=
  new ++ drop (length new) old.

(** Writing the rows [new] into a worksheet from its row of index [p] on
    (the header row has index 0); rows between the end of the worksheet
    and [p] are blank. *)
Definition write_grid (p : nat) (new g : list (list cell)) : list (list cell) :=
  let padded := g ++ replicate (p + length new - length g) [] in
  take p padded ++
  zip_with overlay_row new (take (length new) (drop p padded)) ++
  drop (p + length new) padded.

(** [df.to_excel(writer, sheet_name=.., index=False)] on a writer of mode
    ['w']: a new worksheet holds the header and the rows; a worksheet of
    that name that the writer already has is written over from its top. *)
Definition to_excel (df : dataframe) (old : option (list (list cell))) : list (list cell) :=
  match old with
  | None => columns df :: rows df
  | Some g => write_grid 0 (columns df :: rows df) g
  end.

(** [for r_idx, row in enumerate(dataframe_to_rows(df_to_add, ..)): ...
    sheet.cell(row=current_rows_in_sheet + r_idx + 2, ..)]: openpyxl raises
    on a row number below 1. *)
Definition append_rows (current_rows_in_sheet : Z) (new sheet : list (list cell))
    : outcome (list (list cell)) :=
  match new with
  | [] => Returns sheet
  | _ =>
    if decide (current_rows_in_sheet + 2 < 1) then Raises ValueError
    else Returns (write_grid (Z.to_nat (current_rows_in_sheet + 1)) new sheet)
  end.

(** The frame that pandas parses from a worksheet. *)
Definition grid_frame (g : list (list cell)) : dataframe :=
  DataFrame (hd [] g) (tail g).

(** [pd.ExcelWriter(output_path, engine='openpyxl')]: pandas from 1.2 on
    opens the file, which is then empty until the writer is closed;
    earlier versions leave the directory as it is. *)
Definition new_writer (opens_file : bool) (f : Z) (dir : gmap Z out_file)
    : gmap Z out_file :=
  if opens_file then <[f := Corrupt]> dir else dir.

(** [writer.close()]: the workbook is saved; openpyxl refuses to save a
    workbook without a sheet. *)
Definition close_writer (st : stream_state) : outcome (gmap Z out_file) :=
  if decide (writer_book st = ∅) then Raises OtherError
  else Returns (<[current_output_file st := Book (grid_frame <$> writer_book st)]>
                  (ss_dir st)).

(** One pass through the body of [while chunk_rows_left > 0]; returns the
    new [chunk_rows_left] and [chunk_start_idx]. *)
Definition while_chunk_body (opens_file : bool) (sheets_per_file rows_per_sheet : Z)
    (df_chunk : dataframe) (chunk_rows_left chunk_start_idx : Z) : sio (Z * Z) :=
  λ st,
    let rows_to_add := Z.min chunk_rows_left (rows_per_sheet - current_rows_in_sheet st) in
    let df_to_add :=
      DataFrame (columns df_chunk)
        (iloc_rows chunk_start_idx (chunk_start_idx + rows_to_add) (rows df_chunk)) in
    let s := current_sheet_in_file st in
    let written :=
      if decide (current_rows_in_sheet st = 0) then
        Returns (<[s := to_excel df_to_add (writer_book st !! s)]> (writer_book st))
      else
        match writer_book st !! s with
        | None => Raises KeyError
        | Some sheet =>
          g ←! append_rows (current_rows_in_sheet st) (rows df_to_add) sheet;
          Returns (<[s := g]> (writer_book st))
        end in
    match written with
    | Raises e => (Raises e, st)
    | OutOfFuel => (OutOfFuel, st)
    | Returns book =>
      let chunk_start_idx := chunk_start_idx + rows_to_add in
      let chunk_rows_left := chunk_rows_left - rows_to_add in
      let cur := current_rows_in_sheet st + rows_to_add in
      let processed := rows_processed st + rows_to_add in
      let f := current_output_file st in
      if decide (cur >= rows_per_sheet) then
        let s' := s + 1 in
        if decide (s' > sheets_per_file ∧ chunk_rows_left > 0) then
          let st1 := StreamState (ss_dir st) book processed f s' 0 in
          match close_writer st1 with
          | Returns dir' =>
            (Returns (chunk_rows_left, chunk_start_idx),
             StreamState (new_writer opens_file (f + 1) dir') ∅ processed (f + 1) 1 0)
          | Raises e => (Raises e, st1)
          | OutOfFuel => (OutOfFuel, st1)
          end
        else
          (Returns (chunk_rows_left, chunk_start_idx),
           StreamState (ss_dir st) book processed f s' 0)
      else
        (Returns (chunk_rows_left, chunk_start_idx),
         StreamState (ss_dir st) book processed f s cur)
    end.

(** The [while] loop for one chunk.  The source loop has no bound of its
    own; [fuel] counts the iterations that are allowed. *)
Fixpoint while_chunk (fuel : nat) (opens_file : bool) (sheets_per_file rows_per_sheet : Z)
    (df_chunk : dataframe) (chunk_rows_left chunk_start_idx : Z) : sio unit :=
  λ st,
    if decide (chunk_rows_left > 0) then
      match fuel with
      | O => (OutOfFuel, st)
      | S fuel' =>
        sbind (while_chunk_body opens_file sheets_per_file rows_per_sheet df_chunk
                 chunk_rows_left chunk_start_idx)
          (λ r, while_chunk fuel' opens_file sheets_per_file rows_per_sheet df_chunk r.1 r.2)
          st
      end
    else (Returns tt, st).

(** [for chunk_start in range(0, row_count, chunk_size): ...] *)
Fixpoint for_chunks (fuel : nat) (opens_file : bool) (xl : workbook)
    (sheets_per_file rows_per_sheet chunk_size : Z) (sheet_name : string) (row_count : Z)
    (starts : list Z) : sio unit :=
  match starts with
  | [] => sret tt
  | chunk_start :: rest =>
    sbind
      (λ st,
         let chunk_end := Z.min (chunk_start + chunk_size) row_count in
         let chunk_size_actual := chunk_end - chunk_start in
         match read_excel (Some xl) sheet_name chunk_start (Some chunk_size_actual) with
         | Returns df_chunk =>
           while_chunk fuel opens_file sheets_per_file rows_per_sheet df_chunk
             (df_len df_chunk) 0 st
         | Raises e => (Raises e, st)
         | OutOfFuel => (OutOfFuel, st)
         end)
      (λ _, for_chunks fuel opens_file xl sheets_per_file rows_per_sheet chunk_size
              sheet_name row_count rest)
  end.

(** [for sheet_name in sheet_names: ...], the loop that writes. *)
Fixpoint for_input_sheets (fuel : nat) (opens_file : bool) (xl : workbook)
    (sheets_per_file rows_per_sheet chunk_size : Z) (rows_per_sheet_input : gmap string Z)
    (names : list string) : sio unit :=
  match names with
  | [] => sret tt
  | sheet_name :: rest =>
    match rows_per_sheet_input !! sheet_name with
    | None => sraise KeyError
    | Some row_count =>
      match py_range row_count chunk_size with
      | Returns starts =>
        sbind (for_chunks fuel opens_file xl sheets_per_file rows_per_sheet chunk_size
                 sheet_name row_count starts)
          (λ _, for_input_sheets fuel opens_file xl sheets_per_file rows_per_sheet
                  chunk_size rows_per_sheet_input rest)
      | Raises e => sraise e
      | OutOfFuel => λ st, (OutOfFuel, st)
      end
    end
  end.

(** [for sheet_name in sheet_names: ...], the loop that counts:
    [row_count = ws.max_row - 1] of a sheet of the unchanged file. *)
Fixpoint count_input (xl : workbook) (names : list string)
    (rows_per_sheet_input : gmap string Z) (total_rows : Z)
    : outcome (gmap string Z * Z) :=
  match names with
  | [] => Returns (rows_per_sheet_input, total_rows)
  | sheet_name :: rest =>
    match lookup_sheet sheet_name xl with
    | None => Raises ValueError
    | Some sh =>
      let row_count := (1 + df_len sh) - 1 in
      count_input xl rest (<[sheet_name := row_count]> rows_per_sheet_input)
        (total_rows + row_count)
    end
  end.

(** Returns the outcome of the call and the output directory after it. *)
Definition split_excel_file_with_optimized_memory (opens_file : bool) (fuel : nat)
    (input_file : option workbook) (dir : gmap Z out_file)
    (sheets_per_file rows_per_sheet chunk_size : Z) : outcome Z * gmap Z out_file :=
  match input_file with
  | None => (Raises FileNotFoundError, dir)
  | Some xl =>
    let sheet_names := xl.*1 in
    match count_input xl sheet_names ∅ 0 with
    | Raises e => (Raises e, dir)
    | OutOfFuel => (OutOfFuel, dir)
    | Returns counted =>
      let rows_per_sheet_input := counted.1 in
      let total_rows := counted.2 in
      match (total_output_sheets ←! math_ceil_div total_rows rows_per_sheet;
             math_ceil_div total_output_sheets sheets_per_file) with
      | Raises e => (Raises e, dir)
      | OutOfFuel => (OutOfFuel, dir)
      | Returns total_output_files =>
        let st0 := StreamState (new_writer opens_file 1 dir) ∅ 0 1 1 0 in
        match for_input_sheets fuel opens_file xl sheets_per_file rows_per_sheet
                chunk_size rows_per_sheet_input sheet_names st0 with
        | (Returns _, st) =>
          match close_writer st with
          | Returns dir' => (Returns total_output_files, dir')
          | Raises e => (Raises e, ss_dir st)
          | OutOfFuel => (OutOfFuel, ss_dir st)
          end
        | (Raises e, st) => (Raises e, ss_dir st)
        | (OutOfFuel, st) => (OutOfFuel, ss_dir st)
        end
      end
    end
  end.

(** *** Vocabulary of the streaming splitter's properties *)



End Streaming.

Import Streaming.

(** ** The worked example of the specification *)

(** Groups A with 7 records and B with 5 records. *)
Definition example_input : workbook :=
  [("A", DataFrame ["serial"; "qri"]
           [["a0"; "x"]; ["a1"; "x"]; ["a2"; "x"]; ["a3"; "x"]; ["a4"; "x"];
            ["a5"; "x"]; ["a6"; "x"]]);
   ("B", DataFrame ["serial"; "qri"]
           [["b0"; "y"]; ["b1"; "y"]; ["b2"; "y"]; ["b3"; "y"]; ["b4"; "y"]])]%string.

Definition example_analysis : input_analysis :=
  InputAnalysis 2 ["A"; "B"]%string
    (<["B"%string := SheetInfo 6 5]> (<["A"%string := SheetInfo 8 7]> ∅)) 12.

(** The file of the worked example after group B has been removed. *)
Definition example_input_without_B : workbook := take 1 example_input.

(** The segment A[4:7] to (artifact 1, group 2) of the worked example. *)
Definition example_segment : segment := Segment "A" 4 3 1 2.

(** An output directory in which the target (artifact 1, group 2) holds the
    records of [example_segment]. *)
Definition example_written_once : gmap Z out_file :=
  <[1 := Book (<[2 := DataFrame ["serial"; "qri"]
                        [["a4"; "x"]; ["a5"; "x"]; ["a6"; "x"]]%string]> ∅)]> ∅.


(** The staged rows of the worked example, in the order of a sequential
    ingestion. *)
Definition example_table : list staged_row :=
  Eval vm_compute in
    (ingest_sheets (Some example_input) (enumerate1 example_input.*1) 0 []).2.

(** A sheet with a third field and a sheet with a single field. *)
Definition example_wide_input : workbook :=
  [("W", DataFrame ["serial"; "qri"; "note"]
           [["w0"; "p"; "n0"]; ["w1"; "q"; "n1"]]);
   ("N", DataFrame ["serial"] [["n0"]; ["n1"]; ["n2"]])]%string.

(** ** Vocabulary of the further properties *)

(** All entries of the planner's layout are zero. *)
Definition all_zero (fs : gmap Z file_entry) : Prop :=
  ∀ f s c, sheet_rows fs f s = Some c → c = 0.

(** The first two field values of a record, as the staging mode keeps
    them. *)
Definition first_two (r : list cell) : list cell := [cell_at 0 r; cell_at 1 r].

(** The first two field values of all records of the sheets that have at
    least two columns, in listing order. *)
Definition first_two_fields (wb : workbook) : list (list cell) :=
  wb ≫= (λ p, if decide (2 ≤ length (columns p.2))%nat
              then first_two <$> rows p.2 else []).

(** The rows that the ingestion stages for the sheets [l], the first of
    which has rank [idx], in the order of the listing. *)
Fixpoint staged_from (idx : Z) (l : workbook) : list staged_row :=
  match l with
  | [] => []
  | (_, sh) :: l' =>
    (if decide (2 ≤ length (columns sh))%nat then stage_rows idx sh else []) ++
    staged_from (idx + 1) l'
  end.

(** The rows that the job of a sheet stages, and the count that it
    reports: one less than the number of records. *)
Definition job_rows (wb : workbook) (job : Z * string) : list staged_row :=
  match lookup_sheet job.2 wb with
  | Some sh => if decide (2 ≤ length (columns sh))%nat then stage_rows job.1 sh else []
  | None => []
  end.

Definition job_count (wb : workbook) (job : Z * string) : Z :=
  match lookup_sheet job.2 wb with
  | Some sh => df_len sh - 1
  | None => 0
  end.

(** The frame that [process_sheet] queries for a target. *)
Definition task_frame (table : list staged_row) (sheets_per_file rows_per_sheet : Z)
    (t : Z * Z) : dataframe :=
  let start_row := (global_sheet_idx sheets_per_file t - 1) * rows_per_sheet + 1 in
  get_data_for_sheet table start_row
    (Z.min rows_per_sheet (count_data_rows table - (start_row - 1))).

Definition no_write_faults : Z * Z → write_faults :=
  λ _, WriteFaults false false false.

(** The stored records of a target of the output directory; none when the
    target is absent. *)
Definition stored_rows (dir : gmap Z out_file) (t : Z * Z) : list (list cell) :=
  default [] (rows <$> (book_of dir t.1 ≫= (.!! t.2))).

(** A batch that [read_sheet_data] cannot fill: the file or the sheet is
    missing, the sheet has no column or ends before the offset, or no
    positive number of rows is asked for. *)
Definition nothing_to_read (input_file : option workbook) (sg : segment) : Prop :=
  match input_file with
  | None => True
  | Some wb =>
    match lookup_sheet (input_sheet sg) wb with
    | None => True
    | Some sh => columns sh = [] ∨ df_len sh ≤ start_row sg ∨ num_rows sg ≤ 0
    end
  end.

(** The numbers of sheets and of files that [create_output_files] computes
    for a table, and the targets that it visits. *)
Definition emitter_sheets (table : list staged_row) (rows_per_sheet : Z) : Z :=
  ceil_div (count_data_rows table) rows_per_sheet.

Definition emitter_files (table : list staged_row) (sheets_per_file rows_per_sheet : Z) : Z :=
  ceil_div (emitter_sheets table rows_per_sheet) sheets_per_file.

Definition emitter_tasks (table : list staged_row) (sheets_per_file rows_per_sheet : Z)
    : list (Z * Z) :=
  tasks sheets_per_file (emitter_files table sheets_per_file rows_per_sheet)
    (emitter_sheets table rows_per_sheet).

(** ** The staging mode as a whole (excel_splitter_db.py)

    The database files that [split_excel_with_db] can find or leave: the
    file at [custom_db_path], and the copy [excel_data.db] in the output
    directory.  A database file is the table [excel_data] that it holds; a
    file that exists holds the table, as [create_database] makes it. *)
Record db_files : Type := DbFiles {
  custom_db : option (list staged_row);
  saved_db : option (list staged_row)
}.

(** [split_excel_with_db]; [custom_db_path] tells whether the caller names
    a database path, and [picks] is the order in which the pool of
    [read_excel_to_db] completes its jobs.  Returns the outcome of the call,
    the output directory and the database files after the [finally] block.
    The [ProcessPoolExecutor] of [read_excel_to_db] raises when it is given
    no worker. *)
Definition split_excel_with_db (flt : Z * Z → write_faults) (picks : list nat)
    (cpu_count : Z) (input_file : option workbook) (dir : gmap Z out_file)
    (sheets_per_file rows_per_sheet : Z) (max_workers : option Z)
    (custom_db_path delete_db : bool) (dbs : db_files)
    : outcome Z * gmap Z out_file * db_files :=
  let max_workers :=
    match max_workers with
    | None => Z.max 1 (cpu_count - 1)
    | Some m => m
    end in
  (* db_path is the custom path or a file of a fresh temporary directory *)
  let db_exists := if custom_db_path then custom_db dbs else None in
  (* how far the ingestion got, and the table at db_path after it *)
  let filled : outcome unit * list staged_row :=
    match db_exists with
    | Some table => (Returns tt, table)
    | None =>
      (* create_database(db_path); read_excel_to_db(input_file, db_path, ..) *)
      match read_excel_to_db picks input_file [] with
      | Returns r =>
        if decide (max_workers <= 0) then (Raises ValueError, []) else (Returns tt, r.2)
      | Raises e => (Raises e, [])
      | OutOfFuel => (OutOfFuel, [])
      end
    end in
  let table := filled.2 in
  let result :=
    u ←! filled.1;
    create_output_files flt table dir sheets_per_file rows_per_sheet in
  (* finally: *)
  let dbs' :=
    if custom_db_path then
      DbFiles (if delete_db then None else Some table) (saved_db dbs)
    else
      DbFiles (custom_db dbs) (if delete_db then saved_db dbs else Some table) in
  (r ←! result; Returns r.1,
   match result with Returns r => r.2 | _ => dir end,
   dbs').

(** ** The registry of file locks (excel_splitter_rewrite.py)

    [file_locks] maps an output path to its lock.  A lock is an object of
    its own; it is identified by the rank of its creation. *)
Record lock_registry : Type := LockRegistry {
  file_locks : gmap string nat;
  locks_created : nat
}.

(** [get_file_lock], run under [file_locks_lock]: the lock of the path and
    the registry after the call. *)
Definition get_file_lock (file_path : string) (reg : lock_registry)
    : nat * lock_registry :=
  match file_locks reg !! file_path with
  | Some lock => (lock, reg)
  | None =>
    (* file_locks[file_path] = threading.RLock() *)
    let lock := locks_created reg in
    (lock, LockRegistry (<[file_path := lock]> (file_locks reg)) (S (locks_created reg)))
  end.

(** The locks that a sequence of calls returns, the first of them made on
    the registry [reg]. *)
Fixpoint locks_for (paths : list string) (reg : lock_registry) : list nat :=
  match paths with
  | [] => []
  | file_path :: rest =>
    let r := get_file_lock file_path reg in
    r.1 :: locks_for rest r.2
  end.

(** Every registered lock was created, and no two paths share a lock. *)
Definition registry_ok (reg : lock_registry) : Prop :=
  (∀ p l, file_locks reg !! p = Some l → (l < locks_created reg)%nat) ∧
  (∀ p q l, file_locks reg !! p = Some l → file_locks reg !! q = Some l → p = q).

(** The plan of [d] with the reported number of files replaced. *)
Definition with_total_files (F : Z) (d : output_distribution) : output_distribution :=
  OutputDistribution (files d) F (total_output_sheets d) (data_segments d).

(** Every sheet of the layout other than the current sheet of the walk
    holds [R] records. *)
Definition others_full (R : Z) (st : planner_state) : Prop :=
  ∀ f s c, sheet_rows (ps_files st) f s = Some c →
    (f, s) ≠ (current_file st, current_sheet st) → c = R.






(** * Properties *)

(** ** Arithmetic of the ceiling *)

Lemma ceil_div_mixed (q r R : Z) :
  0 ≤ r < R → ceil_div (q * R + r) R = q + (if decide (r = 0) then 0 else 1).
Proof.
  intros Hr. unfold ceil_div. case_decide as H0.
  - subst r. replace (- (q * R + 0)) with ((- q) * R) by lia.
    rewrite Z.div_mul by lia. lia.
  - replace (- (q * R + r)) with ((- q - 1) * R + (R - r)) by lia.
    rewrite Z.div_add_l by lia. rewrite Z.div_small by lia. lia.
Qed.

Lemma ceil_div_exact (n R : Z) :
  0 < R → 0 ≤ n → 0 ≤ ceil_div n R ∧ (ceil_div n R - 1) * R < n ≤ ceil_div n R * R.
Proof.
  intros HR Hn.
  pose proof (Z.div_mod n R ltac:(lia)) as Hdm.
  pose proof (Z.mod_pos_bound n R HR) as Hm.
  pose proof (Z.div_pos n R Hn HR) as Hq.
  replace n with ((n / R) * R + n mod R) at 1 2 4 5 by lia.
  rewrite ceil_div_mixed by lia. case_decide; nia.
Qed.

(** ** The layout dictionary of the planner *)

Section layout.
Implicit Types (fs : gmap Z file_entry) (f s c : Z).

Lemma sheets_of_ensure_file f fs f' :
  sheets_of f' (ensure_file f fs) = sheets_of f' fs.
Proof.
  unfold ensure_file, sheets_of. destruct (fs !! f) eqn:E; [done|].
  destruct (decide (f = f')) as [->|Hne].
  - by rewrite lookup_insert_eq, E.
  - by rewrite lookup_insert_ne.
Qed.

Lemma sheets_of_set f s c fs f' :
  sheets_of f' (set_sheet_rows f s c fs) =
    if decide (f' = f) then <[s := c]> (sheets_of f fs) else sheets_of f' fs.
Proof.
  unfold set_sheet_rows, sheets_of at 1. case_decide as Hf.
  - subst. by rewrite lookup_insert_eq.
  - by rewrite lookup_insert_ne.
Qed.

Lemma sheet_rows_set f s c fs f' s' :
  sheet_rows (set_sheet_rows f s c fs) f' s' =
    if decide (f' = f ∧ s' = s) then Some c else sheet_rows fs f' s'.
Proof.
  unfold sheet_rows. rewrite sheets_of_set.
  destruct (decide (f' = f)) as [->|Hf].
  - destruct (decide (s' = s)) as [->|Hs].
    + rewrite lookup_insert_eq. by rewrite decide_True.
    + rewrite lookup_insert_ne by done. rewrite decide_False; [done|]. by intros [_ ?].
  - rewrite decide_False; [done|]. by intros [? _].
Qed.

Lemma body_current_rows f s fs :
  default 0 (sheet_rows (ensure_sheet f s (ensure_file f fs)) f s) =
    default 0 (sheet_rows fs f s).
Proof.
  unfold ensure_sheet.
  destruct (sheets_of f (ensure_file f fs) !! s) as [c|] eqn:E.
  - unfold sheet_rows. by rewrite sheets_of_ensure_file.
  - fold (set_sheet_rows f s 0 (ensure_file f fs)).
    rewrite sheet_rows_set. rewrite decide_True by done.
    rewrite sheets_of_ensure_file in E. unfold sheet_rows. by rewrite E.
Qed.

Lemma body_files f s c fs :
  set_sheet_rows f s c (ensure_sheet f s (ensure_file f fs)) = set_sheet_rows f s c fs.
Proof.
  assert (Hfile : set_sheet_rows f s c (ensure_file f fs) = set_sheet_rows f s c fs).
  { unfold set_sheet_rows. rewrite sheets_of_ensure_file.
    unfold ensure_file. destruct (fs !! f); [done|]. by rewrite insert_insert_eq. }
  unfold ensure_sheet.
  destruct (sheets_of f (ensure_file f fs) !! s) as [c0|] eqn:E; [done|].
  fold (set_sheet_rows f s 0 (ensure_file f fs)).
  rewrite <-Hfile. unfold set_sheet_rows at 1.
  rewrite sheets_of_set, decide_True by done.
  unfold set_sheet_rows. by rewrite !insert_insert_eq.
Qed.

Lemma lookup_set_is_Some f s c fs f' :
  is_Some (set_sheet_rows f s c fs !! f') ↔ f' = f ∨ is_Some (fs !! f').
Proof.
  unfold set_sheet_rows. destruct (decide (f' = f)) as [->|Hne].
  - rewrite lookup_insert_eq. split; [by left|by eexists].
  - rewrite lookup_insert_ne by done. split; [by right|by intros [?|?]].
Qed.

Lemma size_set f s c fs :
  size (set_sheet_rows f s c fs) =
    if decide (is_Some (fs !! f)) then size fs else S (size fs).
Proof.
  unfold set_sheet_rows. case_decide as H.
  - by rewrite map_size_insert_Some.
  - rewrite map_size_insert_None; [done|]. by apply eq_None_not_Some.
Qed.

Lemma count_sheets_insert_fresh f e fs :
  fs !! f = None →
  count_sheets (<[f := e]> fs) = (size (sheets e) + count_sheets fs)%nat.
Proof.
  intros Hf. unfold count_sheets.
  rewrite map_fold_insert_L; [done| |done]. intros. lia.
Qed.

Lemma count_sheets_insert_old f e e0 fs :
  fs !! f = Some e0 →
  (count_sheets (<[f := e]> fs) + size (sheets e0) =
    size (sheets e) + count_sheets fs)%nat.
Proof.
  intros Hf. rewrite <-(insert_delete_eq fs f e).
  rewrite count_sheets_insert_fresh by apply lookup_delete_eq.
  unfold count_sheets at 2.
  rewrite (map_fold_delete_L _ _ f e0 fs); [|intros; lia|done].
  fold (count_sheets (delete f fs)). lia.
Qed.

Lemma count_sheets_set f s c fs :
  count_sheets (set_sheet_rows f s c fs) =
    if decide (is_Some (sheet_rows fs f s)) then count_sheets fs
    else S (count_sheets fs).
Proof.
  unfold set_sheet_rows, sheet_rows, sheets_of.
  destruct (fs !! f) as [e0|] eqn:Hf.
  - pose proof (count_sheets_insert_old f (FileEntry (<[s:=c]> (sheets e0))) e0 fs Hf) as H.
    simpl in H. rewrite map_size_insert in H.
    case_decide as Hs.
    + destruct Hs as [c0 Hs]. rewrite Hs in H. unfold id in H. lia.
    + apply eq_None_not_Some in Hs. rewrite Hs in H. lia.
  - rewrite count_sheets_insert_fresh by done. simpl.
    rewrite decide_False by (rewrite lookup_empty; by intros [??]).
    by rewrite map_size_insert_None, map_size_empty by apply lookup_empty.
Qed.
End layout.

(** ** One pass of the planner's loop keeps the invariant *)

Lemma sum_Z_app (l1 l2 : list Z) : sum_Z (l1 ++ l2) = sum_Z l1 + sum_Z l2.
Proof. induction l1 as [|x l1 IH]; simpl; lia. Qed.

Lemma seg_total_snoc t segs sg :
  seg_total t (segs ++ [sg]) =
    seg_total t segs + (if decide (dest sg = t) then num_rows sg else 0).
Proof.
  unfold seg_total, segments_of. rewrite filter_app, fmap_app, sum_Z_app.
  f_equal. rewrite filter_cons, filter_nil. case_decide; simpl; lia.
Qed.

Lemma sheet_rows_present fs f s c :
  sheet_rows fs f s = Some c → is_Some (fs !! f).
Proof.
  unfold sheet_rows, sheets_of. destruct (fs !! f); [by eexists|].
  by rewrite lookup_empty.
Qed.

Global Instance lex_le_trans : Transitive lex_le.
Proof. intros [??] [??] [??]. unfold lex_le. simpl. lia. Qed.

Global Instance lex_le_refl : Reflexive lex_le.
Proof. intros [??]. unfold lex_le. simpl. lia. Qed.

Global Instance lex_le_antisym : AntiSymm (=) lex_le.
Proof. intros [??] [??]. unfold lex_le. simpl. intros. f_equal; lia. Qed.

Global Instance lex_le_total : Total lex_le.
Proof. intros [??] [??]. unfold lex_le. simpl. lia. Qed.

Lemma while_body_inv G R a b r name sz processed p st :
  inv G R a b r st →
  processed < sz →
  current_positions st !! name = Some p →
  let k := Z.min (sz - processed) (R - r) in
  ∃ a' b' r' st',
    while_body G R name sz processed st = Returns (processed + k, st') ∧
    inv G R a' b' r' st' ∧
    (a' * G + b') * R + r' = (a * G + b) * R + r + k ∧
    ps_segments st' = ps_segments st ++ [Segment name p k (1 + a) (1 + b)] ∧
    current_positions st' = <[name := p + k]> (current_positions st) ∧
    0 < k.
Proof.
  intros HI Hlt Hp k. destruct HI. destruct st as [fs rem cf cs segs pos].
  simpl in *. subst cf cs.
  assert (Hk : 0 < k ≤ R - r) by (unfold k; lia).
  assert (Hcur : default 0 (sheet_rows fs (1 + a) (1 + b)) = r).
  { rewrite inv_cur0. destruct (decide (r = 0)); simpl; lia. }
  set (seg := Segment name p k (1 + a) (1 + b)).
  set (fs' := set_sheet_rows (1 + a) (1 + b) (r + k) fs).
  assert (Hrows : ∀ f s, sheet_rows fs' f s =
      if decide (f = 1 + a ∧ s = 1 + b) then Some (r + k) else sheet_rows fs f s).
  { intros. apply sheet_rows_set. }
  assert (Hsize : Z.of_nat (size fs') = a + 1).
  { unfold fs'. rewrite size_set.
    destruct (decide (is_Some (fs !! (1 + a)))) as [Hc|Hc].
    - apply inv_cur_file0 in Hc. rewrite decide_True in inv_size0 by done. lia.
    - rewrite inv_cur_file0 in Hc. rewrite decide_False in inv_size0 by done. lia. }
  assert (Hcount : Z.of_nat (count_sheets fs') = a * G + b + 1).
  { unfold fs'. rewrite count_sheets_set, inv_cur0.
    destruct (decide (r = 0)).
    - rewrite decide_False by (by intros [??]). lia.
    - rewrite decide_True by (by eexists). lia. }
  assert (Htot : ∀ t, seg_total t (segs ++ [seg]) = default 0 (sheet_rows fs' t.1 t.2)).
  { intros [f s]. rewrite seg_total_snoc, inv_totals0, Hrows. simpl. unfold dest. simpl.
    destruct (decide (f = 1 + a ∧ s = 1 + b)) as [[-> ->]|Hne].
    - rewrite decide_True by done. simpl. lia.
    - rewrite decide_False; [lia|]. intros [= <- <-]. by apply Hne. }
  assert (Hsegs : Forall (λ sg, 0 < num_rows sg ∧
      is_Some (sheet_rows fs' (output_file sg) (output_sheet sg))) (segs ++ [seg])).
  { apply Forall_app. split.
    - eapply Forall_impl; [exact inv_segs0|]. intros sg [? Hs]. split; [done|].
      rewrite Hrows. destruct (decide (output_file sg = 1 + a ∧ output_sheet sg = 1 + b));
        [by eexists|done].
    - repeat constructor; simpl; [lia|]. rewrite Hrows, decide_True by done. by eexists. }
  assert (Hsorted : StronglySorted lex_le (dest <$> (segs ++ [seg]))).
  { rewrite fmap_app. apply StronglySorted_app_2; [|done|repeat constructor].
    intros x1 x2 Hx1 Hx2. apply list_elem_of_singleton in Hx2. subst x2.
    apply list_elem_of_fmap in Hx1 as (sg & -> & Hsg).
    rewrite Forall_forall in inv_segs0. destruct (inv_segs0 _ Hsg) as [_ [c Hc]].
    apply inv_entries0 in Hc. apply Hc. }
  assert (Hent : ∀ f s c, sheet_rows fs' f s = Some c →
      0 < c ≤ R ∧ 1 ≤ s ≤ G ∧ 1 ≤ f ∧ lex_le (f, s) (1 + a, 1 + b)).
  { intros f s c. rewrite Hrows.
    destruct (decide (f = 1 + a ∧ s = 1 + b)) as [[-> ->]|Hd].
    - intros [= <-]. repeat split; try lia. apply lex_le_refl.
    - apply inv_entries0. }
  assert (Hpres : ∀ f, is_Some (fs' !! f) → 1 ≤ f ≤ 1 + a).
  { intros f Hf. apply lookup_set_is_Some in Hf as [->|Hf]; [lia|]. by apply inv_present0. }
  assert (Hcurp : is_Some (fs' !! (1 + a))).
  { apply lookup_set_is_Some. by left. }
  unfold while_body. simpl.
  rewrite body_current_rows, body_files, Hcur. fold k.
  rewrite decide_True by lia. rewrite Hp. fold seg fs'.
  destruct (decide (r + k >= R)) as [Hfull|Hpart].
  - unfold advance_sheet. simpl.
    destruct (decide (1 + b + 1 > G)) as [Hnewfile|Hsame].
    + exists (a + 1), 0, 0. eexists. split; [reflexivity|].
      split; [|repeat split; simpl; try lia; nia].
      constructor; simpl; try done; try lia.
      * destruct (sheet_rows fs' (1 + (a + 1)) (1 + 0)) as [c|] eqn:E; [|done].
        apply sheet_rows_present, Hpres in E. lia.
      * intros f s c Hc. destruct (Hent f s c Hc) as (? & ? & ? & Hle).
        repeat split; try lia. unfold lex_le in *. simpl in *. lia.
      * intros f Hf. apply Hpres in Hf. lia.
      * split; [|lia]. intros Hf. apply Hpres in Hf. lia.
    + exists a, (b + 1), 0. eexists. split; [reflexivity|].
      split; [|repeat split; simpl; try lia; nia].
      constructor; simpl; try done; try lia.
      * destruct (sheet_rows fs' (1 + a) (1 + (b + 1))) as [c|] eqn:E; [|done].
        apply Hent in E as (_ & _ & _ & Hle). unfold lex_le in Hle. simpl in Hle. lia.
      * intros f s c Hc. destruct (Hent f s c Hc) as (? & ? & ? & Hle).
        repeat split; try lia. unfold lex_le in *. simpl in *. lia.
      * split; [lia|done].
      * rewrite decide_True by lia. lia.
  - exists a, b, (r + k). eexists. split; [reflexivity|].
    split; [|repeat split; simpl; lia].
    constructor; simpl; try done; try lia.
    + rewrite Hrows, decide_True by done. rewrite decide_False by lia. done.
    + split; [lia|done].
    + rewrite decide_True by lia. lia.
    + rewrite decide_False by lia. lia.
Qed.

(** ** The loops of the planner *)

Lemma contiguous_app name from mid to l1 l2 :
  contiguous name from mid l1 → contiguous name mid to l2 →
  contiguous name from to (l1 ++ l2).
Proof.
  revert from. induction l1 as [|sg l1 IH]; simpl; intros from.
  - by intros ->.
  - intros (? & ? & ? & ?) ?. repeat split; [done..|]. by apply IH.
Qed.

Lemma while_sheet_inv G R name sz fuel :
  ∀ processed a b r st p,
    inv G R a b r st →
    current_positions st !! name = Some p →
    (Z.to_nat (sz - processed) ≤ fuel)%nat →
    ∃ a' b' r' st' chunk,
      while_sheet fuel G R name sz processed st = Returns st' ∧
      inv G R a' b' r' st' ∧
      (a' * G + b') * R + r' = (a * G + b) * R + r + Z.max 0 (sz - processed) ∧
      ps_segments st' = ps_segments st ++ chunk ∧
      contiguous name p (p + Z.max 0 (sz - processed)) chunk ∧
      current_positions st' =
        <[name := p + Z.max 0 (sz - processed)]> (current_positions st).
Proof.
  induction fuel as [|fuel IH]; intros processed a b r st p HI Hp Hfuel.
  - exists a, b, r, st, []. simpl. rewrite decide_False by lia.
    rewrite app_nil_r. split_and!; try done; try lia.
    rewrite insert_id; [done|]. rewrite Hp. f_equal. lia.
  - simpl. destruct (decide (processed < sz)) as [Hlt|Hge].
    + destruct (while_body_inv G R a b r name sz processed p st HI Hlt Hp)
        as (a1 & b1 & r1 & st1 & -> & HI1 & Hn1 & Hs1 & Hp1 & Hk).
      simpl. set (k := Z.min (sz - processed) (R - r)) in *.
      destruct (IH (processed + k) a1 b1 r1 st1 (p + k) HI1) as
        (a2 & b2 & r2 & st2 & chunk & -> & HI2 & Hn2 & Hs2 & Hc2 & Hp2).
      { rewrite Hp1. apply lookup_insert_eq. }
      { lia. }
      exists a2, b2, r2, st2, (Segment name p k (1 + a) (1 + b) :: chunk).
      split; [done|]. split; [done|].
      assert (Hmax : Z.max 0 (sz - processed) = k + Z.max 0 (sz - (processed + k))) by lia.
      split_and!; simpl; try done; try lia.
      * rewrite Hs2, Hs1, <-app_assoc. done.
      * replace (p + Z.max 0 (sz - processed))
          with (p + k + Z.max 0 (sz - (processed + k))) by lia. done.
      * rewrite Hp2, Hp1, insert_insert_eq. f_equal. lia.
    + exists a, b, r, st, []. rewrite app_nil_r.
      split_and!; simpl; try done; try lia.
      rewrite insert_id; [done|]. rewrite Hp. f_equal. lia.
Qed.

Lemma for_sheets_inv G R info fuel :
  ∀ names a b r st,
    inv G R a b r st →
    NoDup names →
    Forall (λ n, ∃ z, size_in info n = Some z ∧ 0 ≤ z ≤ Z.of_nat fuel ∧
                      current_positions st !! n = Some 0) names →
    ∃ a' b' r' st' segs',
      for_sheets fuel G R info names st = Returns st' ∧
      inv G R a' b' r' st' ∧
      (a' * G + b') * R + r' = (a * G + b) * R + r + sum_Z (omap (size_in info) names) ∧
      ps_segments st' = ps_segments st ++ segs' ∧
      covers info names segs'.
Proof.
  induction names as [|name names IH]; intros a b r st HI Hnd Hall.
  - exists a, b, r, st, []. simpl. rewrite app_nil_r. split_and!; try done; lia.
  - apply NoDup_cons in Hnd as [Hnotin Hnd].
    apply Forall_cons in Hall as [(z & Hz & Hzb & Hpos) Hall].
    cbn [for_sheets]. unfold size_in in Hz.
    destruct (info !! name) as [i|] eqn:Hi; [|done]. simpl in Hz. injection Hz as Hz.
    destruct (while_sheet_inv G R name (data_rows i) fuel 0 a b r st 0 HI Hpos)
      as (a1 & b1 & r1 & st1 & chunk & -> & HI1 & Hn1 & Hs1 & Hc1 & Hp1); [lia|].
    cbn [obind].
    destruct (IH a1 b1 r1 st1 HI1 Hnd) as
      (a2 & b2 & r2 & st2 & segs2 & -> & HI2 & Hn2 & Hs2 & Hc2).
    { rewrite Forall_forall in Hall |- *. intros n Hn.
      destruct (Hall n Hn) as (z' & ? & ? & Hpn). exists z'.
      split; [done|]. split; [done|].
      rewrite Hp1, lookup_insert_ne; [done|]. intros ->. done. }
    exists a2, b2, r2, st2, (chunk ++ segs2).
    split_and!; try done.
    + assert (Hsum : sum_Z (omap (size_in info) (name :: names)) =
        data_rows i + sum_Z (omap (size_in info) names)).
      { change (omap (size_in info) (name :: names)) with
          (match size_in info name with
           | Some y => y :: omap (size_in info) names
           | None => omap (size_in info) names
           end).
        unfold size_in at 1. by rewrite Hi. }
      rewrite Hsum. lia.
    + by rewrite Hs2, Hs1, app_assoc.
    + exists chunk, segs2, z. split_and!; try done.
      * unfold size_in. by rewrite Hi, <-Hz.
      * replace (0 + Z.max 0 (data_rows i - 0)) with z in Hc1 by lia. done.
Qed.

Lemma initial_positions_lookup names n :
  n ∈ names → initial_positions names !! n = Some 0.
Proof.
  unfold initial_positions. induction names as [|m names IH]; intros Hn.
  - by apply elem_of_nil in Hn.
  - rewrite fmap_cons. cbn [list_to_map foldr]. simpl.
    destruct (decide (m = n)) as [->|Hne].
    + apply lookup_insert_eq.
    + rewrite lookup_insert_ne by done. apply IH.
      apply elem_of_cons in Hn as [->|Hn]; done.
Qed.

Lemma initial_inv G R ia : 1 ≤ G → 1 ≤ R → inv G R 0 0 0 (initial_state ia).
Proof.
  intros HG HR. constructor; simpl; try done; try lia.
  - intros f [e He]. by rewrite lookup_empty in He.
  - split; [|lia]. intros [e He]. by rewrite lookup_empty in He.
  - constructor.
Qed.

Lemma sizes_bounded info names z n :
  Forall (λ n, ∃ z, size_in info n = Some z ∧ 0 ≤ z) names →
  n ∈ names → size_in info n = Some z →
  0 ≤ z ≤ sum_Z (omap (size_in info) names) ∧ 0 ≤ sum_Z (omap (size_in info) names).
Proof.
  induction names as [|m names IH]; intros Hall Hn Hz.
  - by apply elem_of_nil in Hn.
  - apply Forall_cons in Hall as [(zm & Hzm & Hpos) Hall].
    assert (Hsum : sum_Z (omap (size_in info) (m :: names)) =
      zm + sum_Z (omap (size_in info) names)).
    { change (omap (size_in info) (m :: names)) with
        (match size_in info m with
         | Some y => y :: omap (size_in info) names
         | None => omap (size_in info) names
         end). by rewrite Hzm. }
    rewrite Hsum.
    assert (Hrest : 0 ≤ sum_Z (omap (size_in info) names)).
    { clear -Hall. induction Hall as [|x l (zx & Hx & ?) _ IH]; [simpl; lia|].
      change (omap (size_in info) (x :: l)) with
        (match size_in info x with
         | Some y => y :: omap (size_in info) l
         | None => omap (size_in info) l
         end). rewrite Hx. simpl. lia. }
    apply elem_of_cons in Hn as [->|Hn].
    + rewrite Hzm in Hz. injection Hz as <-. lia.
    + specialize (IH Hall Hn Hz). lia.
Qed.

(** The plan of a well-formed analysis: the call returns, its two totals are
    the ceilings, and the final state of the walk satisfies the invariant
    after all records. *)
Lemma plan_spec fuel ia G R :
  well_formed ia → 1 ≤ G → 1 ≤ R → total_data_rows ia ≤ Z.of_nat fuel →
  ∃ d a b r cf cs rem pos,
    calculate_output_distribution fuel ia G R = Returns d ∧
    total_output_sheets d = ceil_div (total_data_rows ia) R ∧
    total_output_files d = ceil_div (total_output_sheets d) G ∧
    inv G R a b r (PlannerState (files d) rem cf cs (data_segments d) pos) ∧
    (a * G + b) * R + r = total_data_rows ia ∧
    covers (sheets_info ia) (sheet_names ia) (data_segments d).
Proof.
  intros (Hnd & Hall & Htot) HG HR Hfuel.
  unfold calculate_output_distribution, math_ceil_div.
  rewrite decide_False by lia. cbn [obind].
  rewrite decide_False by lia. cbn [obind].
  destruct (for_sheets_inv G R (sheets_info ia) fuel (sheet_names ia) 0 0 0
              (initial_state ia)) as (a & b & r & st & segs & Hrun & HI & Hn & Hs & Hc).
  - by apply initial_inv.
  - done.
  - rewrite Forall_forall in Hall |- *. intros n Hn.
    destruct (Hall n Hn) as (z & Hz & Hpos). exists z. split; [done|].
    split; [|by apply initial_positions_lookup].
    rewrite <-Forall_forall in Hall.
    pose proof (sizes_bounded _ _ z n Hall Hn Hz) as [Hb _].
    unfold sizes in Htot. lia.
  - rewrite Hrun. cbn [obind]. destruct st as [fs rem cf cs sg pos]. simpl in *.
    eexists _, a, b, r, cf, cs, rem, pos. split; [reflexivity|]. simpl.
    split_and!; try done.
    + unfold sizes in Htot. lia.
    + by rewrite Hs.
Qed.

(** ** Counts of the plan *)

Lemma ceil_div_files (a b r G : Z) :
  0 ≤ b < G →
  ceil_div (a * G + b + (if decide (r = 0) then 0 else 1)) G =
    a + (if decide (0 < b ∨ r ≠ 0) then 1 else 0).
Proof.
  intros Hb. destruct (decide (r = 0)) as [Hr|Hr].
  - replace (a * G + b + 0) with (a * G + b) by lia.
    rewrite ceil_div_mixed by lia.
    destruct (decide (b = 0)); destruct (decide (0 < b ∨ r ≠ 0)); lia.
  - rewrite decide_True by (by right).
    destruct (decide (b + 1 = G)) as [Hfull|Hpart].
    + replace (a * G + b + 1) with ((a + 1) * G + 0) by lia.
      rewrite ceil_div_mixed by lia. rewrite decide_True by done. lia.
    + replace (a * G + b + 1) with (a * G + (b + 1)) by lia.
      rewrite ceil_div_mixed by lia. rewrite decide_False by lia. lia.
Qed.

Lemma contiguous_elem name from to chunk sg :
  contiguous name from to chunk → sg ∈ chunk →
  input_sheet sg = name ∧ from ≤ start_row sg ∧ 0 < num_rows sg ∧
  start_row sg + num_rows sg ≤ to.
Proof.
  revert from. induction chunk as [|x chunk IH]; intros from Hc Hsg.
  - by apply elem_of_nil in Hsg.
  - destruct Hc as (Hn & Hs & Hk & Hc).
    assert (Hle : ∀ l f, contiguous name f to l → f ≤ to).
    { clear. induction l as [|y l IHl]; simpl; intros f.
      - lia.
      - intros (_ & _ & ? & Hl). apply IHl in Hl. lia. }
    apply elem_of_cons in Hsg as [->|Hsg].
    + apply Hle in Hc. split_and!; try done; lia.
    + destruct (IH _ Hc Hsg) as (? & ? & ? & ?). split_and!; try done; lia.
Qed.

Lemma covers_elem info names segs sg :
  covers info names segs → sg ∈ segs →
  input_sheet sg ∈ names ∧
  ∃ z, size_in info (input_sheet sg) = Some z ∧
       0 ≤ start_row sg ∧ 0 < num_rows sg ∧ start_row sg + num_rows sg ≤ z.
Proof.
  revert segs. induction names as [|name names IH]; simpl; intros segs Hc Hsg.
  - subst. by apply elem_of_nil in Hsg.
  - destruct Hc as (chunk & segs' & z & -> & Hz & Hchunk & Hrest).
    apply elem_of_app in Hsg as [Hsg|Hsg].
    + destruct (contiguous_elem _ _ _ _ _ Hchunk Hsg) as (-> & ? & ? & ?).
      split; [by left|]. exists z. split_and!; try done; lia.
    + destruct (IH _ Hrest Hsg) as (? & z' & ?). split; [by right|]. by exists z'.
Qed.

Lemma example_analysis_well_formed : well_formed example_analysis.
Proof.
  split_and!.
  - compute_done.
  - change (sheet_names example_analysis) with ["A"; "B"]%string.
    repeat (apply Forall_cons; split; [eexists; split; [vm_compute; reflexivity|lia]|]).
    apply Forall_nil_2.
  - reflexivity.
Qed.

Lemma example_analysis_from_file :
  analyze_input_file (source_of_file (Some example_input) (Some example_input)) =
    Returns example_analysis.
Proof. reflexivity. Qed.

(** C3: for every G >= 1, R >= 1 and every well-formed list of group sizes
    (zero allowed), all below 2^53 so that the float quotients of the code
    are exact, the planner returns; its output group count is the ceiling
    of total records over R and its artifact count the ceiling of output
    groups over G, both as reported and as laid out in [files]; only
    groups with records get segments, a zero-record group leaves the state
    of the walk as it is, and zero total records give no segment and no
    artifact. *)
Theorem planner_count_formula (fuel : nat) (ia : input_analysis) (G R : Z) :
  well_formed ia → 1 ≤ G → 1 ≤ R → total_data_rows ia ≤ Z.of_nat fuel →
  float_exact (total_data_rows ia) → float_exact R → float_exact G →
  ∃ d, calculate_output_distribution fuel ia G R = Returns d ∧
    total_output_sheets d = ceil_div (total_data_rows ia) R ∧
    (total_output_sheets d - 1) * R < total_data_rows ia ≤ total_output_sheets d * R ∧
    total_output_files d = ceil_div (total_output_sheets d) G ∧
    (total_output_files d - 1) * G < total_output_sheets d ≤ total_output_files d * G ∧
    Z.of_nat (count_sheets (files d)) = total_output_sheets d ∧
    Z.of_nat (size (files d)) = total_output_files d ∧
    (∀ sg, sg ∈ data_segments d →
       0 < num_rows sg ∧ ∃ z, size_of ia (input_sheet sg) = Some z ∧ 0 < z) ∧
    (∀ fuel' name st, while_sheet fuel' G R name 0 0 st = Returns st) ∧
    (total_data_rows ia = 0 →
       data_segments d = [] ∧ files d = ∅ ∧
       total_output_sheets d = 0 ∧ total_output_files d = 0).
Proof.
  intros Hwf HG HR Hfuel _ _ _.
  destruct (plan_spec fuel ia G R Hwf HG HR Hfuel)
    as (d & a & b & r & cf & cs & rem & pos & Hd & Hs & Hf & HI & Hn & Hc).
  exists d. split; [done|]. destruct HI. simpl in *.
  assert (Hsheets : total_output_sheets d = a * G + b + (if decide (r = 0) then 0 else 1)).
  { rewrite Hs, <-Hn. apply ceil_div_mixed. done. }
  assert (Hfiles : total_output_files d = a + (if decide (0 < b ∨ 0 < r) then 1 else 0)).
  { rewrite Hf, Hsheets, ceil_div_files by done.
    destruct (decide (0 < b ∨ r ≠ 0)); destruct (decide (0 < b ∨ 0 < r)); lia. }
  assert (Htotal : 0 ≤ total_data_rows ia) by nia.
  split; [done|]. split; [rewrite Hs; apply ceil_div_exact; lia|].
  split; [done|]. split.
  { rewrite Hf. apply ceil_div_exact; [lia|]. rewrite Hs. apply ceil_div_exact; lia. }
  split; [lia|]. split; [lia|]. split; [|split].
  - intros sg Hsg. destruct (covers_elem _ _ _ _ Hc Hsg) as (_ & z & Hz & ? & ? & ?).
    split; [done|]. exists z. split; [done|lia].
  - intros fuel' name st. by destruct fuel'.
  - intros H0. assert (a = 0 ∧ b = 0 ∧ r = 0) as (-> & -> & ->) by nia.
    simpl in *.
    assert (Hempty : files d = ∅) by (apply map_size_empty_iff; lia).
    split_and!; try done; try lia.
    destruct (data_segments d) as [|sg segs]; [done|].
    apply Forall_cons in inv_segs0 as [[_ [c Hc']] _].
    apply sheet_rows_present in Hc'. rewrite Hempty in Hc'.
    destruct Hc' as [e He]. by rewrite lookup_empty in He.
Qed.

Lemma planner_count_formula_witness :
  ∃ d, calculate_output_distribution 12 example_analysis 2 4 = Returns d ∧
       total_output_sheets d = 3 ∧ total_output_files d = 2 ∧
       Z.of_nat (count_sheets (files d)) = 3 ∧ Z.of_nat (size (files d)) = 2.
Proof.
  assert (H12 : total_data_rows example_analysis ≤ Z.of_nat 12).
  { change (12 ≤ 12). lia. }
  pose proof (planner_count_formula 12 example_analysis 2 4
    example_analysis_well_formed ltac:(lia) ltac:(lia) H12
    ltac:(by compute) ltac:(by compute) ltac:(by compute))
    as (d & Hd & Hs & _ & Hf & _ & Hc & Hz & _).
  exists d. split; [exact Hd|]. rewrite Hc, Hz, Hf, Hs. clear.
  change (total_data_rows example_analysis) with 12.
  vm_compute. repeat split; reflexivity.
Defined.

(** ** The worked example *)

(** C2: for groups A (7 records) and B (5 records), R = 4 and G = 2, the
    planner produces exactly the segments A[0:4] to (artifact 1, group 1),
    A[4:7] and then B[0:1] to (artifact 1, group 2), B[1:5] to (artifact 2,
    group 1); artifact 1 holds the first two targets and artifact 2 the
    third. *)
Theorem worked_example :
  analyze_input_file (source_of_file (Some example_input) (Some example_input)) =
    Returns example_analysis ∧
  ∃ d, calculate_output_distribution 12 example_analysis 2 4 = Returns d ∧
    data_segments d =
      [Segment "A" 0 4 1 1; Segment "A" 4 3 1 2;
       Segment "B" 0 1 1 2; Segment "B" 1 4 2 1]%string ∧
    total_output_sheets d = 3 ∧ total_output_files d = 2 ∧
    output_group example_input (data_segments d) (1, 1) =
      [["a0"; "x"]; ["a1"; "x"]; ["a2"; "x"]; ["a3"; "x"]]%string ∧
    output_group example_input (data_segments d) (1, 2) =
      [["a4"; "x"]; ["a5"; "x"]; ["a6"; "x"]; ["b0"; "y"]]%string ∧
    output_group example_input (data_segments d) (2, 1) =
      [["b1"; "y"]; ["b2"; "y"]; ["b3"; "y"]; ["b4"; "y"]]%string ∧
    size (files d) = 2%nat ∧
    sheets_of 1 (files d) = <[2 := 4]> (<[1 := 4]> ∅) ∧
    sheets_of 2 (files d) = <[1 := 4]> ∅.
Proof.
  split; [reflexivity|].
  eexists. split; [vm_compute; reflexivity|].
  vm_compute. repeat split; reflexivity.
Qed.

(** ** Reading the plan by target *)

Lemma filter_none {A} (P : A → Prop) `{!∀ x, Decision (P x)} (l : list A) :
  Forall (λ x, ¬ P x) l → filter P l = [].
Proof.
  induction 1 as [|x l Hx _ IH]; [done|]. by rewrite filter_cons_False.
Qed.





Lemma bind_bind {A B C} (f : A → list B) (g : B → list C) (l : list A) :
  (l ≫= f) ≫= g = l ≫= (λ x, f x ≫= g).
Proof.
  induction l as [|x l IH]; [done|]. by rewrite !bind_cons, bind_app, IH.
Qed.



Lemma elem_of_target_grid F G f s :
  (f, s) ∈ target_grid F G ↔ 1 ≤ f ≤ F ∧ 1 ≤ s ≤ G.
Proof.
  unfold target_grid. rewrite list_elem_of_bind. split.
  - intros (f' & H & Hf'). apply list_elem_of_bind in H as (s' & H & Hs').
    apply list_elem_of_singleton in H as [= -> ->].
    apply elem_of_seqZ in Hf', Hs'. lia.
  - intros [Hf Hs]. exists f. split; [|apply elem_of_seqZ; lia].
    apply list_elem_of_bind. exists s. split; [by apply list_elem_of_singleton|].
    apply elem_of_seqZ. lia.
Qed.

(** ** The records that the plan covers *)

Lemma lookup_sheet_elem name sh (wb : workbook) :
  NoDup wb.*1 → (name, sh) ∈ wb → lookup_sheet name wb = Some sh.
Proof.
  induction wb as [|[n s] wb IH]; intros Hnd Hin.
  - by apply elem_of_nil in Hin.
  - rewrite fmap_cons in Hnd. apply NoDup_cons in Hnd as [Hn Hnd]. simpl.
    apply elem_of_cons in Hin as [[= -> ->]|Hin].
    + by rewrite decide_True.
    + rewrite decide_False; [by apply IH|].
      intros ->. apply Hn. apply list_elem_of_fmap. by exists (name, sh).
Qed.


Lemma slice_split {A} (from k m : Z) (l : list A) :
  0 ≤ from → 0 ≤ k → 0 ≤ m →
  slice from k l ++ slice (from + k) m l = slice from (k + m) l.
Proof.
  intros Hf Hk Hm. unfold slice.
  rewrite (Z2Nat.inj_add from k), (Z2Nat.inj_add k m) by lia.
  rewrite <-drop_drop. apply take_take_drop.
Qed.

Lemma contiguous_bounds name from to chunk :
  contiguous name from to chunk → from ≤ to.
Proof.
  revert from. induction chunk as [|sg chunk IH]; simpl; intros from.
  - lia.
  - intros (_ & _ & ? & Hc). apply IH in Hc. lia.
Qed.

Lemma contiguous_records (full : workbook) name sh chunk from to :
  lookup_sheet name full = Some sh → 0 ≤ from →
  contiguous name from to chunk →
  chunk ≫= segment_records full = slice from (to - from) (rows sh).
Proof.
  intros Hsh. revert from. induction chunk as [|sg chunk IH]; intros from Hfrom Hc.
  - simpl in Hc. subst. unfold slice. by rewrite Z.sub_diag.
  - destruct Hc as (Hn & Hs & Hk & Hc). rewrite bind_cons.
    pose proof (contiguous_bounds _ _ _ _ Hc) as Hle.
    rewrite (IH (from + num_rows sg) ltac:(lia) Hc).
    unfold segment_records. rewrite Hn, Hsh, Hs.
    rewrite slice_split by lia. f_equal. lia.
Qed.

Lemma covers_records info (full wb : workbook) segs :
  (∀ name sh, (name, sh) ∈ wb →
     lookup_sheet name full = Some sh ∧ size_in info name = Some (df_len sh)) →
  covers info (wb.*1) segs →
  segs ≫= segment_records full = input_records wb.
Proof.
  revert segs. induction wb as [|[name sh] wb IH]; intros segs Hwb Hc.
  - simpl in Hc. by subst.
  - rewrite fmap_cons in Hc. destruct Hc as (chunk & segs' & z & -> & Hz & Hchunk & Hrest).
    destruct (Hwb name sh ltac:(by left)) as [Hlook Hsize].
    cbn [fst] in Hz, Hchunk. rewrite Hsize in Hz. injection Hz as <-.
    rewrite bind_app. unfold input_records. rewrite bind_cons. f_equal.
    + rewrite (contiguous_records full name sh chunk 0 (df_len sh)) by (done || lia).
      unfold slice, df_len. simpl. rewrite Z.sub_0_r, Nat2Z.id, drop_0.
      by rewrite take_ge.
    + apply IH; [|done]. intros n s Hin. apply Hwb. by right.
Qed.

(** ** The analysis of an unchanged file *)

Lemma count_rows_file (wb : workbook) name sh :
  lookup_sheet name wb = Some sh →
  count_rows_in_sheet (source_of_file (Some wb) (Some wb)) name =
    Returns (1 + df_len sh, df_len sh).
Proof.
  intros Hsh. unfold count_rows_in_sheet. simpl. rewrite Hsh. simpl.
  do 2 f_equal. lia.
Qed.

Lemma count_all_file (wb : workbook) names :
  ∀ info total,
    Forall (λ n, is_Some (lookup_sheet n wb)) names →
    ∃ info',
      count_all (source_of_file (Some wb) (Some wb)) names info total =
        Returns (info', total + sum_Z (omap (λ n, df_len <$> lookup_sheet n wb) names)) ∧
      ∀ n, info' !! n =
        if decide (n ∈ names)
        then (λ sh, SheetInfo (1 + df_len sh) (df_len sh)) <$> lookup_sheet n wb
        else info !! n.
Proof.
  induction names as [|name names IH]; intros info total Hall.
  - exists info. split; [simpl; do 2 f_equal; lia|].
    intros n. rewrite decide_False; [done|]. apply not_elem_of_nil.
  - apply Forall_cons in Hall as [[sh Hsh] Hall].
    cbn [count_all]. rewrite (count_rows_file wb name sh Hsh). cbn [obind fst snd].
    destruct (IH (<[name := SheetInfo (1 + df_len sh) (df_len sh)]> info)
                 (total + df_len sh) Hall) as (info' & -> & Hinfo).
    exists info'. split.
    + do 2 f_equal.
      change (omap (λ n, df_len <$> lookup_sheet n wb) (name :: names)) with
        (match df_len <$> lookup_sheet name wb with
         | Some y => y :: omap (λ n, df_len <$> lookup_sheet n wb) names
         | None => omap (λ n, df_len <$> lookup_sheet n wb) names
         end).
      rewrite Hsh. simpl. lia.
    + intros n. rewrite Hinfo.
      destruct (decide (n ∈ names)) as [Hin|Hnin].
      * rewrite decide_True; [done|]. by right.
      * destruct (decide (n = name)) as [->|Hne].
        -- rewrite decide_True by (by left). by rewrite lookup_insert_eq, Hsh.
        -- rewrite lookup_insert_ne by done. rewrite decide_False; [done|].
           intros [?|?]%elem_of_cons; done.
Qed.

Lemma sum_lengths (wb : workbook) :
  NoDup wb.*1 →
  sum_Z (omap (λ n, df_len <$> lookup_sheet n wb) (wb.*1)) =
    Z.of_nat (length (input_records wb)).
Proof.
  intros Hnd.
  assert (Hgen : ∀ l : workbook, (∀ p, p ∈ l → lookup_sheet p.1 wb = Some p.2) →
    sum_Z (omap (λ n, df_len <$> lookup_sheet n wb) (l.*1)) =
      Z.of_nat (length (input_records l))).
  { induction l as [|[n sh] l IH]; intros Hl; [done|].
    rewrite fmap_cons. cbn [fst].
    change (omap (λ n, df_len <$> lookup_sheet n wb) (n :: l.*1)) with
      (match df_len <$> lookup_sheet n wb with
       | Some y => y :: omap (λ n, df_len <$> lookup_sheet n wb) (l.*1)
       | None => omap (λ n, df_len <$> lookup_sheet n wb) (l.*1)
       end).
    pose proof (Hl (n, sh) ltac:(by left)) as Hn. cbn [fst snd] in Hn.
    cbv beta. rewrite Hn. cbn [fmap option_fmap option_map sum_Z].
    rewrite IH by (intros p Hp; apply Hl; by right).
    unfold input_records. rewrite bind_cons, length_app. cbn [snd].
    unfold df_len. lia. }
  apply Hgen. intros [n sh] Hp. by apply lookup_sheet_elem.
Qed.

Lemma omap_ext_elem {A B} (f g : A → option B) (l : list A) :
  (∀ x, x ∈ l → f x = g x) → omap f l = omap g l.
Proof.
  induction l as [|x l IH]; intros Hfg; [done|].
  change (omap f (x :: l)) with
    (match f x with Some y => y :: omap f l | None => omap f l end).
  change (omap g (x :: l)) with
    (match g x with Some y => y :: omap g l | None => omap g l end).
  rewrite (Hfg x) by (by left). rewrite IH; [done|].
  intros y Hy. apply Hfg. by right.
Qed.

Lemma analyze_file (wb : workbook) :
  NoDup wb.*1 →
  ∃ ia, analyze_input_file (source_of_file (Some wb) (Some wb)) = Returns ia ∧
    well_formed ia ∧ sheet_names ia = wb.*1 ∧
    total_data_rows ia = Z.of_nat (length (input_records wb)) ∧
    ∀ name sh, (name, sh) ∈ wb → size_of ia name = Some (df_len sh).
Proof.
  intros Hnd.
  assert (Hall : Forall (λ n, is_Some (lookup_sheet n wb)) (wb.*1)).
  { apply Forall_forall. intros n Hn. apply list_elem_of_fmap in Hn as ([n' sh] & -> & Hin).
    exists sh. by apply lookup_sheet_elem. }
  destruct (count_all_file wb (wb.*1) ∅ 0 Hall) as (info & Hcount & Hinfo).
  unfold analyze_input_file. cbn [listed_sheet_names source_of_file obind ask].
  rewrite Hcount. cbn [obind fst snd]. eexists. split; [reflexivity|].
  assert (Hsize : ∀ name sh, (name, sh) ∈ wb → size_in info name = Some (df_len sh)).
  { intros name sh Hin. unfold size_in. rewrite Hinfo.
    rewrite decide_True by (apply list_elem_of_fmap; by exists (name, sh)).
    by rewrite (lookup_sheet_elem name sh wb Hnd Hin). }
  assert (Hext : omap (size_in info) (wb.*1) =
    omap (λ n, df_len <$> lookup_sheet n wb) (wb.*1)).
  { apply omap_ext_elem. intros n Hn. unfold size_in. rewrite Hinfo.
    rewrite decide_True by done.
    by destruct (lookup_sheet n wb). }
  split_and!; try done.
  - split_and!; simpl; try done.
    + apply Forall_forall. intros n Hn.
      apply list_elem_of_fmap in Hn as ([n' sh] & -> & Hin). exists (df_len sh).
      split; [by apply Hsize|]. unfold df_len. lia.
    + unfold sizes. simpl. rewrite Hext. lia.
  - simpl. rewrite Z.add_0_l. by apply sum_lengths.
Qed.

(** ** The layout of a finished plan *)

Lemma plan_layout fuel ia G R :
  well_formed ia → 1 ≤ G → 1 ≤ R → total_data_rows ia ≤ Z.of_nat fuel →
  ∃ d, calculate_output_distribution fuel ia G R = Returns d ∧
    (∀ f s c, sheet_rows (files d) f s = Some c →
       0 < c ≤ R ∧ 1 ≤ s ≤ G ∧ 1 ≤ f ≤ total_output_files d) ∧
    (∀ t, seg_total t (data_segments d) = default 0 (sheet_rows (files d) t.1 t.2)) ∧
    Forall (λ sg, 0 < num_rows sg ∧
      is_Some (sheet_rows (files d) (output_file sg) (output_sheet sg)))
      (data_segments d) ∧
    StronglySorted lex_le (dest <$> data_segments d) ∧
    covers (sheets_info ia) (sheet_names ia) (data_segments d).
Proof.
  intros Hwf HG HR Hfuel.
  destruct (plan_spec fuel ia G R Hwf HG HR Hfuel)
    as (d & a & b & r & cf & cs & rem & pos & Hd & Hs & Hf & HI & Hn & Hc).
  exists d. split; [done|]. destruct HI. simpl in *.
  assert (Hfiles : total_output_files d = a + (if decide (0 < b ∨ 0 < r) then 1 else 0)).
  { rewrite Hf, Hs, <-Hn, ceil_div_mixed, ceil_div_files by done.
    destruct (decide (0 < b ∨ r ≠ 0)); destruct (decide (0 < b ∨ 0 < r)); lia. }
  split_and!; try done.
  intros f s c Hfs. destruct (inv_entries0 f s c Hfs) as (? & ? & ? & Hle).
  split_and!; try lia.
  unfold lex_le in Hle. simpl in Hle.
  destruct (decide (f = 1 + a)) as [->|Hne]; [|destruct (decide (0 < b ∨ 0 < r)); lia].
  apply sheet_rows_present, inv_cur_file0 in Hfs.
  rewrite decide_True in Hfiles by done. lia.
Qed.


(** ** The chunked reader *)

Lemma read_sheet_data_returns input_file sheet_name start num :
  ∃ df, read_sheet_data input_file sheet_name start num = Returns df.
Proof.
  unfold read_sheet_data, read_excel, set_columns, try_except.
  destruct input_file as [wb|]; [|destruct (decide (start = 0)) as [Hst|Hst]; by eexists].
  destruct (lookup_sheet sheet_name wb) as [sh|];
    [|destruct (decide (start = 0)) as [Hst|Hst]; by eexists].
  destruct (decide (start = 0)) as [Hst|Hst].
  - destruct num as [n|]; [destruct (decide (n < 0)) as [Hneg|Hneg]|]; by eexists.
  - destruct num as [n|]; [destruct (decide (n < 0)) as [Hneg|Hneg]|]; simpl;
      try (destruct (decide (length (columns sh) = length (columns sh))) as [Hlen|Hlen]);
      by eexists.
Qed.

Lemma read_sheet_data_rows (wb : workbook) sheet_name sh start n :
  lookup_sheet sheet_name wb = Some sh → 0 ≤ n →
  read_sheet_data (Some wb) sheet_name start (Some n) =
    Returns (DataFrame (columns sh) (slice start n (rows sh))).
Proof.
  intros Hsh Hn. unfold read_sheet_data, read_excel, set_columns. rewrite Hsh.
  destruct (decide (n < 0)) as [Hneg|_]; [lia|].
  destruct (decide (start = 0)) as [->|Hne].
  - done.
  - simpl. by rewrite decide_True.
Qed.

Lemma read_sheet_data_len input_file sheet_name start n df :
  read_sheet_data input_file sheet_name start (Some n) = Returns df →
  df_len df ≤ Z.max 0 n.
Proof.
  unfold read_sheet_data, read_excel, set_columns, try_except, df_len.
  destruct input_file as [wb|];
    [|destruct (decide (start = 0)) as [Hst|Hst]; intros [= <-]; simpl; lia].
  destruct (lookup_sheet sheet_name wb) as [sh|];
    [|destruct (decide (start = 0)) as [Hst|Hst]; intros [= <-]; simpl; lia].
  destruct (decide (start = 0)) as [Hst|Hst]; destruct (decide (n < 0)) as [Hneg|Hneg]; simpl;
    try (destruct (decide (length (columns sh) = length (columns sh))) as [Hlen|Hlen]);
    intros [= <-]; simpl; rewrite ?length_take; lia.
Qed.

(** ** What the consolidator does to the output directory *)

Lemma pd_concat_same (a b : dataframe) :
  columns b = columns a →
  pd_concat a b = Returns (DataFrame (columns a) (rows a ++ rows b)).
Proof. intros Hcols. unfold pd_concat. by rewrite decide_True. Qed.

Lemma pd_concat_length (a b c : dataframe) :
  pd_concat a b = Returns c → df_len c = df_len a + df_len b.
Proof.
  unfold pd_concat, df_len. intros Hc.
  destruct (decide (columns a = columns b)); [|destruct (decide _); [|done]];
    injection Hc as <-; cbn; rewrite length_app, ?length_fmap; lia.
Qed.

Lemma pd_concat_fuel (a b : dataframe) : pd_concat a b ≠ OutOfFuel.
Proof. unfold pd_concat. by repeat case_decide. Qed.

Lemma overlay_concat old part c :
  pd_concat old part = Returns c → overlay (Some old) c = c.
Proof.
  intros Hc. apply pd_concat_length in Hc. unfold overlay, df_len in *.
  destruct c as [cols rs]. cbn in *. f_equal.
  rewrite drop_ge by lia. by rewrite app_nil_r.
Qed.

Lemma to_excel_overlay_content wb seg df content :
  new_sheet_content (wb !! output_sheet seg) (bool_decide (start_row seg = 0)) df =
    Returns content →
  to_excel_overlay (output_sheet seg) content wb = <[output_sheet seg := content]> wb.
Proof.
  unfold to_excel_overlay, new_sheet_content.
  destruct (wb !! output_sheet seg) as [old|]; [|done].
  intros Hc. by rewrite (overlay_concat _ _ _ Hc).
Qed.

Lemma process_data_segment_spec input_file seg flt w :
  process_data_segment input_file seg flt w =
    (Returns tt,
     World (dir_effect input_file seg flt (out_dir w))
           (log w ++ log_effect input_file seg flt (out_dir w))).
Proof.
  destruct w as [dir lg]. destruct flt as [wf rf].
  unfold process_data_segment, dir_effect, log_effect.
  destruct (read_sheet_data_returns input_file (input_sheet seg) (start_row seg)
              (Some (num_rows seg))) as [df ->].
  unfold io_try at 1. destruct (df_empty df) eqn:Hempty; [done|].
  unfold io_bind at 1, path_exists. cbn [out_dir log write_fault recover_fault].
  destruct (dir !! output_file seg) as [[|wb]|] eqn:Hf.
  - (* the file exists and cannot be parsed *)
    rewrite bool_decide_true by (by eexists).
    unfold io_bind, io_try, excel_file_sheets, excel_writer_overlay, io_ret, logger_error.
    cbn. rewrite Hf. cbn. rewrite Hf. cbn. by rewrite insert_id, <-app_assoc.
  - (* the file is a workbook *)
    rewrite bool_decide_true by (by eexists).
    unfold file_effect, recovery, consolidated_book.
    pose proof (to_excel_overlay_content wb seg df) as Hover.
    unfold new_sheet_content in *.
    unfold io_bind, io_try, excel_file_sheets, excel_writer_overlay,
      excel_rewrite, io_bind, io_ret, io_raise, logger_error, excel_file_sheets.
    cbn. rewrite Hf. cbn. rewrite Hf.
    cbn [write_fault recover_fault].
    destruct wf as [| |[|wb1]]; cbn.
    + (* the locked write does not fail by itself *)
      destruct (wb !! output_sheet seg) as [old|] eqn:Hs; cbn.
      * destruct (pd_concat old _) as [c| |] eqn:Hc;
          [| |by apply pd_concat_fuel in Hc]; cbn.
        -- rewrite (Hover c) by done. by rewrite app_nil_r.
        -- rewrite Hf. cbn. rewrite Hs, Hc. cbn. by rewrite insert_id, <-app_assoc.
      * rewrite (Hover df) by done. by rewrite app_nil_r.
    + (* it raises before it touches the file *)
      rewrite Hf. cbn.
      destruct (wb !! output_sheet seg) as [old|] eqn:Hs; cbn.
      * destruct (pd_concat old _) as [c| |] eqn:Hc;
          [| |by apply pd_concat_fuel in Hc]; cbn.
        -- destruct rf as [| |x]; cbn;
             rewrite <-?app_assoc, ?insert_insert_eq, ?insert_id by done; done.
        -- by rewrite insert_id, <-app_assoc.
      * destruct rf as [| |x]; cbn;
          rewrite <-?app_assoc, ?insert_insert_eq, ?insert_id by done; done.
    + (* it leaves a file that cannot be parsed *)
      rewrite lookup_insert_eq. cbn. by rewrite <-app_assoc.
    + (* it leaves a workbook *)
      rewrite lookup_insert_eq. cbn.
      destruct (wb1 !! output_sheet seg) as [old|] eqn:Hs; cbn.
      * destruct (pd_concat old _) as [c| |] eqn:Hc;
          [| |by apply pd_concat_fuel in Hc]; cbn.
        -- destruct rf as [| |x]; cbn; rewrite <-?app_assoc, ?insert_insert_eq; done.
        -- by rewrite <-app_assoc.
      * destruct rf as [| |x]; cbn; rewrite <-?app_assoc, ?insert_insert_eq; done.
  - (* the file does not exist *)
    rewrite bool_decide_false by (by intros [??]).
    unfold io_bind, io_try, excel_file_sheets, excel_writer_overlay, io_ret, logger_error.
    cbn. rewrite Hf. cbn. by rewrite <-app_assoc.
Qed.

Lemma run_segments_spec input_file flt segs w :
  ∃ lg, run_segments input_file flt segs w =
    (Returns tt, World (run_dir input_file flt segs (out_dir w)) lg).
Proof.
  revert w. induction segs as [|sg segs IH]; intros w.
  - exists (log w). by destruct w.
  - cbn [run_segments]. unfold io_bind, io_try.
    rewrite process_data_segment_spec.
    destruct (IH (World (dir_effect input_file sg (flt sg) (out_dir w))
                        (log w ++ log_effect input_file sg (flt sg) (out_dir w))))
      as [lg Hlg].
    exists lg. by rewrite Hlg.
Qed.

(** A file is created by no path of the consolidator: where there is no
    workbook that pandas can parse, nothing is written. *)
Lemma dir_effect_no_book input_file seg flt dir :
  book_of dir (output_file seg) = None →
  dir_effect input_file seg flt dir = dir.
Proof.
  unfold dir_effect, book_of. intros Hf.
  destruct (read_sheet_data _ _ _ _) as [df| |]; [|done..].
  destruct (df_empty df); [done|].
  destruct (dir !! output_file seg) as [[|wb]|] eqn:Hfile; [|done..].
  cbn. by apply insert_id.
Qed.

Lemma dir_effect_other input_file seg flt dir f :
  f ≠ output_file seg →
  dir_effect input_file seg flt dir !! f = dir !! f.
Proof.
  intros Hne. unfold dir_effect.
  destruct (read_sheet_data _ _ _ _) as [df| |]; [|done..].
  destruct (df_empty df); [done|].
  destruct (dir !! output_file seg); [|done]. by rewrite lookup_insert_ne.
Qed.

Lemma book_of_insert dir f wb f' :
  book_of (<[f := Book wb]> dir) f' = if decide (f = f') then Some wb else book_of dir f'.
Proof.
  unfold book_of. destruct (decide (f = f')) as [<-|Hne].
  - by rewrite lookup_insert_eq.
  - by rewrite lookup_insert_ne.
Qed.

Lemma run_dir_no_books input_file flt segs dir :
  (∀ f, book_of dir f = None) →
  run_dir input_file flt segs dir = dir.
Proof.
  intros Hdir. unfold run_dir. induction segs as [|sg segs IH]; [done|].
  cbn [foldl]. by rewrite dir_effect_no_book.
Qed.

(** ** Capacity *)

Lemma size_keys_bounded {A} (m : gmap Z A) (G : Z) :
  0 ≤ G → (∀ k, is_Some (m !! k) → 1 ≤ k ≤ G) → Z.of_nat (size m) ≤ G.
Proof.
  intros HG Hkeys.
  assert (Hsub : dom m ⊆ (list_to_set (seqZ 1 G) : gset Z)).
  { intros k Hk. apply elem_of_dom in Hk. apply elem_of_list_to_set, elem_of_seqZ.
    apply Hkeys in Hk. lia. }
  apply subseteq_size in Hsub. rewrite size_dom in Hsub.
  rewrite size_list_to_set in Hsub by apply NoDup_seqZ.
  rewrite length_seqZ in Hsub.
  revert Hsub. generalize (size m). intros n Hn. lia.
Qed.

Lemma sum_Z_perm (l1 l2 : list Z) : l1 ≡ₚ l2 → sum_Z l1 = sum_Z l2.
Proof. induction 1; simpl; lia. Qed.

Lemma sum_Z_nonneg (l : list Z) : Forall (λ x, 0 ≤ x) l → 0 ≤ sum_Z l.
Proof. induction 1; simpl; lia. Qed.

Lemma seg_total_app t l1 l2 :
  seg_total t (l1 ++ l2) = seg_total t l1 + seg_total t l2.
Proof. unfold seg_total, segments_of. by rewrite filter_app, fmap_app, sum_Z_app. Qed.

Lemma seg_total_nonneg t segs :
  Forall (λ sg, 0 ≤ num_rows sg) segs → 0 ≤ seg_total t segs.
Proof.
  intros Hall. apply sum_Z_nonneg. unfold segments_of. rewrite Forall_fmap.
  apply Forall_forall. intros sg Hsg. apply list_elem_of_filter in Hsg as [_ Hsg].
  rewrite Forall_forall in Hall. by apply Hall.
Qed.

Lemma appended_len incl df : df_len (appended incl df) ≤ df_len df.
Proof.
  unfold appended, iloc_from_1, df_len. destruct incl; simpl; [|lia].
  rewrite length_drop. lia.
Qed.


(** ** The emitter of the staging mode *)

Lemma elem_of_tasks_iff G F N f s :
  (f, s) ∈ tasks G F N ↔ 1 ≤ f ≤ F ∧ 1 ≤ s ≤ G ∧ (f - 1) * G + s ≤ N.
Proof.
  unfold tasks, range1. cbv zeta. rewrite list_elem_of_bind. split.
  - intros (f' & Hin & Hf'). apply list_elem_of_bind in Hin as (s' & Hin & Hs').
    apply elem_of_seqZ in Hf', Hs'.
    destruct (decide ((f' - 1) * G + s' <= N)) as [Hle|Hgt];
      [|by apply elem_of_nil in Hin].
    apply list_elem_of_singleton in Hin as [= -> ->]. lia.
  - intros (Hf & Hs & Hle). exists f. split; [|apply elem_of_seqZ; lia].
    apply list_elem_of_bind. exists s. split; [|apply elem_of_seqZ; lia].
    rewrite decide_True by lia. by apply list_elem_of_singleton.
Qed.

Lemma elem_of_tasks G total_files total_sheets f s :
  (f, s) ∈ tasks G total_files total_sheets → 1 ≤ f ≤ total_files ∧ 1 ≤ s ≤ G.
Proof. intros Hin. apply elem_of_tasks_iff in Hin. lia. Qed.

Lemma tasks_NoDup G F N : NoDup (tasks G F N).
Proof.
  unfold tasks, range1. cbv zeta.
  apply NoDup_bind; [| |apply NoDup_seqZ].
  - intros f1 f2 t _ _ H1 H2.
    apply list_elem_of_bind in H1 as (s1 & H1 & _).
    apply list_elem_of_bind in H2 as (s2 & H2 & _).
    destruct (decide ((f1 - 1) * G + s1 <= N)); [|by apply elem_of_nil in H1].
    destruct (decide ((f2 - 1) * G + s2 <= N)); [|by apply elem_of_nil in H2].
    apply list_elem_of_singleton in H1, H2. congruence.
  - intros f _. apply NoDup_bind; [| |apply NoDup_seqZ].
    + intros s1 s2 t _ _ H1 H2.
      destruct (decide ((f - 1) * G + s1 <= N)); [|by apply elem_of_nil in H1].
      destruct (decide ((f - 1) * G + s2 <= N)); [|by apply elem_of_nil in H2].
      apply list_elem_of_singleton in H1, H2. congruence.
    + intros s _. destruct (decide ((f - 1) * G + s <= N));
        [apply NoDup_singleton|constructor].
Qed.

Lemma emitted_within_mono G R visited t dir :
  emitted_within G R visited dir → emitted_within G R (visited ++ [t]) dir.
Proof.
  intros Hdir f file Hf. destruct (Hdir f file Hf) as (wb & -> & Hne & Hwb).
  exists wb. split; [done|]. split; [done|]. intros s df Hs.
  destruct (Hwb s df Hs) as (Hin & ? & ?). split; [|done].
  apply elem_of_app. by left.
Qed.

Lemma emitted_within_insert G R visited dir f wb :
  emitted_within G R visited dir → wb ≠ ∅ →
  (∀ s df, wb !! s = Some df → (f, s) ∈ visited ∧ 1 ≤ s ≤ G ∧ df_len df ≤ R) →
  emitted_within G R visited (<[f := Book wb]> dir).
Proof.
  intros Hdir Hne Hwb f' file. destruct (decide (f' = f)) as [->|Hf].
  - rewrite lookup_insert_eq. intros [= <-]. by exists wb.
  - rewrite lookup_insert_ne by done. apply Hdir.
Qed.

Lemma write_excel_file_within G R flt visited dir f s data is_new :
  1 ≤ s ≤ G → df_len data ≤ R → (f, s) ∉ visited →
  emitted_within G R visited dir →
  emitted_within G R (visited ++ [(f, s)]) (write_excel_file flt dir f s data is_new).
Proof.
  intros Hs Hdata Hnew Hdir.
  pose proof (emitted_within_mono G R visited (f, s) dir Hdir) as Hdir'.
  assert (Hfresh : ∀ d, emitted_within G R (visited ++ [(f, s)]) d →
    emitted_within G R (visited ++ [(f, s)]) (<[f := Book {[s := data]}]> d)).
  { intros d Hd. apply emitted_within_insert; [done|apply insert_non_empty|].
    intros s' df' Hs'. apply lookup_singleton_Some in Hs' as [<- <-].
    split; [|done]. apply elem_of_app. right. by left. }
  unfold write_excel_file.
  destruct (is_new || negb (bool_decide (is_Some (dir !! f)))).
  { destruct (first_fails flt); [destruct (outer_fails flt)|]; auto. }
  destruct (dir !! f) as [[|book]|] eqn:Hf.
  - destruct (inner_fails flt); [destruct (outer_fails flt)|]; auto.
  - destruct (Hdir f _ Hf) as (wb & [= <-] & Hne & Hbook).
    assert (Hnone : book !! s = None).
    { destruct (book !! s) as [df|] eqn:Hbs; [|done].
      by destruct (Hbook s df Hbs) as [Hin _]. }
    rewrite (delete_id book s) by done. rewrite decide_False by done.
    assert (Hkeys : ∀ s' df, book !! s' = Some df →
      (f, s') ∈ visited ++ [(f, s)] ∧ 1 ≤ s' ≤ G ∧ df_len df ≤ R).
    { intros s' df Hs'. destruct (Hbook s' df Hs') as (Hin & ? & ?).
      split; [|done]. apply elem_of_app. by left. }
    assert (Hsaved : emitted_within G R (visited ++ [(f, s)]) (<[f := Book book]> dir)).
    { by apply emitted_within_insert. }
    destruct (first_fails flt);
      [destruct (inner_fails flt); [destruct (outer_fails flt)|]; auto|].
    apply emitted_within_insert; [done|apply insert_non_empty|].
    intros s' df'. destruct (decide (s' = s)) as [->|Hs'].
    + rewrite lookup_insert_eq. intros [= <-]. split; [|done].
      apply elem_of_app. right. by left.
    + rewrite lookup_insert_ne by done. apply Hkeys.
  - destruct (inner_fails flt); [destruct (outer_fails flt)|]; auto.
Qed.

Lemma limit_offset_length {A} (limit offset : Z) (l : list A) :
  0 ≤ limit → Z.of_nat (length (limit_offset limit offset l)) ≤ limit.
Proof.
  intros Hl. unfold limit_offset. rewrite decide_False by lia.
  rewrite length_take. lia.
Qed.

Lemma process_sheet_within G R flt table total visited dir f s :
  1 ≤ s ≤ G → (f, s) ∉ visited →
  emitted_within G R visited dir →
  emitted_within G R (visited ++ [(f, s)])
    (process_sheet flt table G R total dir f s).1.
Proof.
  intros Hs Hnew Hdir. unfold process_sheet.
  set (count := Z.min R (total - ((((f - 1) * G + s) - 1) * R + 1 - 1))).
  destruct (decide (count <= 0)) as [Hc|Hc]; [by apply emitted_within_mono|].
  destruct (df_empty _); [by apply emitted_within_mono|]. simpl.
  apply write_excel_file_within; [done| |done|done].
  unfold get_data_for_sheet, df_len, selected_rows. simpl. rewrite length_fmap.
  pose proof (limit_offset_length count ((((f - 1) * G + s) - 1) * R + 1 - 1)
                (order_by_key table) ltac:(lia)). lia.
Qed.

Lemma emitted_within_capacity G R visited dir :
  0 ≤ G → emitted_within G R visited dir → dir_within G R dir.
Proof.
  intros HG Hdir f file Hf. destruct (Hdir f file Hf) as (wb & -> & _ & Hwb).
  exists wb. split; [done|]. split.
  - apply size_keys_bounded; [done|]. intros k [df Hk].
    by destruct (Hwb k df Hk) as (_ & ? & _).
  - intros s df Hs. by destruct (Hwb s df Hs) as (_ & _ & ?).
Qed.

Lemma create_output_files_within flt table G R :
  1 ≤ G → 1 ≤ R →
  ∃ total_files dir,
    create_output_files flt table ∅ G R = Returns (total_files, dir) ∧
    dir_within G R dir.
Proof.
  intros HG HR. unfold create_output_files, math_ceil_div.
  rewrite decide_False by lia. cbn [obind]. rewrite decide_False by lia. cbn [obind].
  eexists _, _. split; [reflexivity|].
  set (ts := tasks G _ _).
  assert (Hts : Forall (λ t, 1 ≤ t.2 ≤ G) ts).
  { apply Forall_forall. intros [f s] Hin. apply elem_of_tasks in Hin. simpl. lia. }
  pose proof (tasks_NoDup G (ceil_div (ceil_div (count_data_rows table) R) G)
    (ceil_div (count_data_rows table) R)) as Hnd. fold ts in Hnd.
  assert (Hrun : ∀ visited dir,
    emitted_within G R visited dir → (∀ t, t ∈ ts → t ∉ visited) →
    ∃ visited', emitted_within G R visited'
      (foldl (λ d t, (process_sheet flt table G R (count_data_rows table) d t.1 t.2).1)
         dir ts)).
  { clearbody ts. induction Hts as [|[f s] ts Ht _ IH]; intros visited dir Hdir Hnew.
    - by exists visited.
    - apply NoDup_cons in Hnd as [Hfs Hnd]. cbn [foldl fst snd].
      apply (IH Hnd (visited ++ [(f, s)])).
      + apply process_sheet_within; [done| |done]. apply Hnew. by left.
      + intros t Ht' Hin. apply elem_of_app in Hin as [Hin|Hin].
        * by apply (Hnew t ltac:(by right)).
        * apply list_elem_of_singleton in Hin as ->. done. }
  destruct (Hrun [] ∅) as [visited' Hfinal].
  - intros f file Hf. by rewrite lookup_empty in Hf.
  - intros t _. apply not_elem_of_nil.
  - apply (emitted_within_capacity G R visited'); [lia|done].
Qed.

(** C4: in every plan of the planner no output group is assigned more than
    R records, no artifact more than G groups, and the lengths of the
    segments assigned to one target sum to at most R; in every state that
    the consolidator reaches from the empty output directory by running
    segments of the plan, each at most once, in any order and under any
    library failures, and in the state that the emitter of the staging mode
    reaches, every artifact is a workbook of at most G groups of at most R
    records each. *)
Theorem capacity_invariants (fuel : nat) (ia : input_analysis) (G R : Z) :
  well_formed ia → 1 ≤ G → 1 ≤ R → total_data_rows ia ≤ Z.of_nat fuel →
  ∃ d, calculate_output_distribution fuel ia G R = Returns d ∧
    (∀ f s c, sheet_rows (files d) f s = Some c → 0 < c ≤ R) ∧
    (∀ f e, files d !! f = Some e → Z.of_nat (size (sheets e)) ≤ G) ∧
    (∀ t, 0 ≤ seg_total t (data_segments d) ≤ R) ∧
    (∀ input_file flt ran, ran ⊆+ data_segments d →
       ∃ w', run_segments input_file flt ran (World ∅ []) = (Returns tt, w') ∧
             dir_within G R (out_dir w')) ∧
    (∀ flt table, ∃ total_files dir,
       create_output_files flt table ∅ G R = Returns (total_files, dir) ∧
       dir_within G R dir).
Proof.
  intros Hwf HG HR Hfuel.
  destruct (plan_layout fuel ia G R Hwf HG HR Hfuel)
    as (d & Hd & Hent & Htot & Hsegs & _ & _).
  exists d. split; [done|].
  assert (Hpos : Forall (λ sg, 0 ≤ num_rows sg) (data_segments d)).
  { eapply Forall_impl; [exact Hsegs|]. intros sg [? _]. simpl. lia. }
  assert (Hsum : ∀ t, 0 ≤ seg_total t (data_segments d) ≤ R).
  { intros [f s]. split; [by apply seg_total_nonneg|]. rewrite Htot. simpl.
    destruct (sheet_rows (files d) f s) as [c|] eqn:Hc; simpl; [|lia].
    apply Hent in Hc. lia. }
  split_and!.
  - intros f s c Hc. apply Hent in Hc. lia.
  - intros f e Hf. apply size_keys_bounded; [lia|]. intros k [c Hk].
    assert (Hc : sheet_rows (files d) f k = Some c).
    { unfold sheet_rows, sheets_of. by rewrite Hf. }
    apply Hent in Hc. lia.
  - done.
  - intros input_file flt ran Hran.
    destruct (run_segments_spec input_file flt ran (World ∅ [])) as [lg ->].
    eexists. split; [reflexivity|]. simpl.
    rewrite run_dir_no_books by (intros f; unfold book_of; by rewrite lookup_empty).
    intros f file Hf. by rewrite lookup_empty in Hf.
  - intros flt table. by apply create_output_files_within.
Qed.

Lemma capacity_invariants_witness :
  ∃ d, calculate_output_distribution 12 example_analysis 2 4 = Returns d ∧
    (∀ t, 0 ≤ seg_total t (data_segments d) ≤ 4) ∧
    (∀ ran, ran ⊆+ data_segments d →
       ∃ w', run_segments (Some example_input) (λ _, no_faults) ran (World ∅ []) =
               (Returns tt, w') ∧ dir_within 2 4 (out_dir w')).
Proof.
  assert (H12 : total_data_rows example_analysis ≤ Z.of_nat 12).
  { change (12 ≤ 12). lia. }
  pose proof (capacity_invariants 12 example_analysis 2 4
    example_analysis_well_formed ltac:(lia) ltac:(lia) H12)
    as (d & Hd & _ & _ & Hsum & Hrun & _).
  exists d. split; [exact Hd|]. split; [exact Hsum|].
  intros ran Hran. exact (Hrun (Some example_input) (λ _, no_faults) ran Hran).
Defined.

(** ** Range requests of the chunked reader *)

(** C8, as stated, fails: group B has 5 records, the request for 5 records
    from offset 3 exceeds it, and the read returns the two records that
    exist instead of failing. *)
Lemma range_check_counterexample :
  lookup_sheet "B" example_input =
    Some (DataFrame ["serial"; "qri"]
            [["b0"; "y"]; ["b1"; "y"]; ["b2"; "y"]; ["b3"; "y"]; ["b4"; "y"]])%string ∧
  3 + 5 > 5 ∧
  read_sheet_data (Some example_input) "B" 3 (Some 5) =
    Returns (DataFrame ["serial"; "qri"] [["b3"; "y"]; ["b4"; "y"]])%string.
Proof. split_and!; [reflexivity|lia|reflexivity]. Qed.

(** C8, amended: a read never fails, whatever the file and the request;
    over a group of counted size N, a request whose offset + length exceeds
    N returns the records from the offset to N, fewer than were asked for
    and none when the offset is at or past N. *)
Theorem reader_returns_what_exists (wb : workbook) (name : string) (sh : dataframe)
    (offset len : Z) :
  (∀ file sheet_name start num,
     ∃ df, read_sheet_data file sheet_name start num = Returns df) ∧
  (lookup_sheet name wb = Some sh → 0 ≤ offset → 0 < len →
   offset + len > df_len sh →
   ∃ df, read_sheet_data (Some wb) name offset (Some len) = Returns df ∧
         columns df = columns sh ∧
         rows df = drop (Z.to_nat offset) (rows sh) ∧
         df_len df = Z.max 0 (df_len sh - offset) ∧
         df_len df < len).
Proof.
  split; [intros; apply read_sheet_data_returns|].
  intros Hsh Hoff Hlen Hexceeds.
  rewrite (read_sheet_data_rows wb name sh offset len Hsh) by lia.
  eexists. split; [reflexivity|]. unfold slice, df_len in *. simpl.
  assert (Hall : take (Z.to_nat len) (drop (Z.to_nat offset) (rows sh)) =
    drop (Z.to_nat offset) (rows sh)).
  { apply take_ge. rewrite length_drop. lia. }
  rewrite Hall. split_and!; try done; rewrite length_drop; lia.
Qed.

Lemma reader_returns_what_exists_witness :
  ∃ df, read_sheet_data (Some example_input) "B" 3 (Some 5) = Returns df ∧
        df_len df = 2.
Proof.
  destruct (reader_returns_what_exists example_input "B"
    (DataFrame ["serial"; "qri"]
       [["b0"; "y"]; ["b1"; "y"]; ["b2"; "y"]; ["b3"; "y"]; ["b4"; "y"]])%string 3 5)
    as [_ H].
  destruct H as (df & Hdf & _ & _ & Hlen & _);
    [reflexivity|lia|lia|vm_compute; reflexivity|].
  exists df. split; [exact Hdf|]. rewrite Hlen. reflexivity.
Defined.

(** ** Failure modes of the analyzer *)

(** C9, as stated, fails: group B is listed and is gone when it is counted,
    and the analysis returns with B recorded as having zero records. *)
Lemma group_missing_counterexample :
  ∃ ia,
    analyze_input_file
      (source_of_file (Some example_input) (Some example_input_without_B)) =
      Returns ia ∧
    sheet_names ia = ["A"; "B"]%string ∧
    sheets_info ia !! "B"%string = Some (SheetInfo 0 0) ∧
    total_data_rows ia = 7.
Proof. eexists. split; [vm_compute; reflexivity|]. by vm_compute. Qed.

Lemma count_rows_in_sheet_returns src name :
  ∃ c, count_rows_in_sheet src name = Returns c.
Proof.
  unfold count_rows_in_sheet.
  destruct (openpyxl_max_row src name); simpl; [by eexists|].
  destruct (pandas_chunk_rows src name); simpl; by eexists.
Qed.

Lemma count_rows_in_sheet_missing src name e1 e2 :
  openpyxl_max_row src name = Failure e1 →
  pandas_chunk_rows src name = Failure e2 →
  count_rows_in_sheet src name = Returns (0, 0).
Proof. intros H1 H2. unfold count_rows_in_sheet. by rewrite H1, H2. Qed.

Lemma count_all_returns src names :
  ∀ info total, ∃ info' total',
    count_all src names info total = Returns (info', total') ∧
    ∀ name, (name ∈ names →
             (∃ e, openpyxl_max_row src name = Failure e) →
             (∃ e, pandas_chunk_rows src name = Failure e) →
             info' !! name = Some (SheetInfo 0 0)) ∧
            (name ∉ names → info' !! name = info !! name).
Proof.
  induction names as [|n names IH]; intros info total.
  - exists info, total. split; [done|]. intros name. split; [|done].
    intros Hin. by apply elem_of_nil in Hin.
  - cbn [count_all]. destruct (count_rows_in_sheet_returns src n) as [c Hc].
    rewrite Hc. cbn [obind].
    destruct (IH (<[n := SheetInfo c.1 c.2]> info) (total + c.2))
      as (info' & total' & -> & Hinfo).
    exists info', total'. split; [done|]. intros name. split.
    + intros Hin Ho Hp. destruct (decide (name ∈ names)) as [Hn|Hn].
      * by apply Hinfo.
      * apply elem_of_cons in Hin as [->|?]; [|done].
        destruct (Hinfo n) as [_ Hout]. rewrite (Hout Hn), lookup_insert_eq.
        destruct Ho as [e1 Ho], Hp as [e2 Hp].
        rewrite (count_rows_in_sheet_missing src n e1 e2 Ho Hp) in Hc.
        by injection Hc as <-.
    + intros Hnin. apply not_elem_of_cons in Hnin as [Hne Hnin].
      destruct (Hinfo name) as [_ Hout]. by rewrite (Hout Hnin), lookup_insert_ne.
Qed.

(** C9, amended: the analysis fails, with the error of the library, when
    the input source cannot be opened; when the source can be listed the
    analysis always returns, and a listed group that is gone when it is
    counted (both counting methods raise) is recorded with zero total rows
    and zero data rows. *)
Theorem analyzer_failure_modes (src : source) :
  (∀ e, listed_sheet_names src = Failure e → analyze_input_file src = Raises e) ∧
  (∀ names, listed_sheet_names src = Answer names →
     ∃ ia, analyze_input_file src = Returns ia ∧ sheet_names ia = names ∧
       ∀ name, name ∈ names →
         (∃ e, openpyxl_max_row src name = Failure e) →
         (∃ e, pandas_chunk_rows src name = Failure e) →
         sheets_info ia !! name = Some (SheetInfo 0 0)).
Proof.
  split.
  - intros e He. unfold analyze_input_file. by rewrite He.
  - intros names Hnames. unfold analyze_input_file. rewrite Hnames. cbn [ask obind].
    destruct (count_all_returns src names ∅ 0) as (info & total & -> & Hinfo).
    eexists. split; [reflexivity|]. split; [done|]. intros name Hin Ho Hp.
    by apply Hinfo.
Qed.

Lemma analyzer_failure_modes_witness :
  analyze_input_file (source_of_file None None) = Raises FileNotFoundError ∧
  ∃ ia,
    analyze_input_file
      (source_of_file (Some example_input) (Some example_input_without_B)) =
      Returns ia ∧
    sheets_info ia !! "B"%string = Some (SheetInfo 0 0).
Proof.
  split.
  - apply (analyzer_failure_modes (source_of_file None None)). reflexivity.
  - destruct (analyzer_failure_modes
      (source_of_file (Some example_input) (Some example_input_without_B)))
      as [_ H].
    destruct (H ["A"; "B"]%string eq_refl) as (ia & Hia & _ & HB).
    exists ia. split; [exact Hia|]. apply HB.
    + apply elem_of_cons. right. apply list_elem_of_here.
    + exists KeyError. reflexivity.
    + exists ValueError. reflexivity.
Defined.

(** ** Re-applying the consolidator *)

(** C6, as stated, fails: the target (artifact 1, group 2) holds the batch
    A[4:7], three records; writing the identical batch to it again leaves
    the group with six records, the batch twice. *)
Lemma idempotence_counterexample :
  ∃ w2,
    process_data_segment (Some example_input) example_segment no_faults
      (World example_written_once []) = (Returns tt, w2) ∧
    book_of (out_dir w2) 1 ≫= (.!! 2) =
      Some (DataFrame ["serial"; "qri"]
              [["a4"; "x"]; ["a5"; "x"]; ["a6"; "x"];
               ["a4"; "x"]; ["a5"; "x"]; ["a6"; "x"]]%string) ∧
    out_dir w2 ≠ example_written_once.
Proof.
  eexists. split; [vm_compute; reflexivity|]. split; [by vm_compute|].
  intros Heq. by vm_compute in Heq.
Qed.

(** C6, amended: the consolidator appends; re-applying it with a batch read
    from a source offset other than zero to a target that already holds
    records under the same column labels (the same batch or any other)
    keeps the stored records and adds the records of the batch after them,
    so the target grows by the length of the batch; the other groups of
    the artifact and the other artifacts stay. *)
Theorem consolidator_appends (input_file : option workbook) (seg : segment)
    (w : world) (wb : gmap Z dataframe) (old df : dataframe) :
  start_row seg ≠ 0 →
  read_sheet_data input_file (input_sheet seg) (start_row seg) (Some (num_rows seg)) =
    Returns df →
  df_empty df = false →
  out_dir w !! output_file seg = Some (Book wb) →
  wb !! output_sheet seg = Some old →
  columns df = columns old →
  ∃ w', process_data_segment input_file seg no_faults w = (Returns tt, w') ∧
    book_of (out_dir w') (output_file seg) ≫= (.!! output_sheet seg) =
      Some (DataFrame (columns old) (rows old ++ rows df)) ∧
    rows df ≠ [] ∧
    (∀ f, f ≠ output_file seg → out_dir w' !! f = out_dir w !! f) ∧
    (∀ s, s ≠ output_sheet seg →
       book_of (out_dir w') (output_file seg) ≫= (.!! s) = wb !! s).
Proof.
  intros Hstart Hread Hempty Hf Hs Hcols.
  rewrite process_data_segment_spec. eexists. split; [reflexivity|].
  unfold dir_effect, file_effect, consolidated_book, new_sheet_content, book_of.
  rewrite Hread, Hempty, Hf. cbn [out_dir no_faults write_fault]. rewrite Hs.
  rewrite bool_decide_false by done. cbn [appended].
  rewrite pd_concat_same by done. cbn [obind fst].
  split_and!.
  - rewrite lookup_insert_eq. cbn. by rewrite lookup_insert_eq.
  - unfold df_empty in Hempty. apply bool_decide_eq_false in Hempty.
    intros Hnil. apply Hempty. by right.
  - intros f Hne. by rewrite lookup_insert_ne.
  - intros s Hne. rewrite lookup_insert_eq. cbn. by rewrite lookup_insert_ne.
Qed.

Lemma consolidator_appends_witness :
  ∃ w', process_data_segment (Some example_input) example_segment no_faults
          (World example_written_once []) = (Returns tt, w') ∧
    book_of (out_dir w') 1 ≫= (.!! 2) =
      Some (DataFrame ["serial"; "qri"]
              [["a4"; "x"]; ["a5"; "x"]; ["a6"; "x"];
               ["a4"; "x"]; ["a5"; "x"]; ["a6"; "x"]]%string).
Proof.
  destruct (consolidator_appends (Some example_input) example_segment
    (World example_written_once [])
    (<[2 := DataFrame ["serial"; "qri"]
              [["a4"; "x"]; ["a5"; "x"]; ["a6"; "x"]]%string]> ∅)
    (DataFrame ["serial"; "qri"] [["a4"; "x"]; ["a5"; "x"]; ["a6"; "x"]]%string)
    (DataFrame ["serial"; "qri"] [["a4"; "x"]; ["a5"; "x"]; ["a6"; "x"]]%string))
    as (w' & Hw' & Hsheet & _).
  - vm_compute. discriminate.
  - vm_compute. reflexivity.
  - vm_compute. reflexivity.
  - vm_compute. reflexivity.
  - vm_compute. reflexivity.
  - reflexivity.
  - exists w'. split; [exact Hw'|exact Hsheet].
Defined.

(** ** Failures of the consolidator *)

(** C7, as stated, fails.  The artifact of the target does not exist: the
    locked write raises (pandas refuses the writer), the reconstruction
    raises (there is no artifact to read), and the consolidator logs two
    errors and returns.  The artifact exists and both writers fail: the
    same.  No exception reaches the coordinator. *)
Lemma write_failed_counterexample :
  process_data_segment (Some example_input) example_segment no_faults (World ∅ []) =
    (Returns tt, World ∅ [WriteError 1 2; CannotRecover 1]) ∧
  process_data_segment (Some example_input) example_segment
    (Faults FailsBefore FailsBefore) (World example_written_once []) =
    (Returns tt, World example_written_once [WriteError 1 2; CannotRecover 1]).
Proof. split; by vm_compute. Qed.

Lemma dir_effect_failed input_file seg flt dir :
  write_fault flt = FailsBefore → recover_fault flt = FailsBefore →
  dir_effect input_file seg flt dir = dir.
Proof.
  intros Hw Hr. unfold dir_effect.
  destruct (read_sheet_data _ _ _ _) as [df| |]; [|done..].
  destruct (df_empty df); [done|].
  destruct (dir !! output_file seg) as [[|wb]|] eqn:Hf; [by apply insert_id| |done].
  unfold file_effect, recovery. rewrite Hw, Hr. cbn.
  destruct (consolidated_book wb seg df); by apply insert_id.
Qed.

(** C7, amended: the consolidator never raises, and whatever fails it
    touches no artifact but the one of its target.  When the locked write
    fails and what it left of the artifact can be read, the consolidator
    rewrites the artifact from all the groups that it reads plus the new
    batch.  When the rewrite fails too, it logs the write error and the
    failed recovery and returns: the artifact is as it was when both
    writers failed before they touched it, and otherwise it is what the
    failing writer left, a truncated file for one.  An artifact that is
    missing or cannot be read is never written: both errors are logged,
    whatever fails.  The coordinator runs every segment to its end whatever
    happened to the others, and a segment whose writers failed before they
    touched the artifact leaves the directory as if it had not been
    submitted. *)
Theorem consolidator_failure_behavior (input_file : option workbook) (seg : segment)
    (flt : faults) (w : world) :
  (∃ w', process_data_segment input_file seg flt w = (Returns tt, w') ∧
     ∀ f, f ≠ output_file seg → out_dir w' !! f = out_dir w !! f) ∧
  (∀ df wb wb1 wb',
     read_sheet_data input_file (input_sheet seg) (start_row seg) (Some (num_rows seg)) =
       Returns df →
     df_empty df = false →
     out_dir w !! output_file seg = Some (Book wb) →
     write_fault flt ≠ Succeeds →
     left_by (write_fault flt) (Book wb) = Book wb1 →
     consolidated_book wb1 seg df = Returns wb' →
     recover_fault flt = Succeeds →
     process_data_segment input_file seg flt w =
       (Returns tt,
        World (<[output_file seg := Book wb']> (out_dir w))
              (log w ++ [WriteError (output_file seg) (output_sheet seg)]))) ∧
  (∀ df wb,
     read_sheet_data input_file (input_sheet seg) (start_row seg) (Some (num_rows seg)) =
       Returns df →
     df_empty df = false →
     out_dir w !! output_file seg = Some (Book wb) →
     write_fault flt = FailsBefore → recover_fault flt = FailsBefore →
     process_data_segment input_file seg flt w =
       (Returns tt,
        World (out_dir w)
              (log w ++ [WriteError (output_file seg) (output_sheet seg);
                         CannotRecover (output_file seg)]))) ∧
  (∀ df wb,
     read_sheet_data input_file (input_sheet seg) (start_row seg) (Some (num_rows seg)) =
       Returns df →
     df_empty df = false →
     out_dir w !! output_file seg = Some (Book wb) →
     write_fault flt = FailsLeaving Corrupt →
     process_data_segment input_file seg flt w =
       (Returns tt,
        World (<[output_file seg := Corrupt]> (out_dir w))
              (log w ++ [WriteError (output_file seg) (output_sheet seg);
                         CannotRecover (output_file seg)]))) ∧
  (∀ df wb wb1 wb' remains,
     read_sheet_data input_file (input_sheet seg) (start_row seg) (Some (num_rows seg)) =
       Returns df →
     df_empty df = false →
     out_dir w !! output_file seg = Some (Book wb) →
     write_fault flt ≠ Succeeds →
     left_by (write_fault flt) (Book wb) = Book wb1 →
     consolidated_book wb1 seg df = Returns wb' →
     recover_fault flt = FailsLeaving remains →
     process_data_segment input_file seg flt w =
       (Returns tt,
        World (<[output_file seg := remains]> (out_dir w))
              (log w ++ [WriteError (output_file seg) (output_sheet seg);
                         CannotRecover (output_file seg)]))) ∧
  (∀ df,
     read_sheet_data input_file (input_sheet seg) (start_row seg) (Some (num_rows seg)) =
       Returns df →
     df_empty df = false →
     book_of (out_dir w) (output_file seg) = None →
     process_data_segment input_file seg flt w =
       (Returns tt,
        World (out_dir w)
              (log w ++ [WriteError (output_file seg) (output_sheet seg);
                         CannotRecover (output_file seg)]))) ∧
  (∀ flts segs1 segs2 dir,
     write_fault (flts seg) = FailsBefore → recover_fault (flts seg) = FailsBefore →
     run_dir input_file flts (segs1 ++ seg :: segs2) dir =
       run_dir input_file flts (segs1 ++ segs2) dir) ∧
  (∀ flts segs w0, ∃ lg,
     run_segments input_file flts segs w0 =
       (Returns tt, World (run_dir input_file flts segs (out_dir w0)) lg)).
Proof.
  split_and!.
  - rewrite process_data_segment_spec. eexists. split; [reflexivity|].
    intros f Hne. cbn [out_dir]. by apply dir_effect_other.
  - intros df wb wb1 wb' Hread Hempty Hf Hw Hleft Hbook Hr.
    rewrite process_data_segment_spec.
    unfold dir_effect, log_effect, file_effect, recovery.
    rewrite Hread, Hempty, Hf, Hleft, Hbook, Hr.
    destruct (write_fault flt); [done|..]; by destruct (consolidated_book wb seg df).
  - intros df wb Hread Hempty Hf Hw Hr. rewrite process_data_segment_spec.
    rewrite dir_effect_failed by done.
    unfold log_effect, file_effect, recovery. rewrite Hread, Hempty, Hf, Hw, Hr. cbn.
    by destruct (consolidated_book wb seg df).
  - intros df wb Hread Hempty Hf Hw. rewrite process_data_segment_spec.
    unfold dir_effect, log_effect, file_effect, recovery.
    by rewrite Hread, Hempty, Hf, Hw.
  - intros df wb wb1 wb' remains Hread Hempty Hf Hw Hleft Hbook Hr.
    rewrite process_data_segment_spec.
    unfold dir_effect, log_effect, file_effect, recovery.
    rewrite Hread, Hempty, Hf, Hleft, Hbook, Hr.
    destruct (write_fault flt); [done|..]; by destruct (consolidated_book wb seg df).
  - intros df Hread Hempty Hnone. rewrite process_data_segment_spec.
    rewrite dir_effect_no_book by done.
    unfold log_effect, file_effect. rewrite Hread, Hempty.
    unfold book_of in Hnone. by destruct (out_dir w !! output_file seg) as [[|wb]|].
  - intros flts segs1 segs2 dir Hw Hr. unfold run_dir.
    rewrite !foldl_app. simpl. by rewrite dir_effect_failed.
  - intros flts segs w0. apply run_segments_spec.
Qed.

Lemma consolidator_failure_behavior_witness :
  process_data_segment (Some example_input) example_segment
    (Faults (FailsLeaving Corrupt) Succeeds) (World example_written_once []) =
  (Returns tt, World (<[1 := Corrupt]> example_written_once)
                 [WriteError 1 2; CannotRecover 1]).
Proof.
  destruct (consolidator_failure_behavior (Some example_input) example_segment
    (Faults (FailsLeaving Corrupt) Succeeds) (World example_written_once []))
    as (_ & _ & _ & H & _).
  apply (H (DataFrame ["serial"; "qri"]
              [["a4"; "x"]; ["a5"; "x"]; ["a6"; "x"]]%string)
           (<[2 := DataFrame ["serial"; "qri"]
                     [["a4"; "x"]; ["a5"; "x"]; ["a6"; "x"]]%string]> ∅)).
  - vm_compute. reflexivity.
  - vm_compute. reflexivity.
  - vm_compute. reflexivity.
  - reflexivity.
Defined.

(** ** The staging store *)

Global Instance row_le_trans : Transitive row_le.
Proof. intros x y z. unfold row_le. apply lex_le_trans. Qed.

Global Instance row_le_total : Total row_le.
Proof. intros x y. unfold row_le. apply lex_le_total. Qed.

Lemma order_by_key_sorted table : StronglySorted row_le (order_by_key table).
Proof. apply StronglySorted_merge_sort; apply _. Qed.

Lemma limit_offset_sorted {A} (R : relation A) (limit offset : Z) (l : list A) :
  StronglySorted R l → StronglySorted R (limit_offset limit offset l).
Proof.
  intros Hl. unfold limit_offset.
  assert (Hdrop : StronglySorted R (drop (Z.to_nat offset) l)).
  { rewrite <-(take_drop (Z.to_nat offset) l) in Hl.
    by apply StronglySorted_app_1_r in Hl. }
  destruct (decide (limit < 0)); [done|].
  rewrite <-(take_drop (Z.to_nat limit) (drop (Z.to_nat offset) l)) in Hdrop.
  by apply StronglySorted_app_1_l in Hdrop.
Qed.

Lemma key_inj (table : list staged_row) x y :
  NoDup (order_key <$> table) → x ∈ table → y ∈ table →
  order_key x = order_key y → x = y.
Proof.
  induction table as [|r table IH]; intros Hnd Hx Hy Hk.
  - by apply elem_of_nil in Hx.
  - rewrite fmap_cons in Hnd. apply NoDup_cons in Hnd as [Hr Hnd].
    apply elem_of_cons in Hx as [->|Hx]; apply elem_of_cons in Hy as [->|Hy].
    + done.
    + exfalso. apply Hr. rewrite Hk. apply list_elem_of_fmap. by exists y.
    + exfalso. apply Hr. rewrite <-Hk. apply list_elem_of_fmap. by exists x.
    + by apply IH.
Qed.

Lemma order_by_key_perm table table' :
  NoDup (order_key <$> table) → table' ≡ₚ table →
  order_by_key table' = order_by_key table.
Proof.
  intros Hnd Hperm.
  apply (StronglySorted_unique_strong row_le); try apply order_by_key_sorted.
  - intros x y Hx Hy Hxy Hyx. unfold order_by_key in Hx, Hy.
    rewrite merge_sort_Permutation in Hx, Hy. rewrite Hperm in Hx.
    apply (key_inj table); try done. unfold row_le in *.
    by apply (anti_symm lex_le).
  - unfold order_by_key. by rewrite !merge_sort_Permutation.
Qed.

Lemma stage_rows_keys idx df i k :
  (order_key <$> stage_rows idx df) !! i = Some k → k = (idx, Z.of_nat i + 1).
Proof.
  unfold stage_rows. rewrite list_lookup_fmap, list_lookup_imap.
  destruct (rows df !! i); simpl; [|done]. by intros [= <-].
Qed.

Lemma stage_rows_NoDup idx df : NoDup (order_key <$> stage_rows idx df).
Proof.
  apply NoDup_alt. intros i j k Hi Hj.
  apply stage_rows_keys in Hi, Hj. rewrite Hi in Hj. injection Hj. lia.
Qed.

Lemma enumerate1_ranks {A} (l : list A) : NoDup (enumerate1 l).*1.
Proof.
  apply NoDup_alt. intros i j k Hi Hj. unfold enumerate1 in *.
  rewrite list_lookup_fmap, list_lookup_imap in Hi, Hj.
  destruct (l !! i); [|done]. destruct (l !! j); [|done].
  cbn in Hi, Hj. injection Hi as <-. injection Hj as Hj. lia.
Qed.

Lemma completion_order_perm {A} (picks : list nat) :
  ∀ pending : list A, completion_order picks pending ≡ₚ pending.
Proof.
  induction picks as [|k picks IH]; intros pending; [done|].
  cbn [completion_order]. destruct (pending !! k) as [job|] eqn:Hk; [|apply IH].
  rewrite IH. symmetry. by apply delete_Permutation.
Qed.

Lemma completed_ranks {A} (picks : list nat) (l : list A) :
  NoDup (completion_order picks (enumerate1 l)).*1.
Proof. rewrite completion_order_perm. apply enumerate1_ranks. Qed.

Lemma ingest_sheets_keys input_file jobs :
  ∀ total table,
    NoDup jobs.*1 → NoDup (order_key <$> table) →
    Forall (λ r, source_sheet r ∉ jobs.*1) table →
    NoDup (order_key <$> (ingest_sheets input_file jobs total table).2).
Proof.
  induction jobs as [|[idx name] jobs IH]; intros total table Hjobs Hnd Hold; [done|].
  rewrite fmap_cons in Hjobs. apply NoDup_cons in Hjobs as [Hidx Hjobs].
  cbn [ingest_sheets]. cbn [fst] in Hidx.
  assert (Hrest : Forall (λ r, source_sheet r ∉ jobs.*1) table).
  { eapply Forall_impl; [exact Hold|]. cbn. intros r Hr Hin. apply Hr. by right. }
  apply IH; [done|..].
  - unfold read_sheet_to_db. destruct (read_excel input_file name 0 None) as [df| |];
      [|done..]. simpl.
    destruct (decide (2 ≤ length (columns df))%nat); [|done].
    rewrite fmap_app. apply NoDup_app. split_and!; [done| |apply stage_rows_NoDup].
    intros k Hk Hk'. apply list_elem_of_fmap in Hk as (r & -> & Hr).
    rewrite Forall_forall in Hold. apply (Hold r Hr).
    apply list_elem_of_lookup in Hk' as [i Hi]. apply stage_rows_keys in Hi.
    unfold order_key in Hi. injection Hi as -> _. rewrite fmap_cons. by left.
  - unfold read_sheet_to_db. destruct (read_excel input_file name 0 None) as [df| |];
      [|done..]. simpl.
    destruct (decide (2 ≤ length (columns df))%nat); [|done].
    apply Forall_app. split; [done|]. apply Forall_forall. intros r Hr.
    unfold stage_rows in Hr. apply list_elem_of_lookup in Hr as [i Hi].
    rewrite list_lookup_imap in Hi. destruct (rows df !! i); [|done].
    injection Hi as <-. by simpl.
Qed.

(** C5: a query of the staging store over any contiguous logical range
    returns its records in the order of the key (source sheet rank, row
    number); for a store filled by [read_excel_to_db], in whichever order
    its concurrent jobs completed, the rows and the returned frame are the
    same for every physical insertion order of the staged rows, because
    the query orders by the key and not by insertion. *)
Theorem staging_query_order (picks : list nat) (input_file : option workbook)
    (total : Z) (table table' : list staged_row) (start_row row_count : Z) :
  read_excel_to_db picks input_file [] = Returns (total, table) →
  table' ≡ₚ table →
  StronglySorted row_le (selected_rows table' start_row row_count) ∧
  selected_rows table' start_row row_count = selected_rows table start_row row_count ∧
  get_data_for_sheet table' start_row row_count =
    get_data_for_sheet table start_row row_count ∧
  rows (get_data_for_sheet table' start_row row_count) =
    (λ r, [serial r; qri r]) <$>
      limit_offset row_count (start_row - 1) (merge_sort row_le table).
Proof.
  intros Hingest Hperm.
  assert (Hnd : NoDup (order_key <$> table)).
  { unfold read_excel_to_db in Hingest. destruct input_file as [wb|]; [|done].
    injection Hingest as Hi.
    replace table with
      (ingest_sheets (Some wb) (completion_order picks (enumerate1 wb.*1)) 0 []).2
      by (by rewrite Hi).
    apply ingest_sheets_keys; [apply completed_ranks|constructor..]. }
  pose proof (order_by_key_perm table table' Hnd Hperm) as Hsort.
  assert (Hsel : selected_rows table' start_row row_count =
    selected_rows table start_row row_count).
  { unfold selected_rows. by rewrite Hsort. }
  split_and!.
  - apply limit_offset_sorted, order_by_key_sorted.
  - done.
  - unfold get_data_for_sheet. by rewrite Hsel.
  - unfold get_data_for_sheet. simpl. by rewrite Hsel.
Qed.

Lemma staging_query_order_witness :
  read_excel_to_db [1%nat] (Some example_input) [] =
    Returns (10, drop 7 example_table ++ take 7 example_table) ∧
  StronglySorted row_le (selected_rows (reverse example_table) 5 4) ∧
  get_data_for_sheet (reverse example_table) 5 4 = get_data_for_sheet example_table 5 4.
Proof.
  assert (Hingest : read_excel_to_db [] (Some example_input) [] =
    Returns (10, example_table)) by (vm_compute; reflexivity).
  split; [vm_compute; reflexivity|].
  destruct (staging_query_order [] (Some example_input) 10 example_table
    (reverse example_table) 5 4 Hingest (reverse_Permutation _))
    as (Hsorted & _ & Hsame & _).
  split; [exact Hsorted|exact Hsame].
Defined.

(** ** The schema of the staging mode *)

Lemma cell_at_take i n (r : list cell) :
  (i < n)%nat → cell_at i (take n r) = cell_at i r.
Proof. intros Hi. unfold cell_at. by rewrite lookup_take_lt. Qed.

Lemma stage_rows_first_two idx cols (body : list (list cell)) cols' :
  stage_rows idx (DataFrame cols' (take 2 <$> body)) = stage_rows idx (DataFrame cols body).
Proof.
  unfold stage_rows. simpl. rewrite imap_fmap. apply imap_ext.
  intros i r _. simpl. by rewrite !cell_at_take by lia.
Qed.

(** C10: in the staging mode, the ingestion of a group with at least two
    fields stores, for every record, its rank, its row number from 1 and
    its first two field values as [serial] and [qri], and nothing else: the
    same rows are stored when all further fields are cut from the input.
    A group with fewer than two fields adds no row to the store.  The
    emission returns frames with exactly the columns [serial] and [qri],
    every row holding those two values. *)
Theorem staging_schema_truncation (wb : workbook) (name : string) (sh : dataframe)
    (idx : Z) (table : list staged_row) (start_row row_count : Z) :
  lookup_sheet name wb = Some sh →
  ((2 ≤ length (columns sh))%nat →
     (read_sheet_to_db (Some wb) name idx table).2 =
       table ++ imap (λ i r, StagedRow idx (Z.of_nat i + 1) (cell_at 0 r) (cell_at 1 r))
                  (rows sh) ∧
     (read_sheet_to_db
        (Some [(name, DataFrame (take 2 (columns sh)) (take 2 <$> rows sh))])
        name idx table).2 =
       (read_sheet_to_db (Some wb) name idx table).2) ∧
  ((length (columns sh) < 2)%nat →
     (read_sheet_to_db (Some wb) name idx table).2 = table) ∧
  columns (get_data_for_sheet table start_row row_count) = ["serial"; "qri"]%string ∧
  rows (get_data_for_sheet table start_row row_count) =
    (λ r, [serial r; qri r]) <$> selected_rows table start_row row_count ∧
  Forall (λ r, length r = 2%nat) (rows (get_data_for_sheet table start_row row_count)).
Proof.
  intros Hsh.
  assert (Hread : read_excel (Some wb) name 0 None = Returns sh).
  { unfold read_excel. rewrite Hsh. simpl. by destruct sh. }
  split_and!.
  - intros Hcols. unfold read_sheet_to_db. rewrite Hread. simpl.
    rewrite decide_True by done. split; [done|].
    rewrite decide_True by done. simpl.
    rewrite decide_True by (rewrite length_take; lia).
    f_equal. destruct sh as [cols body]. apply (stage_rows_first_two idx cols body).
  - intros Hcols. unfold read_sheet_to_db. rewrite Hread. simpl.
    by rewrite decide_False by lia.
  - done.
  - done.
  - simpl. apply Forall_fmap, Forall_forall. by intros r _.
Qed.

Lemma staging_schema_truncation_witness :
  (read_sheet_to_db (Some example_wide_input) "W" 1 []).2 =
    [StagedRow 1 1 "w0" "p"; StagedRow 1 2 "w1" "q"]%string ∧
  (read_sheet_to_db (Some example_wide_input) "N" 2 []).2 = [].
Proof.
  split.
  - destruct (staging_schema_truncation example_wide_input "W"
      (DataFrame ["serial"; "qri"; "note"]
         [["w0"; "p"; "n0"]; ["w1"; "q"; "n1"]])%string 1 [] 1 1 eq_refl)
      as (H & _).
    destruct H as [H _]; [simpl; lia|]. rewrite H. reflexivity.
  - destruct (staging_schema_truncation example_wide_input "N"
      (DataFrame ["serial"] [["n0"]; ["n1"]; ["n2"]])%string 2 [] 1 1 eq_refl)
      as (_ & H & _).
    apply H. simpl. lia.
Defined.

(** ** The coordinator *)

Lemma coordinator_returns fuel cpu_count src input_file G R max_workers flt w ia d :
  analyze_input_file src = Returns ia →
  calculate_output_distribution fuel ia G R = Returns d →
  0 < Z.min (default (Z.max 1 (cpu_count - 1)) max_workers)
            (Z.of_nat (length (data_segments d))) →
  ∃ lg, split_excel_file_distributed fuel cpu_count src input_file G R max_workers flt w =
    (Returns (total_output_files d),
     World (run_dir input_file flt (data_segments d) (out_dir w)) lg).
Proof.
  intros Hia Hd Hworkers. unfold split_excel_file_distributed. rewrite Hia, Hd.
  destruct (run_segments_spec input_file flt (data_segments d) w) as [lg Hrun].
  exists lg. destruct max_workers as [m|]; simpl in Hworkers;
    rewrite decide_False by lia; unfold io_bind; by rewrite Hrun.
Qed.

(** ** Round trip through the staging store *)

Lemma chunks_cover {A} (l : list A) (R : Z) (k : nat) :
  1 ≤ R →
  seqZ 1 (Z.of_nat k) ≫= (λ g, slice ((g - 1) * R) R l) =
    take (Z.to_nat (Z.of_nat k * R)) l.
Proof.
  intros HR. induction k as [|k IH].
  - by rewrite seqZ_nil.
  - rewrite seqZ_S, bind_app, bind_singleton, IH.
    replace (1 + Z.of_nat k - 1) with (Z.of_nat k) by lia.
    pose proof (slice_split 0 (Z.of_nat k * R) R l ltac:(lia) ltac:(nia) ltac:(lia))
      as Hsplit.
    unfold slice in Hsplit at 1 3. rewrite drop_0 in Hsplit.
    rewrite Z.add_0_l in Hsplit. rewrite Hsplit. f_equal. lia.
Qed.

Lemma sheet_rows_read_slice table R g :
  1 ≤ R → 1 ≤ g →
  sheet_rows_read table R g =
    (λ r, [serial r; qri r]) <$> slice ((g - 1) * R) R (order_by_key table).
Proof.
  intros HR Hg. unfold sheet_rows_read, get_data_for_sheet, selected_rows,
    limit_offset, slice, count_data_rows. cbn [rows].
  assert (Hlen : length (order_by_key table) = length table).
  { unfold order_by_key. by rewrite merge_sort_Permutation. }
  replace ((g - 1) * R + 1 - 1) with ((g - 1) * R) by lia.
  set (off := (g - 1) * R). assert (0 ≤ off) by nia.
  destruct (decide (Z.min R (Z.of_nat (length table) - off) <= 0)) as [Hc|Hc].
  - rewrite drop_ge by lia. by rewrite take_nil.
  - rewrite decide_False by lia. f_equal.
    destruct (decide (R ≤ Z.of_nat (length table) - off)).
    + by rewrite Z.min_l by lia.
    + rewrite Z.min_r by lia. rewrite !take_ge; [done|rewrite length_drop; lia..].
Qed.

Lemma file_tasks_global G N f (k : nat) :
  global_sheet_idx G <$>
    (seqZ 1 (Z.of_nat k) ≫=
       (λ s, if decide ((f - 1) * G + s <= N) then [(f, s)] else [])) =
  seqZ ((f - 1) * G + 1) (Z.max 0 (Z.min (Z.of_nat k) (N - (f - 1) * G))).
Proof.
  induction k as [|k IH].
  - rewrite seqZ_nil by lia. rewrite seqZ_nil by lia. done.
  - rewrite seqZ_S, bind_app, fmap_app, IH, bind_singleton.
    destruct (decide ((f - 1) * G + (1 + Z.of_nat k) <= N)) as [Hin|Hout].
    + replace (Z.max 0 (Z.min (Z.of_nat (S k)) (N - (f - 1) * G)))
        with (Z.of_nat k + 1) by lia.
      replace (Z.max 0 (Z.min (Z.of_nat k) (N - (f - 1) * G))) with (Z.of_nat k) by lia.
      rewrite seqZ_app by lia. f_equal.
      rewrite seqZ_cons, seqZ_nil by lia. unfold global_sheet_idx. simpl.
      f_equal. lia.
    + rewrite app_nil_r. f_equal. lia.
Qed.

Lemma tasks_global G N (n : nat) :
  1 ≤ G → 0 ≤ N →
  global_sheet_idx G <$> tasks G (Z.of_nat n) N = seqZ 1 (Z.min N (Z.of_nat n * G)).
Proof.
  intros HG HN. unfold tasks, range1. cbv zeta. induction n as [|n IH].
  - rewrite (seqZ_nil 1 (Z.of_nat 0)) by lia.
    rewrite (seqZ_nil 1 (Z.min _ _)) by lia. done.
  - rewrite seqZ_S, bind_app, fmap_app, IH, bind_singleton.
    pose proof (file_tasks_global G N (1 + Z.of_nat n) (Z.to_nat G)) as Hfile.
    rewrite Z2Nat.id in Hfile by lia. rewrite Hfile.
    replace (1 + Z.of_nat n - 1) with (Z.of_nat n) by lia.
    destruct (decide (N ≤ Z.of_nat n * G)) as [Hle|Hgt].
    + rewrite (seqZ_nil _ (Z.max _ _)) by lia. rewrite app_nil_r. f_equal. lia.
    + rewrite Z.min_r by lia.
      replace (Z.min N (Z.of_nat (S n) * G))
        with (Z.of_nat n * G + Z.max 0 (Z.min G (N - Z.of_nat n * G))) by lia.
      rewrite seqZ_app by nia. f_equal. f_equal. lia.
Qed.

Lemma bind_fmap_list {A B C} (f : A → B) (g : B → list C) (l : list A) :
  (f <$> l) ≫= g = l ≫= (λ x, g (f x)).
Proof. induction l as [|x l IH]; [done|]. by rewrite fmap_cons, !bind_cons, IH. Qed.

Lemma fmap_bind_list {A B C} (f : B → C) (g : A → list B) (l : list A) :
  f <$> (l ≫= g) = l ≫= (λ x, f <$> g x).
Proof. induction l as [|x l IH]; [done|]. by rewrite !bind_cons, fmap_app, IH. Qed.

(** The frames that the emitter reads for its targets, concatenated in
    target order, are all staged records in key order, each once. *)
Lemma emission_round_trip table G R :
  1 ≤ G → 1 ≤ R →
  emitted_in_target_order table G R =
    (λ r, [serial r; qri r]) <$> order_by_key table.
Proof.
  intros HG HR. unfold emitted_in_target_order.
  set (total := count_data_rows table).
  assert (Htotal : 0 ≤ total) by (unfold total, count_data_rows; lia).
  destruct (ceil_div_exact total R ltac:(lia) Htotal) as [HN HNb].
  set (N := ceil_div total R) in *.
  destruct (ceil_div_exact N G ltac:(lia) HN) as [HF HFb].
  set (F := ceil_div N G) in *.
  rewrite <-(bind_fmap_list (global_sheet_idx G) (sheet_rows_read table R)).
  rewrite <-(Z2Nat.id F) by lia. rewrite tasks_global by lia.
  rewrite Z2Nat.id by lia. rewrite Z.min_l by lia.
  rewrite (Forall_bind_ext _
    (λ g, (λ r, [serial r; qri r]) <$> slice ((g - 1) * R) R (order_by_key table))).
  - rewrite <-fmap_bind_list. f_equal.
    rewrite <-(Z2Nat.id N) by lia. rewrite chunks_cover by lia.
    apply take_ge. rewrite Z2Nat.id by lia.
    assert (length (order_by_key table) = length table) as ->.
    { unfold order_by_key. by rewrite merge_sort_Permutation. }
    unfold total, count_data_rows in HNb. nia.
  - apply Forall_seqZ. intros g Hg. apply sheet_rows_read_slice; lia.
Qed.

(** * Further properties of the code *)

(** ** The analysis of an unchanged workbook *)

(** For a readable workbook of distinctly named sheets that does not change
    during the analysis, [analyze_input_file] returns; it lists the sheets
    in order, records for every sheet its number of records as [data_rows]
    and one more as [total_rows], and the total is the number of records
    of the workbook. *)
Theorem analysis_of_unchanged_file (wb : workbook) :
  NoDup wb.*1 →
  ∃ ia, analyze_input_file (source_of_file (Some wb) (Some wb)) = Returns ia ∧
    num_sheets ia = Z.of_nat (length wb) ∧
    sheet_names ia = wb.*1 ∧
    (∀ name sh, (name, sh) ∈ wb →
       sheets_info ia !! name = Some (SheetInfo (1 + df_len sh) (df_len sh))) ∧
    (∀ name, name ∉ wb.*1 → sheets_info ia !! name = None) ∧
    total_data_rows ia = Z.of_nat (length (input_records wb)).
Proof.
  intros Hnd.
  assert (Hall : Forall (λ n, is_Some (lookup_sheet n wb)) (wb.*1)).
  { apply Forall_forall. intros n Hn. apply list_elem_of_fmap in Hn as ([n' sh] & -> & Hin).
    exists sh. by apply lookup_sheet_elem. }
  destruct (count_all_file wb (wb.*1) ∅ 0 Hall) as (info & Hcount & Hinfo).
  unfold analyze_input_file. cbn [listed_sheet_names source_of_file obind ask].
  rewrite Hcount. cbn [obind fst snd]. eexists. split; [reflexivity|]. simpl.
  split_and!.
  - by rewrite length_fmap.
  - done.
  - intros name sh Hin. rewrite Hinfo.
    rewrite decide_True by (apply list_elem_of_fmap; by exists (name, sh)).
    by rewrite (lookup_sheet_elem name sh wb Hnd Hin).
  - intros name Hnot. rewrite Hinfo. by rewrite decide_False.
  - rewrite Z.add_0_l. by apply sum_lengths.
Qed.

Lemma analysis_of_unchanged_file_witness :
  ∃ ia, analyze_input_file (source_of_file (Some example_input) (Some example_input)) =
          Returns ia ∧
        sheets_info ia !! "B"%string = Some (SheetInfo 6 5) ∧
        total_data_rows ia = 12.
Proof.
  assert (Hnd : NoDup example_input.*1) by compute_done.
  destruct (analysis_of_unchanged_file example_input Hnd)
    as (ia & Hia & _ & _ & Hinfo & _ & Htotal).
  exists ia. split; [exact Hia|]. split; [|exact Htotal].
  apply (Hinfo "B"%string
    (DataFrame ["serial"; "qri"]
       [["b0"; "y"]; ["b1"; "y"]; ["b2"; "y"]; ["b3"; "y"]; ["b4"; "y"]])%string).
  apply elem_of_cons. right. apply list_elem_of_here.
Defined.

(** ** The planner outside its capacity policy *)

Lemma sheet_rows_ensure f s fs f' s' :
  sheet_rows (ensure_sheet f s (ensure_file f fs)) f' s' =
    match sheet_rows fs f' s' with
    | Some c => Some c
    | None => if decide (f' = f ∧ s' = s) then Some 0 else None
    end.
Proof.
  unfold ensure_sheet.
  destruct (sheets_of f (ensure_file f fs) !! s) as [c|] eqn:E.
  - unfold sheet_rows. rewrite sheets_of_ensure_file.
    rewrite sheets_of_ensure_file in E.
    destruct (sheets_of f' fs !! s') as [c'|] eqn:E'; [done|].
    destruct (decide (f' = f ∧ s' = s)) as [[-> ->]|Hne]; [|done].
    by rewrite E in E'.
  - fold (set_sheet_rows f s 0 (ensure_file f fs)). rewrite sheet_rows_set.
    rewrite sheets_of_ensure_file in E.
    unfold sheet_rows. rewrite sheets_of_ensure_file.
    destruct (decide (f' = f ∧ s' = s)) as [[-> ->]|Hne].
    + by rewrite E.
    + by destruct (sheets_of f' fs !! s').
Qed.

Lemma while_sheet_diverges G R name sz processed fuel :
  R < 0 → processed < sz →
  ∀ st, all_zero (ps_files st) →
    while_sheet fuel G R name sz processed st = OutOfFuel.
Proof.
  intros HR Hlt. induction fuel as [|fuel IH]; intros st Hzero.
  - simpl. by rewrite decide_True.
  - cbn [while_sheet]. rewrite decide_True by done. unfold while_body.
    set (fs := ensure_sheet (current_file st) (current_sheet st)
                 (ensure_file (current_file st) (ps_files st))).
    assert (Hfs : all_zero fs).
    { intros f s c. unfold fs. rewrite sheet_rows_ensure.
      destruct (sheet_rows (ps_files st) f s) as [c'|] eqn:E.
      - intros [= <-]. by apply (Hzero f s).
      - destruct (decide (f = current_file st ∧ s = current_sheet st)); by intros [= <-]. }
    assert (Hcur : default 0 (sheet_rows fs (current_file st) (current_sheet st)) = 0).
    { destruct (sheet_rows fs (current_file st) (current_sheet st)) as [c|] eqn:E;
        [|done]. simpl. by apply (Hfs _ _ _ E). }
    rewrite Hcur. rewrite decide_False by lia. cbn [obind fst snd].
    apply IH. unfold advance_sheet. simpl.
    by destruct (decide (current_sheet st + 1 > G)).
Qed.

Lemma for_sheets_diverges G R info fuel names :
  R < 0 →
  Forall (λ n, is_Some (info !! n)) names →
  Exists (λ n, ∃ z, size_in info n = Some z ∧ 0 < z) names →
  ∀ st, all_zero (ps_files st) →
    for_sheets fuel G R info names st = OutOfFuel.
Proof.
  intros HR Hall Hex. induction Hex as [n names (z & Hz & Hpos)|n names Hex IH];
    intros st Hzero; apply Forall_cons in Hall as [[i Hi] Hall]; cbn [for_sheets];
    rewrite Hi.
  - unfold size_in in Hz. rewrite Hi in Hz. injection Hz as Hz.
    rewrite while_sheet_diverges; [done|done|lia|done].
  - destruct (decide (0 < data_rows i)) as [Hpos|Hnon].
    + rewrite while_sheet_diverges; [done|done|lia|done].
    + assert (Hret : while_sheet fuel G R n (data_rows i) 0 st = Returns st).
      { destruct fuel; simpl; by rewrite decide_False by lia. }
      rewrite Hret. cbn [obind]. by apply IH.
Qed.

(** With zero rows per output sheet, or zero sheets per file, the planner
    raises [ZeroDivisionError] before it plans anything.  With a negative
    number of rows per sheet and a group that has records, its [while] loop
    never ends: no amount of fuel lets the call return. *)
Theorem planner_outside_capacity_policy (fuel : nat) (ia : input_analysis) (G R : Z) :
  calculate_output_distribution fuel ia G 0 = Raises ZeroDivisionError ∧
  (R ≠ 0 → calculate_output_distribution fuel ia 0 R = Raises ZeroDivisionError) ∧
  (R < 0 → G ≠ 0 →
   Forall (λ n, is_Some (sheets_info ia !! n)) (sheet_names ia) →
   Exists (λ n, ∃ z, size_of ia n = Some z ∧ 0 < z) (sheet_names ia) →
   calculate_output_distribution fuel ia G R = OutOfFuel).
Proof.
  split_and!.
  - done.
  - intros HR. unfold calculate_output_distribution, math_ceil_div.
    by rewrite decide_False by done.
  - intros HR HG Hall Hex. unfold calculate_output_distribution, math_ceil_div.
    rewrite decide_False by lia. cbn [obind]. rewrite decide_False by done. cbn [obind].
    rewrite for_sheets_diverges; [done|done|done|done|].
    intros f s c. unfold initial_state, sheet_rows, sheets_of. simpl.
    by rewrite lookup_empty, lookup_empty.
Qed.

Lemma planner_outside_capacity_policy_witness :
  calculate_output_distribution 1000 example_analysis 2 (-4) = OutOfFuel.
Proof.
  apply (planner_outside_capacity_policy 1000 example_analysis 2 (-4)).
  - lia.
  - lia.
  - change (sheet_names example_analysis) with ["A"; "B"]%string.
    repeat (apply Forall_cons; split; [by (eexists; vm_compute; reflexivity)|]).
    apply Forall_nil_2.
  - change (sheet_names example_analysis) with ["A"; "B"]%string.
    apply Exists_cons_hd. exists 7. split; [vm_compute; reflexivity|lia].
Defined.

(** ** The plan and the reader together *)

Lemma elem_le_sum (x : Z) (l : list Z) :
  Forall (λ y, 0 ≤ y) l → x ∈ l → x ≤ sum_Z l.
Proof.
  induction 1 as [|y l Hy Hl IH]; intros Hx; [by apply elem_of_nil in Hx|].
  pose proof (sum_Z_nonneg l Hl). simpl.
  apply elem_of_cons in Hx as [->|Hx]; [lia|]. specialize (IH Hx). lia.
Qed.

Lemma plan_reads fuel (input : workbook) G R :
  NoDup input.*1 → 1 ≤ G → 1 ≤ R → (length (input_records input) ≤ fuel)%nat →
  ∃ ia d,
    analyze_input_file (source_of_file (Some input) (Some input)) = Returns ia ∧
    calculate_output_distribution fuel ia G R = Returns d ∧
    (∀ f s c, sheet_rows (files d) f s = Some c →
       0 < c ≤ R ∧ 1 ≤ s ≤ G ∧ 1 ≤ f ≤ total_output_files d) ∧
    (∀ t, seg_total t (data_segments d) = default 0 (sheet_rows (files d) t.1 t.2)) ∧
    Forall (λ sg, 0 < num_rows sg ∧
      is_Some (sheet_rows (files d) (output_file sg) (output_sheet sg)))
      (data_segments d) ∧
    StronglySorted lex_le (dest <$> data_segments d) ∧
    covers (sheets_info ia) (input.*1) (data_segments d) ∧
    data_segments d ≫= segment_records input = input_records input ∧
    ∀ sg, sg ∈ data_segments d →
      ∃ sh, lookup_sheet (input_sheet sg) input = Some sh ∧
        read_sheet_data (Some input) (input_sheet sg) (start_row sg)
          (Some (num_rows sg)) =
          Returns (DataFrame (columns sh) (segment_records input sg)) ∧
        Z.of_nat (length (segment_records input sg)) = num_rows sg ∧
        0 < num_rows sg ≤ R.
Proof.
  intros Hnd HG HR Hfuel.
  destruct (analyze_file input Hnd) as (ia & Hia & Hwf & Hnames & Htotal & Hsizes).
  destruct (plan_layout fuel ia G R Hwf HG HR ltac:(lia))
    as (d & Hd & Hent & Htot & Hsegs & Hsorted & Hcov).
  exists ia, d. rewrite Hnames in Hcov. split_and!; try done.
  { apply (covers_records (sheets_info ia)); [|done].
    intros name sh Hin. split; [by apply lookup_sheet_elem|by apply Hsizes]. }
  intros sg Hsg.
  destruct (covers_elem _ _ _ _ Hcov Hsg) as (Hname & z & Hz & Hstart & Hnum & Hend).
  apply list_elem_of_fmap in Hname as ([n sh] & Hn & Hin).
  simpl in Hn. pose proof (lookup_sheet_elem n sh input Hnd Hin) as Hlook.
  rewrite <-Hn in Hlook. rewrite <-Hn in Hin.
  pose proof (Hsizes _ _ Hin) as Hsize. unfold size_of in Hsize.
  rewrite Hsize in Hz. injection Hz as <-.
  exists sh. split; [done|]. unfold segment_records. rewrite Hlook.
  split; [apply read_sheet_data_rows; [done|lia]|].
  split.
  - unfold slice, df_len in *. rewrite length_take, length_drop. lia.
  - split; [done|].
    assert (Hpos : Forall (λ y, 0 ≤ y) (num_rows <$> segments_of (dest sg) (data_segments d))).
    { rewrite Forall_fmap. apply Forall_forall. intros x Hx.
      apply list_elem_of_filter in Hx as [_ Hx]. rewrite Forall_forall in Hsegs.
      destruct (Hsegs x Hx). simpl. lia. }
    assert (Hmem : num_rows sg ∈ num_rows <$> segments_of (dest sg) (data_segments d)).
    { apply list_elem_of_fmap. exists sg. split; [done|].
      apply list_elem_of_filter. by split. }
    pose proof (elem_le_sum _ _ Hpos Hmem) as Hle.
    fold (seg_total (dest sg) (data_segments d)) in Hle. rewrite Htot in Hle.
    unfold dest in Hle. simpl in Hle.
    destruct (sheet_rows (files d) (output_file sg) (output_sheet sg)) as [c|] eqn:Hc;
      simpl in Hle; [|lia].
    apply Hent in Hc. lia.
Qed.

(** On an unchanged workbook every segment of the plan is read in full:
    the reader returns exactly the [num_rows] records of the segment's
    source range, between 1 and R of them, so that no segment is cut short
    by the reader's silent truncation. *)
Theorem planned_reads_are_exact (fuel : nat) (input : workbook) (G R : Z) :
  NoDup input.*1 → 1 ≤ G → 1 ≤ R → (length (input_records input) ≤ fuel)%nat →
  ∃ ia d,
    analyze_input_file (source_of_file (Some input) (Some input)) = Returns ia ∧
    calculate_output_distribution fuel ia G R = Returns d ∧
    ∀ sg, sg ∈ data_segments d →
      ∃ sh, lookup_sheet (input_sheet sg) input = Some sh ∧
        read_sheet_data (Some input) (input_sheet sg) (start_row sg)
          (Some (num_rows sg)) =
          Returns (DataFrame (columns sh) (segment_records input sg)) ∧
        Z.of_nat (length (segment_records input sg)) = num_rows sg ∧
        0 < num_rows sg ≤ R.
Proof.
  intros Hnd HG HR Hfuel.
  destruct (plan_reads fuel input G R Hnd HG HR Hfuel)
    as (ia & d & Hia & Hd & _ & _ & _ & _ & _ & _ & Hreads).
  by exists ia, d.
Qed.

Lemma planned_reads_are_exact_witness :
  ∃ ia d,
    analyze_input_file (source_of_file (Some example_input) (Some example_input)) =
      Returns ia ∧
    calculate_output_distribution 12 ia 2 4 = Returns d ∧
    ∀ sg, sg ∈ data_segments d →
      Z.of_nat (length (segment_records example_input sg)) = num_rows sg.
Proof.
  assert (Hnd : NoDup example_input.*1) by compute_done.
  assert (Hfuel : (length (input_records example_input) ≤ 12)%nat) by (vm_compute; lia).
  pose proof (planned_reads_are_exact 12 example_input 2 4 Hnd
    ltac:(lia) ltac:(lia) Hfuel) as (ia & d & Hia & Hd & Hall).
  exists ia, d. split; [exact Hia|]. split; [exact Hd|].
  intros sg Hsg. destruct (Hall sg Hsg) as (sh & _ & _ & Hlen & _). exact Hlen.
Defined.

(** ** Single steps of the consolidator *)

(** A batch for a sheet that its target file does not have.  When the file
    is a workbook, the batch is stored in it as it was read, as a new
    sheet: the other sheets of the file and the other files stay, and
    nothing is logged.  When the file is missing, or exists and cannot be
    parsed, the consolidator does not create it: the writer of mode ['w']
    is refused, the recovery finds no workbook, the two errors are logged
    and the directory stays as it was, whatever else fails. *)
Theorem new_sheet_needs_a_workbook (input_file : option workbook) (seg : segment)
    (w : world) (df : dataframe) :
  read_sheet_data input_file (input_sheet seg) (start_row seg) (Some (num_rows seg)) =
    Returns df →
  df_empty df = false →
  book_of (out_dir w) (output_file seg) ≫= (.!! output_sheet seg) = None →
  (∀ wb, out_dir w !! output_file seg = Some (Book wb) →
     process_data_segment input_file seg no_faults w =
       (Returns tt,
        World (<[output_file seg := Book (<[output_sheet seg := df]> wb)]> (out_dir w))
              (log w))) ∧
  (book_of (out_dir w) (output_file seg) = None →
     ∀ flt, process_data_segment input_file seg flt w =
       (Returns tt,
        World (out_dir w)
              (log w ++ [WriteError (output_file seg) (output_sheet seg);
                         CannotRecover (output_file seg)]))).
Proof.
  intros Hread Hempty Hnone. split.
  - intros wb Hf. rewrite process_data_segment_spec.
    unfold dir_effect, log_effect, file_effect, consolidated_book, new_sheet_content.
    rewrite Hread, Hempty, Hf. unfold book_of in Hnone. rewrite Hf in Hnone.
    cbn in Hnone. rewrite Hnone. cbn. by rewrite app_nil_r.
  - intros Hfile flt. rewrite process_data_segment_spec.
    rewrite dir_effect_no_book by done.
    unfold log_effect, file_effect. rewrite Hread, Hempty.
    unfold book_of in Hfile. by destruct (out_dir w !! output_file seg) as [[|wb]|].
Qed.

Lemma new_sheet_needs_a_workbook_witness :
  process_data_segment (Some example_input) (Segment "A" 0 4 1 1) no_faults
    (World example_written_once []) =
    (Returns tt,
     World (<[1 := Book (<[1 := DataFrame ["serial"; "qri"]
                                  [["a0"; "x"]; ["a1"; "x"]; ["a2"; "x"]; ["a3"; "x"]]]>
                           (<[2 := DataFrame ["serial"; "qri"]
                                     [["a4"; "x"]; ["a5"; "x"]; ["a6"; "x"]]]> ∅))]>
              example_written_once) [])%string ∧
  process_data_segment (Some example_input) example_segment no_faults
    (World (<[1 := Corrupt]> ∅) []) =
    (Returns tt, World (<[1 := Corrupt]> ∅) [WriteError 1 2; CannotRecover 1]).
Proof.
  split.
  - destruct (new_sheet_needs_a_workbook (Some example_input) (Segment "A" 0 4 1 1)
      (World example_written_once [])
      (DataFrame ["serial"; "qri"]
         [["a0"; "x"]; ["a1"; "x"]; ["a2"; "x"]; ["a3"; "x"]]%string)) as [H _].
    + vm_compute. reflexivity.
    + vm_compute. reflexivity.
    + vm_compute. reflexivity.
    + apply (H (<[2 := DataFrame ["serial"; "qri"]
                         [["a4"; "x"]; ["a5"; "x"]; ["a6"; "x"]]%string]> ∅)).
      vm_compute. reflexivity.
  - destruct (new_sheet_needs_a_workbook (Some example_input) example_segment
      (World (<[1 := Corrupt]> ∅) [])
      (DataFrame ["serial"; "qri"] [["a4"; "x"]; ["a5"; "x"]; ["a6"; "x"]]%string))
      as [_ H].
    + vm_compute. reflexivity.
    + vm_compute. reflexivity.
    + vm_compute. reflexivity.
    + apply H. vm_compute. reflexivity.
Defined.

(** A batch read from offset 0 of its source sheet and consolidated into a
    target that already holds records under the same column labels loses
    its first record: the target keeps its records and receives the batch
    from its second record on, so it grows by one record less than the
    batch holds.  This is so on the locked write and on the rewrite that
    follows a locked write that failed before it touched the file. *)
Theorem offset_zero_append_drops_first_record (input_file : option workbook)
    (seg : segment) (flt : faults) (w : world) (wb : gmap Z dataframe)
    (old df : dataframe) :
  start_row seg = 0 →
  read_sheet_data input_file (input_sheet seg) 0 (Some (num_rows seg)) = Returns df →
  df_empty df = false →
  out_dir w !! output_file seg = Some (Book wb) →
  wb !! output_sheet seg = Some old →
  columns df = columns old →
  write_fault flt = Succeeds ∨
    (write_fault flt = FailsBefore ∧ recover_fault flt = Succeeds) →
  ∃ w' new, process_data_segment input_file seg flt w = (Returns tt, w') ∧
    book_of (out_dir w') (output_file seg) ≫= (.!! output_sheet seg) = Some new ∧
    new = DataFrame (columns old) (rows old ++ drop 1 (rows df)) ∧
    df_len new = df_len old + df_len df - 1.
Proof.
  intros Hstart Hread Hempty Hf Hs Hcols Hflt.
  rewrite process_data_segment_spec. do 2 eexists. split; [reflexivity|].
  assert (Hbook : consolidated_book wb seg df =
    Returns (<[output_sheet seg :=
                 DataFrame (columns old) (rows old ++ drop 1 (rows df))]> wb)).
  { unfold consolidated_book, new_sheet_content. rewrite Hs, Hstart.
    rewrite bool_decide_true by done. cbn [appended].
    by rewrite pd_concat_same by done. }
  assert (Hdir : dir_effect input_file seg flt (out_dir w) =
    <[output_file seg :=
        Book (<[output_sheet seg :=
                  DataFrame (columns old) (rows old ++ drop 1 (rows df))]> wb)]>
      (out_dir w)).
  { unfold dir_effect, file_effect, recovery. rewrite Hstart, Hread, Hempty, Hf, Hbook.
    destruct Hflt as [Hwf | [Hwf Hrf]]; rewrite Hwf; [done|].
    cbn. by rewrite Hbook, Hrf. }
  cbn [out_dir]. rewrite Hdir. unfold book_of.
  rewrite lookup_insert_eq. cbn. rewrite lookup_insert_eq.
  split; [reflexivity|]. split; [reflexivity|].
  unfold df_len. cbn. rewrite length_app, length_drop.
  unfold df_empty in Hempty. apply bool_decide_eq_false in Hempty.
  destruct (rows df) as [|r rs]; [exfalso; apply Hempty; by right|]. cbn. lia.
Qed.

Lemma offset_zero_append_drops_first_record_witness :
  ∃ w', process_data_segment (Some example_input) (Segment "B" 0 1 1 2) no_faults
          (World example_written_once []) = (Returns tt, w') ∧
    book_of (out_dir w') 1 ≫= (.!! 2) =
      Some (DataFrame ["serial"; "qri"] [["a4"; "x"]; ["a5"; "x"]; ["a6"; "x"]]%string).
Proof.
  destruct (offset_zero_append_drops_first_record (Some example_input)
    (Segment "B" 0 1 1 2) no_faults (World example_written_once [])
    (<[2 := DataFrame ["serial"; "qri"]
              [["a4"; "x"]; ["a5"; "x"]; ["a6"; "x"]]%string]> ∅)
    (DataFrame ["serial"; "qri"] [["a4"; "x"]; ["a5"; "x"]; ["a6"; "x"]]%string)
    (DataFrame ["serial"; "qri"] [["b0"; "y"]]%string))
    as (w' & new & Hw' & Hsheet & Hnew & _).
  - reflexivity.
  - vm_compute. reflexivity.
  - vm_compute. reflexivity.
  - vm_compute. reflexivity.
  - vm_compute. reflexivity.
  - reflexivity.
  - left. reflexivity.
  - exists w'. split; [exact Hw'|]. rewrite Hnew in Hsheet. exact Hsheet.
Defined.

Lemma read_sheet_data_failed input_file sheet_name start num e :
  read_excel input_file sheet_name start num = Raises e →
  read_sheet_data input_file sheet_name start num = Returns (DataFrame [] []).
Proof.
  intros Hraise. unfold read_sheet_data.
  destruct (decide (start = 0)) as [Hst|Hst].
  - rewrite Hst in Hraise. by rewrite Hraise.
  - by rewrite Hraise.
Qed.

Lemma nothing_to_read_empty input_file sg df :
  nothing_to_read input_file sg →
  read_sheet_data input_file (input_sheet sg) (start_row sg) (Some (num_rows sg)) =
    Returns df →
  df_empty df = true.
Proof.
  unfold nothing_to_read. intros Hnothing Hread.
  destruct input_file as [wb|];
    [|rewrite (read_sheet_data_failed _ _ _ _ FileNotFoundError) in Hread by done;
      by injection Hread as <-].
  destruct (lookup_sheet (input_sheet sg) wb) as [sh|] eqn:Hsh;
    [|rewrite (read_sheet_data_failed _ _ _ _ ValueError) in Hread
        by (unfold read_excel; by rewrite Hsh);
      by injection Hread as <-].
  destruct (decide (num_rows sg < 0)) as [Hneg|Hneg].
  - rewrite (read_sheet_data_failed _ _ _ _ ValueError) in Hread
      by (unfold read_excel; rewrite Hsh; by rewrite decide_True).
    by injection Hread as <-.
  - rewrite (read_sheet_data_rows wb _ sh) in Hread by (done || lia).
    injection Hread as <-. apply bool_decide_eq_true. cbn.
    destruct Hnothing as [Hc|[Hlen|Hnum]]; [by left|right..]; unfold slice.
    + rewrite drop_ge by (unfold df_len in Hlen; lia). apply take_nil.
    + by replace (Z.to_nat (num_rows sg)) with 0%nat by lia.
Qed.

(** A segment for which there is nothing to read is skipped: the
    consolidator logs that it cannot read the segment and returns; it does
    not touch the output directory, whatever the state of the directory and
    whichever write would have failed. *)
Theorem unreadable_segment_is_skipped (input_file : option workbook) (seg : segment)
    (flt : faults) (w : world) :
  nothing_to_read input_file seg →
  process_data_segment input_file seg flt w =
    (Returns tt,
     World (out_dir w) (log w ++ [CannotReadSegment (input_sheet seg) (start_row seg)])).
Proof.
  intros Hnothing. rewrite process_data_segment_spec.
  unfold dir_effect, log_effect.
  destruct (read_sheet_data_returns input_file (input_sheet seg) (start_row seg)
              (Some (num_rows seg))) as [df Hdf].
  rewrite Hdf. by rewrite (nothing_to_read_empty _ _ _ Hnothing Hdf).
Qed.

Lemma unreadable_segment_is_skipped_witness :
  process_data_segment (Some example_input) (Segment "A" 7 3 1 2) no_faults
    (World example_written_once []) =
  (Returns tt, World example_written_once [CannotReadSegment "A" 7]).
Proof.
  apply (unreadable_segment_is_skipped (Some example_input) (Segment "A" 7 3 1 2)
    no_faults (World example_written_once [])).
  vm_compute. right. left. discriminate.
Defined.

(** ** Schedules of the worker pool *)

Lemma dir_effect_no_faults input_file sg dir :
  dir_effect input_file sg no_faults dir =
    match read_sheet_data input_file (input_sheet sg) (start_row sg)
            (Some (num_rows sg)) with
    | Returns df =>
      if df_empty df then dir
      else match dir !! output_file sg with
           | Some (Book wb) => <[output_file sg := Book (appended_book wb sg df)]> dir
           | _ => dir
           end
    | _ => dir
    end.
Proof.
  unfold dir_effect.
  destruct (read_sheet_data _ _ _ _) as [df| |]; [|done..].
  destruct (df_empty df); [done|].
  destruct (dir !! output_file sg) as [[|wb]|] eqn:Hf; [by apply insert_id| |done].
  unfold file_effect, recovery, appended_book. cbn.
  by destruct (consolidated_book wb sg df).
Qed.

Lemma appended_book_lookup wb sg df s :
  s ≠ output_sheet sg → appended_book wb sg df !! s = wb !! s.
Proof.
  intros Hne. unfold appended_book, consolidated_book.
  destruct (new_sheet_content _ _ _); cbn; [|done..]. by rewrite lookup_insert_ne.
Qed.

Lemma appended_book_commute wb sg1 sg2 df1 df2 :
  output_sheet sg1 ≠ output_sheet sg2 →
  appended_book (appended_book wb sg2 df2) sg1 df1 =
    appended_book (appended_book wb sg1 df1) sg2 df2.
Proof.
  intros Hne.
  unfold appended_book at 1 3. unfold consolidated_book.
  rewrite !appended_book_lookup by done.
  unfold appended_book, consolidated_book.
  destruct (new_sheet_content (wb !! output_sheet sg1) _ df1) as [c1| |];
    destruct (new_sheet_content (wb !! output_sheet sg2) _ df2) as [c2| |];
    cbn; try done.
  by apply insert_insert_ne.
Qed.

Lemma dir_effect_commute input_file sg1 sg2 dir :
  dest sg1 ≠ dest sg2 →
  dir_effect input_file sg1 no_faults (dir_effect input_file sg2 no_faults dir) =
    dir_effect input_file sg2 no_faults (dir_effect input_file sg1 no_faults dir).
Proof.
  intros Hne. rewrite !dir_effect_no_faults.
  generalize (read_sheet_data input_file (input_sheet sg1) (start_row sg1)
                (Some (num_rows sg1))).
  generalize (read_sheet_data input_file (input_sheet sg2) (start_row sg2)
                (Some (num_rows sg2))).
  intros [df2| |] [df1| |]; try done;
    destruct (df_empty df2); try done;
    destruct (df_empty df1); try done.
  destruct (decide (output_file sg1 = output_file sg2)) as [Hf|Hf].
  - assert (Hs : output_sheet sg1 ≠ output_sheet sg2).
    { intros Hs. apply Hne. unfold dest. by rewrite Hf, Hs. }
    rewrite Hf. destruct (dir !! output_file sg2) as [[|wb]|] eqn:Hfile;
      rewrite ?Hfile; try done.
    rewrite !lookup_insert_eq, !insert_insert_eq.
    by rewrite appended_book_commute.
  - destruct (dir !! output_file sg2) as [[|wb2]|] eqn:H2;
      destruct (dir !! output_file sg1) as [[|wb1]|] eqn:H1;
      rewrite ?lookup_insert_ne, ?H1, ?H2 by done; try done.
    by apply insert_insert_ne.
Qed.

Lemma run_dir_move input_file x pre post :
  Forall (λ sg, dest sg ≠ dest x) pre →
  ∀ dir, run_dir input_file (λ _, no_faults) (pre ++ x :: post) dir =
         run_dir input_file (λ _, no_faults) (x :: pre ++ post) dir.
Proof.
  induction 1 as [|y pre Hy _ IH]; intros dir; [done|].
  change (run_dir input_file (λ _, no_faults) ((y :: pre) ++ x :: post) dir)
    with (run_dir input_file (λ _, no_faults) (pre ++ x :: post)
            (dir_effect input_file y no_faults dir)).
  rewrite IH. unfold run_dir. cbn [foldl app]. by rewrite dir_effect_commute.
Qed.

Lemma filter_first {A} (P : A → Prop) `{!∀ x, Decision (P x)} (l : list A) x rest :
  filter P l = x :: rest →
  ∃ pre post, l = pre ++ x :: post ∧ Forall (λ y, ¬ P y) pre ∧ filter P post = rest.
Proof.
  induction l as [|y l IH]; [done|].
  destruct (decide (P y)) as [Hy|Hy].
  - rewrite filter_cons_True by done. intros [= -> <-]. by exists [], l.
  - rewrite filter_cons_False by done. intros Hl.
    destruct (IH Hl) as (pre & post & -> & Hpre & Hpost).
    exists (y :: pre), post. split_and!; [done| |done]. by constructor.
Qed.

Lemma same_targets_run input_file segs1 :
  ∀ segs2 dir,
    (∀ t, segments_of t segs1 = segments_of t segs2) →
    run_dir input_file (λ _, no_faults) segs1 dir =
      run_dir input_file (λ _, no_faults) segs2 dir.
Proof.
  induction segs1 as [|x segs1 IH]; intros segs2 dir Hsame.
  - destruct segs2 as [|y segs2]; [done|]. specialize (Hsame (dest y)).
    unfold segments_of in Hsame. by rewrite filter_cons_True in Hsame by done.
  - pose proof (Hsame (dest x)) as Hx. unfold segments_of in Hx.
    rewrite filter_cons_True in Hx by done. symmetry in Hx.
    apply filter_first in Hx as (pre & post & -> & Hpre & Hpost).
    rewrite run_dir_move by done.
    change (run_dir input_file (λ _, no_faults) (x :: segs1) dir)
      with (run_dir input_file (λ _, no_faults) segs1
              (dir_effect input_file x no_faults dir)).
    change (run_dir input_file (λ _, no_faults) (x :: pre ++ post) dir)
      with (run_dir input_file (λ _, no_faults) (pre ++ post)
              (dir_effect input_file x no_faults dir)).
    apply IH. intros t. specialize (Hsame t). unfold segments_of in *.
    rewrite filter_app in Hsame. rewrite filter_app.
    destruct (decide (dest x = t)) as [Ht|Ht].
    + rewrite !filter_cons_True in Hsame by done.
      rewrite <-Ht in Hsame. rewrite (filter_none _ pre) in Hsame by done.
      rewrite <-Ht. rewrite (filter_none _ pre) by done.
      simpl in Hsame. by injection Hsame.
    + by rewrite !filter_cons_False in Hsame by done.
Qed.

(** When no write fails, the output directory that the pool leaves depends
    only on the order in which the segments of each single target take
    effect: two schedules that agree on that order for every target leave
    the same directory, however they interleave the targets. *)
Theorem schedule_independence (input_file : option workbook)
    (segs1 segs2 : list segment) (w : world) :
  (∀ t, segments_of t segs1 = segments_of t segs2) →
  ∃ dir lg1 lg2,
    run_segments input_file (λ _, no_faults) segs1 w = (Returns tt, World dir lg1) ∧
    run_segments input_file (λ _, no_faults) segs2 w = (Returns tt, World dir lg2).
Proof.
  intros Hsame.
  destruct (run_segments_spec input_file (λ _, no_faults) segs1 w) as [lg1 H1].
  destruct (run_segments_spec input_file (λ _, no_faults) segs2 w) as [lg2 H2].
  exists (run_dir input_file (λ _, no_faults) segs1 (out_dir w)), lg1, lg2.
  split; [done|]. rewrite H2. by rewrite (same_targets_run _ segs1 segs2).
Qed.

Lemma schedule_independence_witness :
  ∃ dir lg1 lg2,
    run_segments (Some example_input) (λ _, no_faults)
      [Segment "A" 0 4 1 1; Segment "A" 4 3 1 2; Segment "B" 1 4 2 1]%string
      (World ∅ []) = (Returns tt, World dir lg1) ∧
    run_segments (Some example_input) (λ _, no_faults)
      [Segment "B" 1 4 2 1; Segment "A" 4 3 1 2; Segment "A" 0 4 1 1]%string
      (World ∅ []) = (Returns tt, World dir lg2).
Proof.
  apply (schedule_independence (Some example_input)
    [Segment "A" 0 4 1 1; Segment "A" 4 3 1 2; Segment "B" 1 4 2 1]%string
    [Segment "B" 1 4 2 1; Segment "A" 4 3 1 2; Segment "A" 0 4 1 1]%string
    (World ∅ [])).
  intros [f s]. unfold segments_of, dest. rewrite !filter_cons, !filter_nil. cbn.
  destruct (decide ((1, 1) = (f, s))) as [H11|H11];
    destruct (decide ((1, 2) = (f, s))) as [H12|H12];
    destruct (decide ((2, 1) = (f, s))) as [H21|H21];
    try reflexivity; congruence.
Defined.

(** ** The rewrite mode from a directory without workbooks *)




(** The coordinator without work or without a worker: when the workbook
    holds no record, or when the caller allows no worker, the coordinator
    raises [ValueError] (the pool refuses a size that is not positive) and
    writes nothing. *)
Theorem coordinator_without_work (fuel : nat) (cpu_count : Z) (input : workbook)
    (G R : Z) (max_workers : option Z) (flt : segment → faults) (w : world) :
  NoDup input.*1 → 1 ≤ G → 1 ≤ R → (length (input_records input) ≤ fuel)%nat →
  input_records input = [] ∨ (∃ m, max_workers = Some m ∧ m ≤ 0) →
  split_excel_file_distributed fuel cpu_count (source_of_file (Some input) (Some input))
    (Some input) G R max_workers flt w = (Raises ValueError, w).
Proof.
  intros Hnd HG HR Hfuel Hcase.
  destruct (plan_reads fuel input G R Hnd HG HR Hfuel)
    as (ia & d & Hia & Hd & _ & _ & _ & _ & _ & Hcat & Hreads).
  unfold split_excel_file_distributed. rewrite Hia, Hd.
  rewrite decide_True; [done|].
  destruct Hcase as [Hnil|(m & -> & Hm)]; [|lia].
  rewrite Hnil in Hcat. destruct (data_segments d) as [|sg l]; [simpl; lia|].
  destruct (Hreads sg ltac:(by left)) as (sh & _ & _ & Hlen & Hpos).
  rewrite bind_cons in Hcat. apply app_eq_nil in Hcat as [Hsg _].
  rewrite Hsg in Hlen. simpl in Hlen. lia.
Qed.

Lemma coordinator_without_work_witness :
  split_excel_file_distributed 12 4 (source_of_file (Some example_input)
    (Some example_input)) (Some example_input) 2 4 (Some 0) (λ _, no_faults)
    (World example_written_once []) =
  (Raises ValueError, World example_written_once []).
Proof.
  apply (coordinator_without_work 12 4 example_input 2 4 (Some 0) (λ _, no_faults)
    (World example_written_once [])).
  - compute_done.
  - lia.
  - lia.
  - vm_compute. lia.
  - right. exists 0. split; [reflexivity|lia].
Defined.

(** ** Ingestion of an unchanged workbook *)

Lemma read_sheet_to_db_job (wb : workbook) name idx table :
  read_sheet_to_db (Some wb) name idx table =
    (job_count wb (idx, name), table ++ job_rows wb (idx, name)).
Proof.
  unfold read_sheet_to_db, read_excel, job_count, job_rows. cbn [fst snd].
  destruct (lookup_sheet name wb) as [[cols body]|]; cbn; [|by rewrite app_nil_r].
  destruct (decide (2 ≤ length cols)%nat); [done|by rewrite app_nil_r].
Qed.

Lemma ingest_sheets_jobs (wb : workbook) jobs :
  ∀ total table,
    ingest_sheets (Some wb) jobs total table =
      (total + sum_Z (job_count wb <$> jobs), table ++ (jobs ≫= job_rows wb)).
Proof.
  induction jobs as [|[idx name] jobs IH]; intros total table.
  - cbn. f_equal; [lia|by rewrite app_nil_r].
  - cbn [ingest_sheets]. rewrite read_sheet_to_db_job. cbn [fst snd].
    rewrite IH, fmap_cons, bind_cons. cbn [sum_Z]. f_equal; [lia|].
    by rewrite app_assoc.
Qed.

Lemma listing_jobs (full l : workbook) :
  (∀ name sh, (name, sh) ∈ l → lookup_sheet name full = Some sh) →
  ∀ idx,
    imap (λ i x, (Z.of_nat i + idx, x)) l.*1 ≫= job_rows full = staged_from idx l ∧
    sum_Z (job_count full <$> imap (λ i x, (Z.of_nat i + idx, x)) l.*1) =
      Z.of_nat (length (input_records l)) - Z.of_nat (length l).
Proof.
  induction l as [|[name sh] l IH]; intros Hl idx; [done|].
  rewrite fmap_cons. cbn [imap fst].
  assert (Hnext : imap ((λ i x, (Z.of_nat i + idx, x)) ∘ S) l.*1 =
    imap (λ i (x : string), (Z.of_nat i + (idx + 1), x)) l.*1).
  { apply imap_ext. intros i x _. cbn. f_equal. lia. }
  rewrite Hnext.
  destruct (IH (λ n s Hin, Hl n s ltac:(by right)) (idx + 1)) as [IH1 IH2].
  rewrite bind_cons, fmap_cons, IH1. cbn [sum_Z]. rewrite IH2.
  unfold job_rows, job_count. cbn [fst snd].
  rewrite (Hl name sh) by (by left). change (Z.of_nat 0 + idx) with idx.
  split; [done|].
  unfold input_records. rewrite bind_cons, length_app. cbn [snd length].
  unfold df_len. lia.
Qed.

Lemma read_excel_to_db_file (picks : list nat) (wb : workbook) table :
  NoDup wb.*1 →
  ∃ staged,
    read_excel_to_db picks (Some wb) table =
      Returns (Z.of_nat (length (input_records wb)) - Z.of_nat (length wb),
               table ++ staged) ∧
    staged ≡ₚ staged_from 1 wb ∧
    (picks = [] → staged = staged_from 1 wb).
Proof.
  intros Hnd.
  destruct (listing_jobs wb wb (λ name sh Hin, lookup_sheet_elem name sh wb Hnd Hin) 1)
    as [Hrows Hcount].
  fold (enumerate1 wb.*1) in Hrows, Hcount.
  exists (completion_order picks (enumerate1 wb.*1) ≫= job_rows wb).
  split_and!.
  - unfold read_excel_to_db. rewrite ingest_sheets_jobs. do 2 f_equal.
    rewrite Z.add_0_l, <-Hcount. apply sum_Z_perm.
    by rewrite completion_order_perm.
  - rewrite <-Hrows. by rewrite completion_order_perm.
  - by intros ->.
Qed.

Lemma stage_rows_fields idx df :
  (λ r, [serial r; qri r]) <$> stage_rows idx df = first_two <$> rows df.
Proof.
  unfold stage_rows. rewrite fmap_imap, <-imap_const. by apply imap_ext.
Qed.

Lemma staged_from_fields l :
  ∀ idx, (λ r, [serial r; qri r]) <$> staged_from idx l = first_two_fields l.
Proof.
  induction l as [|[name sh] l IH]; intros idx; [done|].
  cbn [staged_from]. unfold first_two_fields. rewrite bind_cons, fmap_app.
  fold (first_two_fields l). rewrite IH. f_equal. cbn [snd].
  destruct (decide (2 ≤ length (columns sh))%nat); [apply stage_rows_fields|done].
Qed.

Lemma sorted_by_lookup {A} (R : relation A) (l : list A) :
  (∀ i j x y, (i < j)%nat → l !! i = Some x → l !! j = Some y → R x y) →
  StronglySorted R l.
Proof.
  induction l as [|a l IH]; intros Hl; constructor.
  - apply IH. intros i j x y Hij Hi Hj. apply (Hl (S i) (S j)); [lia|done..].
  - apply Forall_forall. intros y Hy. apply list_elem_of_lookup in Hy as [j Hj].
    apply (Hl 0%nat (S j)); [lia|done..].
Qed.

Lemma stage_rows_sorted idx df : StronglySorted row_le (stage_rows idx df).
Proof.
  apply sorted_by_lookup. intros i j x y Hij Hi Hj. unfold stage_rows in *.
  rewrite list_lookup_imap in Hi, Hj.
  destruct (rows df !! i); [|done]. destruct (rows df !! j); [|done].
  injection Hi as <-. injection Hj as <-. unfold row_le, lex_le, order_key. simpl. lia.
Qed.

Lemma staged_from_sheet l :
  ∀ idx, Forall (λ r, idx ≤ source_sheet r) (staged_from idx l).
Proof.
  induction l as [|[name sh] l IH]; intros idx; [constructor|].
  cbn [staged_from]. apply Forall_app. split.
  - destruct (decide (2 ≤ length (columns sh))%nat); [|constructor].
    apply Forall_forall. intros r Hr. unfold stage_rows in Hr.
    apply list_elem_of_lookup in Hr as [i Hi]. rewrite list_lookup_imap in Hi.
    destruct (rows sh !! i); [|done]. injection Hi as <-. simpl. lia.
  - eapply Forall_impl; [apply (IH (idx + 1))|]. simpl. intros. lia.
Qed.

Lemma staged_from_sorted l : ∀ idx, StronglySorted row_le (staged_from idx l).
Proof.
  induction l as [|[name sh] l IH]; intros idx; [constructor|].
  cbn [staged_from]. apply StronglySorted_app_2; [| |apply IH].
  - intros x1 x2 H1 H2.
    pose proof (staged_from_sheet l (idx + 1)) as Hge. rewrite Forall_forall in Hge.
    apply Hge in H2.
    destruct (decide (2 ≤ length (columns sh))%nat); [|by apply elem_of_nil in H1].
    unfold stage_rows in H1. apply list_elem_of_lookup in H1 as [i Hi].
    rewrite list_lookup_imap in Hi. destruct (rows sh !! i); [|done].
    injection Hi as <-. unfold row_le, lex_le, order_key. simpl. lia.
  - destruct (decide (2 ≤ length (columns sh))%nat);
      [apply stage_rows_sorted|constructor].
Qed.

Lemma order_by_key_sorted_id table :
  NoDup (order_key <$> table) → StronglySorted row_le table →
  order_by_key table = table.
Proof.
  intros Hnd Hsorted.
  apply (StronglySorted_unique_strong row_le);
    [|apply order_by_key_sorted|done|apply merge_sort_Permutation].
  intros x y Hx Hy Hxy Hyx. unfold order_by_key in Hx.
  rewrite merge_sort_Permutation in Hx.
  apply (key_inj table); try done. unfold row_le in *. by apply (anti_symm lex_le).
Qed.

Lemma staged_from_NoDup (wb : workbook) :
  NoDup wb.*1 → NoDup (order_key <$> staged_from 1 wb).
Proof.
  intros Hnd.
  pose proof (ingest_sheets_keys (Some wb) (enumerate1 wb.*1) 0 []
    (enumerate1_ranks _) ltac:(constructor) ltac:(constructor)) as Hkeys.
  rewrite ingest_sheets_jobs in Hkeys. cbn [snd app] in Hkeys.
  destruct (listing_jobs wb wb (λ name sh Hin, lookup_sheet_elem name sh wb Hnd Hin) 1)
    as [Hrows _].
  fold (enumerate1 wb.*1) in Hrows. by rewrite Hrows in Hkeys.
Qed.

(** Whatever the order of the jobs, the query sees the staged rows in the
    order of the listing. *)
Lemma staged_in_key_order (wb : workbook) staged :
  NoDup wb.*1 → staged ≡ₚ staged_from 1 wb →
  order_by_key staged = staged_from 1 wb.
Proof.
  intros Hnd Hperm.
  rewrite (order_by_key_perm (staged_from 1 wb) staged) by
    (done || by apply staged_from_NoDup).
  apply order_by_key_sorted_id; [by apply staged_from_NoDup|apply staged_from_sorted].
Qed.

(** The ingestion of an unchanged workbook of distinctly named sheets
    appends to the table one row for every record of every sheet that has
    two columns or more: the rows of one sheet together and in the order of
    the sheet, the sheets in the order in which their jobs complete, which
    is the order of the listing when the jobs complete as they were
    submitted.  A query sees the rows in the order of the listing, whatever
    that order was.  The count that [read_excel_to_db] returns is not the
    number of staged rows: it is the number of records of all sheets less
    one for every sheet. *)
Theorem ingestion_of_unchanged_file (picks : list nat) (wb : workbook)
    (table : list staged_row) :
  NoDup wb.*1 →
  ∃ total staged,
    read_excel_to_db picks (Some wb) table = Returns (total, table ++ staged) ∧
    total = Z.of_nat (length (input_records wb)) - Z.of_nat (length wb) ∧
    staged ≡ₚ staged_from 1 wb ∧
    (picks = [] → staged = staged_from 1 wb) ∧
    order_by_key staged = staged_from 1 wb ∧
    (λ r, [serial r; qri r]) <$> staged_from 1 wb = first_two_fields wb ∧
    count_data_rows (table ++ staged) =
      count_data_rows table + Z.of_nat (length (first_two_fields wb)) ∧
    StronglySorted row_le (staged_from 1 wb).
Proof.
  intros Hnd.
  destruct (read_excel_to_db_file picks wb table Hnd) as (staged & Hrun & Hperm & Hid).
  eexists _, staged. split; [exact Hrun|]. split_and!; try done.
  - by apply staged_in_key_order.
  - apply staged_from_fields.
  - unfold count_data_rows. rewrite length_app, Hperm.
    rewrite <-(staged_from_fields wb 1), length_fmap. lia.
  - apply staged_from_sorted.
Qed.

Lemma ingestion_of_unchanged_file_witness :
  ∃ staged, read_excel_to_db [1%nat] (Some example_input) [] = Returns (10, staged) ∧
    take 5 staged = drop 7 (staged_from 1 example_input) ∧
    order_by_key staged = staged_from 1 example_input.
Proof.
  assert (Hnd : NoDup example_input.*1) by compute_done.
  destruct (ingestion_of_unchanged_file [1%nat] example_input [] Hnd)
    as (total & staged & Hread & Htotal & _ & _ & Hsorted & _).
  exists staged. split_and!.
  - rewrite Hread, Htotal. reflexivity.
  - clear -Hread. vm_compute in Hread. injection Hread as _ Hs. rewrite <-Hs.
    reflexivity.
  - exact Hsorted.
Defined.

(** ** The emitter of the staging mode, target by target *)

Lemma tasks_grid G F N :
  tasks G F N =
    target_grid F G ≫= (λ t, if decide (global_sheet_idx G t ≤ N) then [t] else []).
Proof.
  unfold tasks, target_grid, range1. cbv zeta. rewrite bind_bind.
  apply list_bind_ext; [|done]. intros f. rewrite bind_bind.
  apply list_bind_ext; [|done]. intros s. by rewrite bind_singleton.
Qed.

Lemma write_excel_file_plain dir f s df :
  write_excel_file (WriteFaults false false false) dir f s df
      (bool_decide (s = 1) && negb (bool_decide (is_Some (dir !! f)))) =
    match dir !! f with
    | Some (Book book) =>
      if decide (delete s book = ∅) then <[f := Corrupt]> dir
      else <[f := Book (<[s := df]> book)]> dir
    | _ => <[f := Book {[s := df]}]> dir
    end.
Proof.
  unfold write_excel_file. cbn [first_fails inner_fails outer_fails].
  destruct (dir !! f) as [[|book]|] eqn:Hf.
  - rewrite (bool_decide_true (is_Some _)) by (by eexists). by rewrite andb_false_r.
  - rewrite (bool_decide_true (is_Some _)) by (by eexists). rewrite andb_false_r. cbn.
    destruct (decide (delete s book = ∅)); [done|]. by rewrite insert_delete_eq.
  - rewrite (bool_decide_false (is_Some _)) by (by intros [??]). by rewrite orb_true_r.
Qed.

Lemma process_sheet_task table G R dir f s :
  1 ≤ G → 1 ≤ R → (f, s) ∈ emitter_tasks table G R →
  (process_sheet no_write_faults table G R (count_data_rows table) dir f s).1 =
    write_excel_file (WriteFaults false false false) dir f s (task_frame table G R (f, s))
      (bool_decide (s = 1) && negb (bool_decide (is_Some (dir !! f)))) ∧
  rows (task_frame table G R (f, s)) =
    sheet_rows_read table R (global_sheet_idx G (f, s)) ∧
  rows (task_frame table G R (f, s)) ≠ [] ∧
  df_len (task_frame table G R (f, s)) ≤ R.
Proof.
  intros HG HR Hin. apply elem_of_tasks_iff in Hin as (Hf & Hs & Hle).
  unfold emitter_files, emitter_sheets in *.
  assert (Htotal : 0 ≤ count_data_rows table) by (unfold count_data_rows; lia).
  destruct (ceil_div_exact (count_data_rows table) R ltac:(lia) Htotal) as [HN HNb].
  set (N := ceil_div (count_data_rows table) R) in *.
  assert (Hlen : length (order_by_key table) = length table).
  { unfold order_by_key. by rewrite merge_sort_Permutation. }
  unfold process_sheet, task_frame, sheet_rows_read, global_sheet_idx. cbv zeta.
  cbn [fst snd].
  set (off := ((f - 1) * G + s - 1) * R).
  assert (Hoff : 0 ≤ off < count_data_rows table) by (unfold off; nia).
  replace (off + 1 - 1) with off by lia.
  set (count := Z.min R (count_data_rows table - off)).
  assert (Hcount : 0 < count ≤ R) by (unfold count; lia).
  rewrite !decide_False by lia.
  assert (Hrows : rows (get_data_for_sheet table (off + 1) count) ≠ []).
  { unfold get_data_for_sheet, selected_rows, limit_offset. cbn [rows].
    rewrite decide_False by lia. intros Hnil. apply fmap_nil_inv in Hnil.
    apply (f_equal length) in Hnil. rewrite length_take, length_drop in Hnil.
    unfold count_data_rows in *. cbn [length] in Hnil. lia. }
  assert (Hempty : df_empty (get_data_for_sheet table (off + 1) count) = false).
  { apply bool_decide_eq_false. intros [Hc|Hr]; [done|by apply Hrows]. }
  rewrite Hempty. split_and!; try done.
  unfold df_len, get_data_for_sheet, selected_rows. cbn [rows].
  rewrite length_fmap. pose proof (limit_offset_length count (off + 1 - 1)
    (order_by_key table) ltac:(lia)). lia.
Qed.

Lemma elem_of_firsts (p : list (Z * Z)) (f : Z) : f ∈ p.*1 ↔ ∃ s, (f, s) ∈ p.
Proof.
  rewrite list_elem_of_fmap. split.
  - intros ([f' s] & -> & Hin). by exists s.
  - intros [s Hin]. by exists (f, s).
Qed.

Section emit.
Variable frame : Z * Z → dataframe.
Variable step : gmap Z out_file → Z * Z → gmap Z out_file.
Variable l : list (Z * Z).
Hypothesis step_writes : ∀ t d, t ∈ l →
  step d t =
    write_excel_file (WriteFaults false false false) d t.1 t.2 (frame t)
      (bool_decide (t.2 = 1) && negb (bool_decide (is_Some (d !! t.1)))).
Hypothesis tasks_once : NoDup l.

(** The writes of a prefix of the targets, into a directory in which no
    target is the only sheet of its workbook. *)
Lemma emit_fold (dir0 : gmap Z out_file) :
  (∀ f s b, (f, s) ∈ l → book_of dir0 f = Some b → delete s b ≠ ∅) →
  ∀ p q, l = p ++ q →
    (∀ f, f ∈ p.*1 → ∃ book,
       foldl step dir0 p !! f = Some (Book book) ∧
       ∀ s, book !! s =
         if decide ((f, s) ∈ p) then Some (frame (f, s))
         else book_of dir0 f ≫= (.!! s)) ∧
    (∀ f, f ∉ p.*1 → foldl step dir0 p !! f = dir0 !! f).
Proof.
  intros Hdir0. induction p as [|[f0 s0] p IH] using rev_ind; intros q Hl.
  { split; [|done]. intros f Hf. by apply elem_of_nil in Hf. }
  rewrite <-app_assoc in Hl. cbn [app] in Hl.
  destruct (IH _ Hl) as [IH1 IH2]. clear IH.
  assert (Hin0 : (f0, s0) ∈ l).
  { rewrite Hl. apply elem_of_app. right. by left. }
  assert (Hnew : (f0, s0) ∉ p).
  { intros Hin. rewrite Hl in tasks_once. apply NoDup_app in tasks_once as (_ & Hd & _).
    apply (Hd _ Hin). by left. }
  rewrite foldl_app. cbn [foldl]. rewrite step_writes by done. cbn [fst snd].
  rewrite write_excel_file_plain.
  set (d := foldl step dir0 p) in *.
  assert (Hmem : ∀ f s, (f, s) ∈ p ++ [(f0, s0)] ↔ (f, s) ∈ p ∨ (f, s) = (f0, s0)).
  { intros f s. rewrite elem_of_app, list_elem_of_singleton. done. }
  assert (Hfst : ∀ f, f ∈ (p ++ [(f0, s0)]).*1 ↔ f ∈ p.*1 ∨ f = f0).
  { intros f. rewrite fmap_app, elem_of_app. cbn. by rewrite list_elem_of_singleton. }
  assert (Hgoal : ∀ book0 : gmap Z dataframe,
    (∀ s, s ≠ s0 → book0 !! s =
       if decide ((f0, s) ∈ p) then Some (frame (f0, s))
       else book_of dir0 f0 ≫= (.!! s)) →
    (∀ f, f ∈ (p ++ [(f0, s0)]).*1 → ∃ book,
       <[f0 := Book (<[s0 := frame (f0, s0)]> book0)]> d !! f = Some (Book book) ∧
       ∀ s, book !! s =
         if decide ((f, s) ∈ p ++ [(f0, s0)]) then Some (frame (f, s))
         else book_of dir0 f ≫= (.!! s)) ∧
    (∀ f, f ∉ (p ++ [(f0, s0)]).*1 →
       <[f0 := Book (<[s0 := frame (f0, s0)]> book0)]> d !! f = dir0 !! f)).
  { intros book0 Hbook0. split.
    - intros f Hf. destruct (decide (f = f0)) as [->|Hne].
      + eexists. split; [apply lookup_insert_eq|]. intros s.
        destruct (decide (s = s0)) as [->|Hs].
        * rewrite lookup_insert_eq, decide_True; [done|]. apply Hmem. by right.
        * rewrite lookup_insert_ne, Hbook0 by done. apply decide_ext.
          rewrite Hmem. split; [by left|]. intros [?|[=]]; done.
      + apply Hfst in Hf as [Hf|?]; [|done].
        destruct (IH1 f Hf) as (book & Hbook & Hsheets).
        exists book. rewrite lookup_insert_ne by done. split; [done|].
        intros s. rewrite Hsheets. apply decide_ext.
        rewrite Hmem. split; [by left|]. intros [?|[=]]; done.
    - intros f Hf. rewrite Hfst in Hf.
      rewrite lookup_insert_ne by (intros ->; apply Hf; by right).
      apply IH2. intros ?. apply Hf. by left. }
  destruct (decide (f0 ∈ p.*1)) as [Hold|Hfresh].
  - destruct (IH1 f0 Hold) as (book & Hbook & Hsheets). rewrite Hbook.
    apply elem_of_firsts in Hold as [s' Hs'].
    assert (Hne : s' ≠ s0) by (intros ->; by apply Hnew).
    rewrite decide_False.
    2:{ intros Hempty. apply (f_equal (.!! s')) in Hempty.
        rewrite lookup_delete_ne, Hsheets, decide_True, lookup_empty in Hempty by done.
        done. }
    apply Hgoal. intros s _. apply Hsheets.
  - assert (Hnone : ∀ s, (f0, s) ∉ p).
    { intros s Hin. apply Hfresh, elem_of_firsts. by exists s. }
    rewrite (IH2 f0 Hfresh).
    destruct (dir0 !! f0) as [[|book]|] eqn:Hf0.
    + rewrite <-(insert_empty s0 (frame (f0, s0))). apply Hgoal. intros s Hs.
      rewrite lookup_empty, decide_False by apply Hnone.
      unfold book_of. by rewrite Hf0.
    + rewrite decide_False.
      2:{ apply (Hdir0 f0 s0 book Hin0). unfold book_of. by rewrite Hf0. }
      apply Hgoal. intros s Hs. rewrite decide_False by apply Hnone.
      unfold book_of. by rewrite Hf0.
    + rewrite <-(insert_empty s0 (frame (f0, s0))). apply Hgoal. intros s Hs.
      rewrite lookup_empty, decide_False by apply Hnone.
      unfold book_of. by rewrite Hf0.
Qed.

(** The same writes again, into the directory that they left. *)
Lemma rerun_fold (dir1 : gmap Z out_file) :
  (∀ f, f ∈ l.*1 → ∃ book,
     dir1 !! f = Some (Book book) ∧
     ∀ s, book !! s = if decide ((f, s) ∈ l) then Some (frame (f, s)) else None) →
  ∀ p q, l = p ++ q →
    (∀ t, t ∈ p → (∀ t', t' ∈ l → t'.1 = t.1 → t' = t) →
       foldl step dir1 p !! t.1 = Some Corrupt) ∧
    (∀ f, (∀ t, t ∈ p → t.1 = f → ∃ t', t' ∈ l ∧ t'.1 = f ∧ t' ≠ t) →
       foldl step dir1 p !! f = dir1 !! f).
Proof.
  intros Hdir1. induction p as [|[f0 s0] p IH] using rev_ind; intros q Hl.
  { split; [|done]. intros t Ht. by apply elem_of_nil in Ht. }
  rewrite <-app_assoc in Hl. cbn [app] in Hl.
  destruct (IH _ Hl) as [IH1 IH2]. clear IH.
  assert (Hin0 : (f0, s0) ∈ l).
  { rewrite Hl. apply elem_of_app. right. by left. }
  assert (Hnew : (f0, s0) ∉ p).
  { intros Hin. rewrite Hl in tasks_once. apply NoDup_app in tasks_once as (_ & Hd & _).
    apply (Hd _ Hin). by left. }
  assert (Hsub : ∀ t, t ∈ p → t ∈ l).
  { intros t Ht. rewrite Hl. apply elem_of_app. by left. }
  rewrite foldl_app. cbn [foldl]. rewrite step_writes by done. cbn [fst snd].
  rewrite write_excel_file_plain.
  set (d := foldl step dir1 p) in *.
  destruct (Hdir1 f0) as (book & Hbook & Hsheets).
  { apply elem_of_firsts. by exists s0. }
  assert (Hd0 : d !! f0 = Some (Book book)).
  { rewrite IH2; [done|]. intros t Ht Hf. exists (f0, s0). split_and!; [done..|].
    intros <-. by apply Hnew. }
  rewrite Hd0.
  destruct (decide (delete s0 book = ∅)) as [Hlone|Hmore].
  - split.
    + intros t Ht Halone. apply elem_of_app in Ht as [Ht|Ht].
      * destruct (decide (t.1 = f0)) as [Hf|Hf].
        { exfalso. apply Hnew. by rewrite (Halone (f0, s0) Hin0 (eq_sym Hf)). }
        rewrite lookup_insert_ne by done. by apply IH1.
      * apply list_elem_of_singleton in Ht as ->. apply lookup_insert_eq.
    + intros f Hf. destruct (decide (f = f0)) as [->|Hne].
      * exfalso. destruct (Hf (f0, s0)) as ([f' s'] & Hin' & Hf' & Hne');
          [apply elem_of_app; right; by left|done|].
        cbn in Hf'. subst f'. apply (f_equal (.!! s')) in Hlone.
        rewrite lookup_delete_ne, Hsheets, decide_True, lookup_empty in Hlone
          by congruence.
        done.
      * rewrite lookup_insert_ne by done. apply IH2.
        intros t Ht. apply Hf, elem_of_app. by left.
  - assert (Hsame : <[f0 := Book (<[s0 := frame (f0, s0)]> book)]> d = d).
    { rewrite (insert_id book) by (by rewrite Hsheets, decide_True).
      by apply insert_id. }
    rewrite Hsame. split.
    + intros t Ht Halone. apply elem_of_app in Ht as [Ht|Ht]; [by apply IH1|].
      apply list_elem_of_singleton in Ht as ->. exfalso. apply Hmore.
      apply map_eq. intros s. rewrite lookup_empty.
      destruct (decide (s = s0)) as [->|Hs]; [apply lookup_delete_eq|].
      rewrite lookup_delete_ne, Hsheets by done.
      rewrite decide_False; [done|]. intros Hin.
      specialize (Halone (f0, s) Hin eq_refl). congruence.
    + intros f Hf. apply IH2. intros t Ht. apply Hf, elem_of_app. by left.
Qed.
End emit.

Lemma create_output_files_fold table dir G R :
  1 ≤ G → 1 ≤ R →
  create_output_files no_write_faults table dir G R =
    Returns (emitter_files table G R,
             foldl (λ d t, (process_sheet no_write_faults table G R
                              (count_data_rows table) d t.1 t.2).1)
                   dir (emitter_tasks table G R)).
Proof.
  intros HG HR. unfold create_output_files, math_ceil_div.
  rewrite decide_False by lia. cbn [obind]. by rewrite decide_False by lia.
Qed.

Lemma emitter_tasks_step table G R :
  1 ≤ G → 1 ≤ R →
  ∀ t d, t ∈ emitter_tasks table G R →
    (process_sheet no_write_faults table G R (count_data_rows table) d t.1 t.2).1 =
      write_excel_file (WriteFaults false false false) d t.1 t.2 (task_frame table G R t)
        (bool_decide (t.2 = 1) && negb (bool_decide (is_Some (d !! t.1)))).
Proof.
  intros HG HR [f s] d Hin. by destruct (process_sheet_task table G R d f s HG HR Hin).
Qed.

Lemma emitter_tasks_files table G R f :
  1 ≤ G → 1 ≤ R →
  f ∈ (emitter_tasks table G R).*1 ↔ 1 ≤ f ≤ emitter_files table G R.
Proof.
  intros HG HR. rewrite elem_of_firsts.
  assert (Htotal : 0 ≤ count_data_rows table) by (unfold count_data_rows; lia).
  destruct (ceil_div_exact (count_data_rows table) R ltac:(lia) Htotal) as [HN _].
  fold (emitter_sheets table R) in HN.
  destruct (ceil_div_exact (emitter_sheets table R) G ltac:(lia) HN) as [_ HF].
  fold (emitter_files table G R) in HF.
  split.
  - intros [s Hin]. apply elem_of_tasks_iff in Hin. lia.
  - intros Hf. exists 1. apply elem_of_tasks_iff. nia.
Qed.

(** The run of the emitter into a directory in which no target is the only
    sheet of its workbook. *)
Lemma create_output_files_run table dir0 G R :
  1 ≤ G → 1 ≤ R →
  (∀ f s b, (f, s) ∈ emitter_tasks table G R → book_of dir0 f = Some b →
     delete s b ≠ ∅) →
  ∃ dir,
    create_output_files no_write_faults table dir0 G R =
      Returns (emitter_files table G R, dir) ∧
    (∀ f, 1 ≤ f ≤ emitter_files table G R → ∃ book,
       dir !! f = Some (Book book) ∧
       ∀ s, book !! s =
         if decide ((f, s) ∈ emitter_tasks table G R)
         then Some (task_frame table G R (f, s))
         else book_of dir0 f ≫= (.!! s)) ∧
    (∀ f, ¬ (1 ≤ f ≤ emitter_files table G R) → dir !! f = dir0 !! f).
Proof.
  intros HG HR Hdir0. eexists. split; [by apply create_output_files_fold|].
  destruct (emit_fold (task_frame table G R) _ (emitter_tasks table G R)
    (emitter_tasks_step table G R HG HR) (tasks_NoDup _ _ _) dir0 Hdir0
    (emitter_tasks table G R) [] ltac:(by rewrite app_nil_r)) as [Hbooks Hrest].
  split.
  - intros f Hf. apply Hbooks. by apply emitter_tasks_files.
  - intros f Hf. apply Hrest. by rewrite emitter_tasks_files.
Qed.

Lemma create_output_files_sheets table dir0 dir G R :
  (∀ f, 1 ≤ f ≤ emitter_files table G R → ∃ book,
     dir !! f = Some (Book book) ∧
     ∀ s, book !! s =
       if decide ((f, s) ∈ emitter_tasks table G R)
       then Some (task_frame table G R (f, s))
       else book_of dir0 f ≫= (.!! s)) →
  (∀ f, ¬ (1 ≤ f ≤ emitter_files table G R) → dir !! f = dir0 !! f) →
  ∀ f s, book_of dir f ≫= (.!! s) =
    if decide ((f, s) ∈ emitter_tasks table G R)
    then Some (task_frame table G R (f, s))
    else book_of dir0 f ≫= (.!! s).
Proof.
  intros Hbooks Hrest f s.
  destruct (decide (1 ≤ f ≤ emitter_files table G R)) as [Hf|Hf].
  - destruct (Hbooks f Hf) as (book & Hbook & Hsheets).
    unfold book_of at 1. rewrite Hbook. cbn. apply Hsheets.
  - unfold book_of at 1 2. rewrite (Hrest f Hf). rewrite decide_False; [done|].
    intros Hin. apply elem_of_tasks_iff in Hin. lia.
Qed.

Lemma emitter_frames table G R :
  1 ≤ G → 1 ≤ R →
  (∀ t, t ∈ emitter_tasks table G R → 0 < df_len (task_frame table G R t) ≤ R) ∧
  emitter_tasks table G R ≫= (λ t, rows (task_frame table G R t)) =
    (λ r, [serial r; qri r]) <$> order_by_key table.
Proof.
  intros HG HR. split.
  - intros [f s] Hin.
    destruct (process_sheet_task table G R ∅ f s HG HR Hin) as (_ & _ & Hne & Hle).
    split; [|done]. unfold df_len.
    destruct (rows (task_frame table G R (f, s))); [done|]. cbn [length]. lia.
  - rewrite <-(emission_round_trip table G R) by done.
    unfold emitted_in_target_order. apply Forall_bind_ext, Forall_forall.
    intros [f s] Hin.
    by destruct (process_sheet_task table G R ∅ f s HG HR Hin) as (_ & -> & _).
Qed.

(** With every write succeeding, and with the counts of the emitter small
    enough for the float division to be exact, [create_output_files] run on
    a directory in which no target is the only sheet of its workbook (an
    empty directory for one) returns the number of files that the table
    needs and leaves every file of that range as a workbook; a target that
    it visits holds exactly the frame that it queried for it, a frame of 1
    to R rows; every other sheet of the directory is as before, and so is
    every file outside the range.  The rows of the visited targets, read in
    target order, are all staged rows in key order. *)
Theorem emitter_output (table : list staged_row) (dir0 : gmap Z out_file) (G R : Z) :
  1 ≤ G → 1 ≤ R →
  float_exact (count_data_rows table) → float_exact R → float_exact G →
  (∀ f s b, (f, s) ∈ emitter_tasks table G R → book_of dir0 f = Some b →
     delete s b ≠ ∅) →
  ∃ dir,
    create_output_files no_write_faults table dir0 G R =
      Returns (emitter_files table G R, dir) ∧
    (∀ f, 1 ≤ f ≤ emitter_files table G R → is_Some (book_of dir f)) ∧
    (∀ f s, book_of dir f ≫= (.!! s) =
       if decide ((f, s) ∈ emitter_tasks table G R)
       then Some (task_frame table G R (f, s))
       else book_of dir0 f ≫= (.!! s)) ∧
    (∀ f, ¬ (1 ≤ f ≤ emitter_files table G R) → dir !! f = dir0 !! f) ∧
    (∀ t, t ∈ emitter_tasks table G R →
       0 < df_len (task_frame table G R t) ≤ R) ∧
    emitter_tasks table G R ≫= (λ t, rows (task_frame table G R t)) =
      (λ r, [serial r; qri r]) <$> order_by_key table.
Proof.
  intros HG HR _ _ _ Hdir0.
  destruct (create_output_files_run table dir0 G R HG HR Hdir0)
    as (dir & Hrun & Hbooks & Hrest).
  exists dir. split; [done|]. split_and!.
  - intros f Hf. destruct (Hbooks f Hf) as (book & Hbook & _).
    unfold book_of. rewrite Hbook. by eexists.
  - by apply (create_output_files_sheets table dir0).
  - done.
  - by apply emitter_frames.
  - by apply emitter_frames.
Qed.

Lemma emitter_output_witness :
  ∃ dir,
    create_output_files no_write_faults example_table ∅ 2 4 = Returns (2, dir) ∧
    book_of dir 1 ≫= (.!! 2) =
      Some (DataFrame ["serial"; "qri"]
              [["a4"; "x"]; ["a5"; "x"]; ["a6"; "x"]; ["b0"; "y"]]%string).
Proof.
  destruct (emitter_output example_table ∅ 2 4 ltac:(lia) ltac:(lia)
    ltac:(by compute) ltac:(by compute) ltac:(by compute))
    as (dir & Hrun & _ & Hsheets & _).
  { intros f s b _ Hb. unfold book_of in Hb. by rewrite lookup_empty in Hb. }
  exists dir. split; [exact Hrun|].
  rewrite (Hsheets 1 2). vm_compute. reflexivity.
Defined.

Lemma lone_task G F N f :
  1 ≤ G →
  ((f, 1) ∈ tasks G F N ∧ (f, 2) ∉ tasks G F N) ↔
  ∃ t, t ∈ tasks G F N ∧ t.1 = f ∧ ∀ t', t' ∈ tasks G F N → t'.1 = t.1 → t' = t.
Proof.
  intros HG. split.
  - intros [H1 H2]. exists (f, 1). split_and!; [done..|].
    intros [f' s'] Hin Hf. cbn in Hf. subst f'. f_equal.
    destruct (decide (s' = 1)) as [|Hs]; [done|]. exfalso. apply H2.
    apply elem_of_tasks_iff in Hin. apply elem_of_tasks_iff. lia.
  - intros ([f' s] & Hin & Hf & Halone). cbn in Hf. subst f'.
    assert (H1 : (f, 1) ∈ tasks G F N).
    { apply elem_of_tasks_iff in Hin. apply elem_of_tasks_iff. lia. }
    split; [done|]. intros H2.
    pose proof (Halone _ H1 eq_refl) as E1. pose proof (Halone _ H2 eq_refl) as E2.
    congruence.
Qed.

(** The emitter is not idempotent.  Run a second time on its own output,
    with every write succeeding, it spoils every file that has a single
    target and leaves the other files as they are: to replace the sheet of
    a target it removes the sheet and saves the workbook, which the library
    refuses for a workbook without a sheet after it has emptied the file.
    The first run is made on a directory without a workbook at the files
    that it counts, and the counts are small enough for the float division
    to be exact. *)
Theorem emitter_rerun_spoils_lone_sheets (table : list staged_row)
    (dir0 : gmap Z out_file) (G R : Z) :
  1 ≤ G → 1 ≤ R →
  float_exact (count_data_rows table) → float_exact R → float_exact G →
  (∀ f, 1 ≤ f ≤ emitter_files table G R → book_of dir0 f = None) →
  ∃ dir dir',
    create_output_files no_write_faults table dir0 G R =
      Returns (emitter_files table G R, dir) ∧
    create_output_files no_write_faults table dir G R =
      Returns (emitter_files table G R, dir') ∧
    ∀ f, dir' !! f =
      if decide ((f, 1) ∈ emitter_tasks table G R ∧ (f, 2) ∉ emitter_tasks table G R)
      then Some Corrupt else dir !! f.
Proof.
  intros HG HR _ _ _ Hdir0.
  destruct (create_output_files_run table dir0 G R HG HR) as (dir & Hrun & Hbooks & _).
  { intros f s b Hin Hb. rewrite Hdir0 in Hb; [done|].
    apply elem_of_tasks_iff in Hin. lia. }
  exists dir. eexists. split; [done|].
  split; [by apply create_output_files_fold|].
  destruct (rerun_fold (task_frame table G R) _ (emitter_tasks table G R)
    (emitter_tasks_step table G R HG HR) (tasks_NoDup _ _ _) dir) with
    (p := emitter_tasks table G R) (q := @nil (Z * Z)) as [Hlone Hmore].
  { intros f Hf. apply emitter_tasks_files in Hf; [|done..].
    destruct (Hbooks f Hf) as (book & Hbook & Hsheets). exists book. split; [done|].
    intros s. rewrite Hsheets, (Hdir0 f Hf). done. }
  { by rewrite app_nil_r. }
  intros f.
  destruct (decide ((f, 1) ∈ emitter_tasks table G R ∧ (f, 2) ∉ emitter_tasks table G R))
    as [Hf|Hf].
  - apply lone_task in Hf as (t & Hin & <- & Halone); [|done]. by apply Hlone.
  - apply Hmore. intros [f' s] Hin Ht. cbn in Ht. subst f'.
    assert (H1 : (f, 1) ∈ emitter_tasks table G R).
    { apply elem_of_tasks_iff in Hin. apply elem_of_tasks_iff. lia. }
    destruct (decide ((f, 2) ∈ emitter_tasks table G R)) as [H2|H2];
      [|exfalso; by apply Hf].
    destruct (decide (s = 1)) as [->|Hs].
    + exists (f, 2). split_and!; [done..|]. intros [=].
    + exists (f, 1). split_and!; [done..|]. intros [=]. by apply Hs.
Qed.

Lemma emitter_rerun_spoils_lone_sheets_witness :
  ∃ dir dir',
    create_output_files no_write_faults example_table ∅ 2 4 = Returns (2, dir) ∧
    create_output_files no_write_faults example_table dir 2 4 = Returns (2, dir') ∧
    dir' !! 1 = dir !! 1 ∧ dir' !! 2 = Some Corrupt.
Proof.
  destruct (emitter_rerun_spoils_lone_sheets example_table ∅ 2 4 ltac:(lia) ltac:(lia)
    ltac:(by compute) ltac:(by compute) ltac:(by compute))
    as (dir & dir' & Hrun & Hrerun & Hfiles).
  { intros f _. unfold book_of. by rewrite lookup_empty. }
  exists dir, dir'. split; [exact Hrun|]. split; [exact Hrerun|].
  split; [exact (Hfiles 1)|exact (Hfiles 2)].
Defined.


Lemma ceil_div_zero (b : Z) : b ≠ 0 → ceil_div 0 b = 0.
Proof.
  intros Hb. unfold ceil_div. change (- 0) with 0. by rewrite Z.div_0_l by done.
Qed.



(** ** The staging mode as a whole *)

Lemma grid_stored table G R dir :
  (∀ f s, book_of dir f ≫= (.!! s) =
     if decide ((f, s) ∈ emitter_tasks table G R)
     then Some (task_frame table G R (f, s)) else None) →
  target_grid (emitter_files table G R) G ≫= stored_rows dir =
    emitter_tasks table G R ≫= (λ t, rows (task_frame table G R t)).
Proof.
  intros Hsheets. unfold emitter_tasks at 1. rewrite tasks_grid, bind_bind.
  apply Forall_bind_ext, Forall_forall. intros [f s] Hgrid.
  apply elem_of_target_grid in Hgrid.
  unfold stored_rows. cbn [fst snd]. rewrite Hsheets.
  destruct (decide (global_sheet_idx G (f, s) ≤ emitter_sheets table R)) as [Hle|Hgt].
  - rewrite decide_True by (apply elem_of_tasks_iff; unfold global_sheet_idx in Hle;
      cbn [fst snd] in Hle; lia).
    by rewrite bind_singleton.
  - rewrite decide_False; [done|]. intros Hin. apply elem_of_tasks_iff in Hin.
    unfold global_sheet_idx in Hgt. cbn [fst snd] in Hgt. lia.
Qed.

(** The run of the staging mode on an unchanged workbook, without a
    database at the start and into an empty output directory; [table] is
    the table that the ingestion fills. *)
Lemma split_excel_with_db_fresh (picks : list nat) (cpu_count : Z) (wb : workbook)
    (G R : Z) (max_workers : option Z) (custom_db_path delete_db : bool)
    (dbs : db_files) :
  NoDup wb.*1 → 1 ≤ G → 1 ≤ R →
  (∀ m, max_workers = Some m → 0 < m) →
  (custom_db_path = true → custom_db dbs = None) →
  ∃ table dir,
    table ≡ₚ staged_from 1 wb ∧
    (picks = [] → table = staged_from 1 wb) ∧
    split_excel_with_db no_write_faults picks cpu_count (Some wb) ∅ G R max_workers
        custom_db_path delete_db dbs =
      (Returns (emitter_files table G R), dir,
       if custom_db_path
       then DbFiles (if delete_db then None else Some table) (saved_db dbs)
       else DbFiles (custom_db dbs) (if delete_db then saved_db dbs else Some table)) ∧
    emitter_files table G R =
      ceil_div (ceil_div (Z.of_nat (length (first_two_fields wb))) R) G ∧
    target_grid (emitter_files table G R) G ≫= stored_rows dir = first_two_fields wb.
Proof.
  intros Hnd HG HR Hworkers Hfresh.
  assert (Hdb : (if custom_db_path then custom_db dbs else None) = None).
  { destruct custom_db_path; [by apply Hfresh|done]. }
  destruct (read_excel_to_db_file picks wb [] Hnd) as (table & Hread & Hperm & Hid).
  cbn [app] in Hread.
  destruct (create_output_files_run table ∅ G R HG HR) as (dir & Hrun & Hbooks & Hrest).
  { intros f s b _ Hb. unfold book_of in Hb. by rewrite lookup_empty in Hb. }
  exists table, dir. split_and!; [done|done| | |].
  - unfold split_excel_with_db. rewrite Hdb, Hread. cbn [snd].
    rewrite decide_False by (destruct max_workers as [m|];
      [specialize (Hworkers m eq_refl)|]; lia).
    cbn [fst snd obind]. rewrite Hrun. cbn [obind fst snd]. done.
  - unfold emitter_files, emitter_sheets, count_data_rows.
    by rewrite Hperm, <-(staged_from_fields wb 1), length_fmap.
  - rewrite grid_stored.
    + destruct (emitter_frames table G R HG HR) as [_ ->].
      by rewrite (staged_in_key_order wb), staged_from_fields.
    + intros f s.
      rewrite (create_output_files_sheets table ∅ dir G R Hbooks Hrest).
      unfold book_of at 1. by rewrite lookup_empty.
Qed.

(** The staging mode from a workbook to the output files.  When no database
    is found at the start, the workbook is unchanged, the output directory
    is empty, no write fails and the counts are small enough for the float
    division to be exact, [split_excel_with_db] returns the number of files
    that the staged rows need, and the records stored in the targets of the
    output directory, read in target order, are the first two field values
    of every record of the sheets with two columns or more, in the order of
    the workbook, whatever the order in which the jobs of the ingestion
    complete.  The table is kept, at the custom path or as a copy in the
    output directory, unless the caller asks to delete it; it holds the
    staged rows in the order in which the jobs completed, a permutation of
    the order of the workbook. *)
Theorem staging_mode_end_to_end (picks : list nat) (cpu_count : Z) (wb : workbook)
    (G R : Z) (max_workers : option Z) (custom_db_path delete_db : bool)
    (dbs : db_files) :
  NoDup wb.*1 → 1 ≤ G → 1 ≤ R →
  float_exact (Z.of_nat (length (first_two_fields wb))) → float_exact R →
  float_exact G →
  (∀ m, max_workers = Some m → 0 < m) →
  (custom_db_path = true → custom_db dbs = None) →
  ∃ F dir dbs',
    split_excel_with_db no_write_faults picks cpu_count (Some wb) ∅ G R max_workers
      custom_db_path delete_db dbs = (Returns F, dir, dbs') ∧
    F = ceil_div (ceil_div (Z.of_nat (length (first_two_fields wb))) R) G ∧
    target_grid F G ≫= stored_rows dir = first_two_fields wb ∧
    (delete_db = true → dbs' = dbs) ∧
    (delete_db = false →
       ∃ table,
         (if custom_db_path then custom_db dbs' else saved_db dbs') = Some table ∧
         table ≡ₚ staged_from 1 wb ∧
         (picks = [] → table = staged_from 1 wb)).
Proof.
  intros Hnd HG HR _ _ _ Hworkers Hfresh.
  destruct (split_excel_with_db_fresh picks cpu_count wb G R max_workers
    custom_db_path delete_db dbs Hnd HG HR Hworkers Hfresh)
    as (table & dir & Hperm & Hid & Hrun & HF & Hrows).
  do 3 eexists. split; [exact Hrun|]. split_and!; [done|done| |].
  - intros ->. destruct custom_db_path; [|by destruct dbs].
    specialize (Hfresh eq_refl). destruct dbs as [c sv]. cbn in *. by rewrite Hfresh.
  - intros ->. exists table. by destruct custom_db_path.
Qed.

Lemma staging_mode_end_to_end_witness :
  ∃ F dir dbs' table,
    split_excel_with_db no_write_faults [1%nat] 4 (Some example_wide_input) ∅ 2 4 None
      false false (DbFiles None None) = (Returns F, dir, dbs') ∧
    target_grid F 2 ≫= stored_rows dir = [["w0"; "p"]; ["w1"; "q"]]%string ∧
    saved_db dbs' = Some table ∧
    table ≡ₚ [StagedRow 1 1 "w0" "p"; StagedRow 1 2 "w1" "q"]%string.
Proof.
  assert (Hnd : NoDup example_wide_input.*1) by compute_done.
  destruct (staging_mode_end_to_end [1%nat] 4 example_wide_input 2 4 None false false
    (DbFiles None None) Hnd ltac:(lia) ltac:(lia) ltac:(by compute) ltac:(by compute)
    ltac:(by compute) ltac:(discriminate) ltac:(discriminate))
    as (F & dir & dbs' & Hrun & _ & Hrows & _ & Hdb).
  destruct (Hdb eq_refl) as (table & Htable & Hperm & _).
  exists F, dir, dbs', table. split; [exact Hrun|]. split; [exact Hrows|].
  split; [exact Htable|exact Hperm].
Defined.

(** A database that exists at the custom path is used as it is: the input
    file is not read and the number of workers is not looked at, so the
    call gives the same result for every input file.  In particular, a
    first call that cannot open the input file raises and leaves an empty
    database at the custom path, and every later call with that path, even
    for a workbook that has records, returns zero files and writes
    nothing. *)
Theorem existing_database_is_reused (flt : Z * Z → write_faults)
    (picks1 picks2 : list nat) (cpu_count : Z)
    (dir : gmap Z out_file) (G R : Z) (mw1 mw2 : option Z)
    (input1 input2 : option workbook) (delete_db : bool)
    (table : list staged_row) (saved : option (list staged_row)) :
  R ≠ 0 → G ≠ 0 →
  split_excel_with_db flt picks1 cpu_count input1 dir G R mw1 true delete_db
      (DbFiles (Some table) saved) =
    split_excel_with_db flt picks2 cpu_count input2 dir G R mw2 true delete_db
      (DbFiles (Some table) saved) ∧
  split_excel_with_db flt picks1 cpu_count None dir G R mw1 true false
      (DbFiles None saved) =
    (Raises FileNotFoundError, dir, DbFiles (Some []) saved) ∧
  split_excel_with_db flt picks2 cpu_count input2 dir G R mw2 true false
      (DbFiles (Some []) saved) =
    (Returns 0, dir, DbFiles (Some []) saved).
Proof.
  intros HR HG. split_and!; [done|done|].
  unfold split_excel_with_db. cbn [custom_db fst snd obind].
  unfold create_output_files, math_ceil_div, count_data_rows.
  change (Z.of_nat (length [])) with 0.
  rewrite decide_False by done. cbn [obind]. rewrite decide_False by done.
  rewrite !ceil_div_zero by done. done.
Qed.

Lemma existing_database_is_reused_witness :
  split_excel_with_db no_write_faults [] 4 (Some example_input) ∅ 2 4 None true false
    (DbFiles (Some []) None) = (Returns 0, ∅, DbFiles (Some []) None).
Proof.
  destruct (existing_database_is_reused no_write_faults [] [] 4 ∅ 2 4 None None None
    (Some example_input) false [] None ltac:(lia) ltac:(lia)) as (_ & _ & H).
  exact H.
Defined.

(** ** Round trip of the plan and of the outputs *)





(** ** The registry of file locks *)

Lemma get_file_lock_ok file_path reg :
  registry_ok reg →
  registry_ok (get_file_lock file_path reg).2 ∧
  file_locks (get_file_lock file_path reg).2 !! file_path =
    Some (get_file_lock file_path reg).1 ∧
  (∀ p l, file_locks reg !! p = Some l →
     file_locks (get_file_lock file_path reg).2 !! p = Some l).
Proof.
  intros [Hlt Hinj]. unfold get_file_lock.
  destruct (file_locks reg !! file_path) as [lock|] eqn:Hp; cbn [fst snd].
  - done.
  - split_and!.
    + split; cbn [file_locks locks_created].
      * intros p l. destruct (decide (file_path = p)) as [<-|Hne].
        -- rewrite lookup_insert_eq. intros [= <-]. lia.
        -- rewrite lookup_insert_ne by done. intros Hl. apply Hlt in Hl. lia.
      * intros p q l.
        destruct (decide (file_path = p)) as [<-|Hp'];
          destruct (decide (file_path = q)) as [<-|Hq'];
          rewrite ?lookup_insert_eq, ?lookup_insert_ne by done; try done.
        -- intros [= <-] Hl. apply Hlt in Hl. lia.
        -- intros Hl [= <-]. apply Hlt in Hl. lia.
        -- apply Hinj.
    + cbn [file_locks]. by rewrite lookup_insert_eq.
    + intros p l Hl. cbn [file_locks]. rewrite lookup_insert_ne; [done|].
      intros <-. by rewrite Hp in Hl.
Qed.

Lemma locks_for_registered paths :
  ∀ reg, registry_ok reg →
    ∃ reg', registry_ok reg' ∧
      (∀ p l, file_locks reg !! p = Some l → file_locks reg' !! p = Some l) ∧
      ∀ i p l, paths !! i = Some p → locks_for paths reg !! i = Some l →
        file_locks reg' !! p = Some l.
Proof.
  induction paths as [|path paths IH]; intros reg Hreg.
  - exists reg. by split_and!.
  - destruct (get_file_lock_ok path reg Hreg) as (Hok & Hself & Hkeep).
    destruct (IH _ Hok) as (reg' & Hok' & Hkeep' & Hall).
    exists reg'. split_and!; [done|by auto|].
    intros [|i] p l Hp Hl; cbn in Hp, Hl.
    + injection Hp as <-. injection Hl as <-. by apply Hkeep'.
    + by apply (Hall i).
Qed.

(** The registry gives every output path one lock of its own: in any
    sequence of [get_file_lock] calls that starts from the empty registry,
    two calls return the same lock exactly when they name the same path. *)
Theorem file_locks_identify_paths (paths : list string) (i j : nat)
    (pi pj : string) (li lj : nat) :
  paths !! i = Some pi → paths !! j = Some pj →
  locks_for paths (LockRegistry ∅ 0) !! i = Some li →
  locks_for paths (LockRegistry ∅ 0) !! j = Some lj →
  li = lj ↔ pi = pj.
Proof.
  intros Hpi Hpj Hli Hlj.
  assert (Hempty : registry_ok (LockRegistry ∅ 0)).
  { split; intros p; intros; cbn in *; by rewrite lookup_empty in *. }
  destruct (locks_for_registered paths _ Hempty) as (reg' & [_ Hinj] & _ & Hall).
  pose proof (Hall i pi li Hpi Hli) as Hi. pose proof (Hall j pj lj Hpj Hlj) as Hj.
  split.
  - intros <-. by apply (Hinj pi pj li).
  - intros <-. rewrite Hi in Hj. by injection Hj.
Qed.

Lemma file_locks_identify_paths_witness :
  locks_for ["output_1.xlsx"; "output_2.xlsx"; "output_1.xlsx"]%string
    (LockRegistry ∅ 0) = [0; 1; 0]%nat ∧
  (0%nat = 1%nat ↔ "output_1.xlsx"%string = "output_2.xlsx"%string).
Proof.
  split; [vm_compute; reflexivity|].
  apply (file_locks_identify_paths
    ["output_1.xlsx"; "output_2.xlsx"; "output_1.xlsx"]%string 0 1);
    vm_compute; reflexivity.
Defined.

(** ** The planner with a negative number of sheets per file *)

Lemma advance_sheet_negative G st :
  G ≤ 1 → current_sheet st = 1 →
  advance_sheet G st = advance_sheet 1 st ∧ current_sheet (advance_sheet G st) = 1.
Proof.
  intros HG Hcs. unfold advance_sheet. rewrite Hcs.
  rewrite !decide_True by lia. done.
Qed.

Lemma while_body_negative G R name sz processed st :
  G ≤ 1 → current_sheet st = 1 →
  while_body G R name sz processed st = while_body 1 R name sz processed st ∧
  ∀ r, while_body G R name sz processed st = Returns r → current_sheet r.2 = 1.
Proof.
  intros HG Hcs. unfold while_body.
  destruct (decide (Z.min _ _ > 0)) as [Hpos|Hnon].
  - destruct (current_positions st !! name) as [start|]; [|done].
    match goal with |- context [advance_sheet G ?s] => set (st' := s) end.
    destruct (advance_sheet_negative G st' HG Hcs) as [Heq Hone].
    rewrite Heq. split; [done|]. intros r [= <-]. cbn [snd].
    destruct (decide (_ >= R)); [by rewrite <-Heq|done].
  - match goal with |- context [advance_sheet G ?s] => set (st' := s) end.
    destruct (advance_sheet_negative G st' HG Hcs) as [Heq Hone].
    rewrite Heq. split; [done|]. intros r [= <-]. cbn [snd]. by rewrite <-Heq.
Qed.

Lemma while_sheet_negative G R name sz fuel :
  G ≤ 1 → ∀ processed st, current_sheet st = 1 →
  while_sheet fuel G R name sz processed st = while_sheet fuel 1 R name sz processed st ∧
  ∀ st', while_sheet fuel G R name sz processed st = Returns st' → current_sheet st' = 1.
Proof.
  intros HG. induction fuel as [|fuel IH]; intros processed st Hcs; cbn [while_sheet].
  - destruct (decide (processed < sz)); [done|]. split; [done|]. by intros st' [= <-].
  - destruct (decide (processed < sz)); [|split; [done|]; by intros st' [= <-]].
    destruct (while_body_negative G R name sz processed st HG Hcs) as [Heq Hone].
    rewrite <-Heq.
    destruct (while_body G R name sz processed st) as [r| |] eqn:Hbody; [|done..].
    cbn [obind]. apply IH. by apply Hone.
Qed.

Lemma for_sheets_negative G R info fuel names :
  G ≤ 1 → ∀ st, current_sheet st = 1 →
  for_sheets fuel G R info names st = for_sheets fuel 1 R info names st.
Proof.
  intros HG. induction names as [|name names IH]; intros st Hcs; [done|].
  cbn [for_sheets]. destruct (info !! name) as [i|]; [|done].
  destruct (while_sheet_negative G R name (data_rows i) fuel HG 0 st Hcs) as [Heq Hone].
  rewrite <-Heq.
  destruct (while_sheet fuel G R name (data_rows i) 0 st) as [st'| |]; [|done..].
  cbn [obind]. apply IH. by apply Hone.
Qed.

(** A negative number of sheets per file acts as one sheet per file: for
    numbers below 2^53 in magnitude, the planner lays the records out as it
    does for [sheets_per_file = 1], with the same segments, and differs
    only in the number of files that it reports, which is then not positive
    although the layout has as many files as sheets. *)
Theorem negative_sheets_per_file_acts_as_one (fuel : nat) (ia : input_analysis)
    (G R : Z) :
  G < 0 → well_formed ia → 1 ≤ R → total_data_rows ia ≤ Z.of_nat fuel →
  float_exact (total_data_rows ia) → float_exact R → float_exact G →
  calculate_output_distribution fuel ia G R =
    (d ←! calculate_output_distribution fuel ia 1 R;
     Returns (with_total_files (ceil_div (total_output_sheets d) G) d)) ∧
  ∃ d, calculate_output_distribution fuel ia G R = Returns d ∧
    total_output_files d ≤ 0 ∧
    Z.of_nat (size (files d)) = total_output_sheets d ∧
    total_output_sheets d = ceil_div (total_data_rows ia) R ∧
    Forall (λ sg, output_sheet sg = 1) (data_segments d).
Proof.
  intros HG Hwf HR Hfuel _ _ _.
  assert (Heq : calculate_output_distribution fuel ia G R =
    (d ←! calculate_output_distribution fuel ia 1 R;
     Returns (with_total_files (ceil_div (total_output_sheets d) G) d))).
  { unfold calculate_output_distribution, math_ceil_div.
    rewrite !decide_False by lia. cbn [obind].
    rewrite !decide_False by lia. cbn [obind].
    rewrite (for_sheets_negative G) by (done || lia).
    by destruct (for_sheets fuel 1 R (sheets_info ia) (sheet_names ia) (initial_state ia)). }
  split; [done|]. rewrite Heq.
  destruct (plan_spec fuel ia 1 R Hwf ltac:(lia) HR Hfuel)
    as (d & a & b & r & cf & cs & rem & pos & Hd & Hs & Hf & HI & Hn & Hc).
  rewrite Hd. cbn [obind]. eexists. split; [reflexivity|].
  destruct HI. cbn [ps_files ps_segments with_total_files files total_output_files
    total_output_sheets data_segments] in *.
  assert (Hsheets : 0 ≤ total_output_sheets d).
  { rewrite Hs. apply ceil_div_exact; [lia|]. nia. }
  split_and!.
  - unfold ceil_div.
    rewrite <-(Z.opp_involutive G) at 1. rewrite Z.div_opp_opp by lia.
    pose proof (Z.div_pos (total_output_sheets d) (- G) ltac:(lia) ltac:(lia)). lia.
  - rewrite inv_size0, Hs, <-Hn.
    replace ((a * 1 + b) * R + r) with (a * R + r) by lia.
    rewrite ceil_div_mixed by lia.
    destruct (decide (0 < b ∨ 0 < r)); destruct (decide (r = 0)); lia.
  - done.
  - eapply Forall_impl; [exact inv_segs0|]. intros sg [_ [c Hsg]].
    apply inv_entries0 in Hsg. lia.
Qed.

Lemma negative_sheets_per_file_acts_as_one_witness :
  ∃ d, calculate_output_distribution 12 example_analysis (-2) 4 = Returns d ∧
    total_output_files d ≤ 0 ∧ Z.of_nat (size (files d)) = total_output_sheets d.
Proof.
  destruct (negative_sheets_per_file_acts_as_one 12 example_analysis (-2) 4
    ltac:(lia) example_analysis_well_formed ltac:(lia) ltac:(vm_compute; discriminate)
    ltac:(by compute) ltac:(by compute) ltac:(by compute))
    as (_ & d & Hd & Hfiles & Hsize & _).
  exists d. split; [exact Hd|]. split; [exact Hfiles|exact Hsize].
Defined.

(** ** The streaming splitter on aligned chunks *)












Lemma count_input_file (wb l : workbook) :
  (∀ name sh, (name, sh) ∈ l → lookup_sheet name wb = Some sh) →
  ∀ acc total,
    ∃ dict,
      count_input wb (l.*1) acc total =
        Returns (dict, total + Z.of_nat (length (input_records l))) ∧
      (∀ name sh, (name, sh) ∈ l → dict !! name = Some (df_len sh)) ∧
      (∀ name, name ∉ l.*1 → dict !! name = acc !! name).
Proof.
  induction l as [|[n sh] l IH]; intros Hl acc total.
  - exists acc. split_and!.
    + cbn. do 2 f_equal. lia.
    + intros name sh' Hin. by apply elem_of_nil in Hin.
    + done.
  - rewrite fmap_cons. cbn [count_input fst]. rewrite (Hl n sh) by (by left).
    destruct (IH (λ name sh' Hin, Hl name sh' ltac:(by right))
      (<[n := 1 + df_len sh - 1]> acc) (total + (1 + df_len sh - 1)))
      as (dict & Hrun & Hin & Hout).
    exists dict. split_and!.
    + rewrite Hrun. do 2 f_equal. unfold input_records. rewrite bind_cons, length_app.
      cbn [snd]. unfold df_len. lia.
    + intros name sh' Hel. apply elem_of_cons in Hel as [[= -> ->]|Hel]; [|by apply Hin].
      destruct (decide (n ∈ l.*1)) as [Hn|Hn].
      * apply list_elem_of_fmap in Hn as ([n' sh''] & Heq & Hel). cbn in Heq. subst n'.
        pose proof (Hl n sh'' ltac:(by right)) as H1.
        pose proof (Hl n sh ltac:(by left)) as H2.
        rewrite H1 in H2. injection H2 as ->. by apply Hin.
      * rewrite Hout by done. rewrite lookup_insert_eq. f_equal. lia.
    + intros name Hname.
      apply not_elem_of_cons in Hname as [Hne Hname]. rewrite Hout by done.
      by rewrite lookup_insert_ne.
Qed.




(** ** Errors of the streaming splitter *)

Lemma count_input_keeps (wb : workbook) names :
  ∀ acc total dict total',
    count_input wb names acc total = Returns (dict, total') →
    ∀ n, is_Some (acc !! n) → is_Some (dict !! n).
Proof.
  induction names as [|m names IH]; intros acc total dict total' Hrun n Hn.
  - cbn in Hrun. by injection Hrun as <- _.
  - cbn [count_input] in Hrun. destruct (lookup_sheet m wb) as [sh|]; [|done].
    apply (IH _ _ _ _ Hrun). apply lookup_insert_is_Some.
    destruct (decide (m = n)); [by left|by right].
Qed.

Lemma count_input_returns (wb : workbook) names :
  Forall (λ n, is_Some (lookup_sheet n wb)) names →
  ∀ acc total, ∃ dict total',
    count_input wb names acc total = Returns (dict, total') ∧
    ∀ n, n ∈ names → is_Some (dict !! n).
Proof.
  induction 1 as [|n names [sh Hn] _ IH]; intros acc total.
  - exists acc, total. split; [done|]. intros n Hin. by apply elem_of_nil in Hin.
  - cbn [count_input]. rewrite Hn.
    destruct (IH (<[n := 1 + df_len sh - 1]> acc) (total + (1 + df_len sh - 1)))
      as (dict & total' & Hrun & Hkeys).
    exists dict, total'. split; [done|]. intros n' Hin.
    apply elem_of_cons in Hin as [->|Hin]; [|by apply Hkeys].
    apply (count_input_keeps _ _ _ _ _ _ Hrun). rewrite lookup_insert_eq. by eexists.
Qed.

Lemma listed_sheets_found (wb : workbook) :
  Forall (λ n, is_Some (lookup_sheet n wb)) (wb.*1).
Proof.
  apply Forall_forall. intros n Hn.
  apply list_elem_of_fmap in Hn as ([n' sh] & -> & Hin). cbn.
  induction wb as [|[m sh'] wb IH]; [by apply elem_of_nil in Hin|].
  cbn. destruct (decide (m = n')) as [->|Hne]; [by eexists|].
  apply IH. apply elem_of_cons in Hin as [[= -> ->]|Hin]; [done|done].
Qed.

(** The streaming splitter raises before it writes a sheet in these cases:
    [FileNotFoundError] when the input file cannot be opened;
    [ZeroDivisionError] when [rows_per_sheet] or [sheets_per_file] is zero;
    [ValueError] when [chunk_size] is zero and the workbook has a sheet
    (the step of a range); and, for a workbook without a record, the error
    of closing a writer that has no sheet.  In the first two cases the
    output directory is as it was; in the last two the first output file
    was opened and is left without content, or absent, as the writer makes
    it. *)
Theorem streaming_splitter_errors (opens_file : bool) (fuel : nat) (wb : workbook)
    (dir : gmap Z out_file) (G R c : Z) :
  split_excel_file_with_optimized_memory opens_file fuel None dir G R c =
    (Raises FileNotFoundError, dir) ∧
  split_excel_file_with_optimized_memory opens_file fuel (Some wb) dir G 0 c =
    (Raises ZeroDivisionError, dir) ∧
  (R ≠ 0 →
   split_excel_file_with_optimized_memory opens_file fuel (Some wb) dir 0 R c =
     (Raises ZeroDivisionError, dir)) ∧
  (R ≠ 0 → G ≠ 0 → wb ≠ [] →
   split_excel_file_with_optimized_memory opens_file fuel (Some wb) dir G R 0 =
     (Raises ValueError, new_writer opens_file 1 dir)) ∧
  (R ≠ 0 → G ≠ 0 → c ≠ 0 → NoDup wb.*1 → input_records wb = [] →
   split_excel_file_with_optimized_memory opens_file fuel (Some wb) dir G R c =
     (Raises OtherError, new_writer opens_file 1 dir)).
Proof.
  destruct (count_input_returns wb (wb.*1) (listed_sheets_found wb) ∅ 0)
    as (dict & total & Hcount & Hkeys).
  unfold split_excel_file_with_optimized_memory. rewrite Hcount. cbn [fst snd].
  unfold math_ceil_div. split_and!.
  - done.
  - done.
  - intros HR. rewrite decide_False by done. cbn [obind]. done.
  - intros HR HG Hwb. rewrite decide_False by done. cbn [obind].
    rewrite decide_False by done.
    destruct wb as [|[n sh] wb]; [done|]. rewrite fmap_cons. cbn [for_input_sheets fst].
    destruct (Hkeys n ltac:(by left)) as [row_count ->]. done.
  - intros HR HG Hc Hnd Hrecs. rewrite decide_False by done. cbn [obind].
    rewrite decide_False by done.
    destruct (count_input_file wb wb
      (λ name sh Hin, lookup_sheet_elem name sh wb Hnd Hin) ∅ 0)
      as (dict' & Hcount' & Hdict & _).
    rewrite Hcount in Hcount'. injection Hcount' as <- _.
    assert (Hloop : ∀ (l : workbook) st,
      (∀ name sh, (name, sh) ∈ l → dict !! name = Some 0) →
      for_input_sheets fuel opens_file wb G R c dict (l.*1) st = (Returns tt, st)).
    { induction l as [|[n sh] l IH]; intros st Hl; [done|].
      rewrite fmap_cons. cbn [for_input_sheets fst]. rewrite (Hl n sh) by (by left).
      unfold py_range. rewrite decide_False by done. rewrite ceil_div_zero by done.
      cbn. unfold sbind, sret. apply IH. intros name sh' Hin. apply (Hl name sh').
      by right. }
    rewrite Hloop; [done|]. intros name sh Hin. rewrite (Hdict name sh Hin).
    f_equal. unfold df_len.
    assert (Hsh : rows sh = []); [|by rewrite Hsh].
    unfold input_records in Hrecs. clear -Hin Hrecs.
    induction wb as [|p wb IH]; [by apply elem_of_nil in Hin|].
    rewrite bind_cons in Hrecs. apply app_eq_nil in Hrecs as [Hp Hrest].
    apply elem_of_cons in Hin as [<-|Hin]; [done|by apply IH].
Qed.

Lemma streaming_splitter_errors_witness :
  split_excel_file_with_optimized_memory true 10 (Some example_input) ∅ 2 4 0 =
    (Raises ValueError, <[1 := Corrupt]> ∅).
Proof.
  destruct (streaming_splitter_errors true 10 example_input ∅ 2 4 0)
    as (_ & _ & _ & H & _).
  apply H; [lia|lia|discriminate].
Defined.

(** ** The planner fills the sheets in order *)

Lemma advance_sheet_moves G st :
  ps_files (advance_sheet G st) = ps_files st ∧
  (current_file (advance_sheet G st), current_sheet (advance_sheet G st)) ≠
    (current_file st, current_sheet st).
Proof.
  unfold advance_sheet. destruct (decide (current_sheet st + 1 > G)); cbn.
  - split; [done|]. intros [= ? ?]. lia.
  - split; [done|]. intros [= ?]. lia.
Qed.

Lemma while_body_full G R a b r name sz processed st res :
  inv G R a b r st → processed < sz → others_full R st →
  while_body G R name sz processed st = Returns res →
  others_full R res.2.
Proof.
  intros HI Hlt Hfull. destruct HI.
  assert (Hcur : default 0 (sheet_rows (ensure_sheet (current_file st) (current_sheet st)
      (ensure_file (current_file st) (ps_files st))) (current_file st) (current_sheet st)) = r).
  { rewrite sheet_rows_ensure, inv_file0, inv_sheet0, inv_cur0.
    destruct (decide (r = 0)) as [->|Hr]; [|done]. by rewrite decide_True. }
  assert (Hold : ∀ f s c,
    sheet_rows (ensure_sheet (current_file st) (current_sheet st)
      (ensure_file (current_file st) (ps_files st))) f s = Some c →
    (f, s) ≠ (current_file st, current_sheet st) → c = R).
  { intros f s c. rewrite sheet_rows_ensure.
    destruct (sheet_rows (ps_files st) f s) as [c'|] eqn:E.
    - intros [= <-]. by apply Hfull.
    - destruct (decide (f = current_file st ∧ s = current_sheet st)) as [[-> ->]|Hne];
        [|done]. by intros _ []. }
  unfold while_body. rewrite Hcur.
  destruct (decide (Z.min (sz - processed) (R - r) > 0)) as [Hk|Hk]; [|lia].
  destruct (current_positions st !! name) as [start|]; [|done].
  intros [= <-]. cbn [snd].
  match goal with |- context [advance_sheet G ?s] => set (st' := s) end.
  assert (Hst' : ∀ f s c, sheet_rows (ps_files st') f s = Some c →
    (f, s) = (current_file st, current_sheet st) ∧ c = r + Z.min (sz - processed) (R - r) ∨
    (f, s) ≠ (current_file st, current_sheet st) ∧ c = R).
  { intros f s c. unfold st'. cbn [ps_files]. rewrite sheet_rows_set.
    destruct (decide (f = current_file st ∧ s = current_sheet st)) as [[-> ->]|Hne].
    - intros [= <-]. by left.
    - intros Hc. right. split; [intros [= -> ->]; by apply Hne|].
      apply (Hold f s c Hc). intros [= -> ->]. by apply Hne. }
  destruct (decide (r + Z.min (sz - processed) (R - r) >= R)) as [Hge|Hlt'].
  - destruct (advance_sheet_moves G st') as [Hfiles Hmoved].
    intros f s c Hc Hne. rewrite Hfiles in Hc.
    destruct (Hst' f s c Hc) as [[_ ->]|[_ ->]]; [lia|done].
  - intros f s c Hc Hne. destruct (Hst' f s c Hc) as [[Heq _]|[_ ->]]; [|done].
    exfalso. apply Hne. by rewrite Heq.
Qed.

Lemma while_sheet_full G R name sz fuel :
  ∀ processed a b r st p st',
    inv G R a b r st → current_positions st !! name = Some p →
    others_full R st →
    while_sheet fuel G R name sz processed st = Returns st' →
    others_full R st'.
Proof.
  induction fuel as [|fuel IH]; intros processed a b r st p st' HI Hp Hfull;
    cbn [while_sheet]; destruct (decide (processed < sz)) as [Hlt|Hge];
    try done; try (by intros [= <-]).
  destruct (while_body_inv G R a b r name sz processed p st HI Hlt Hp)
    as (a1 & b1 & r1 & st1 & Hbody & HI1 & _ & _ & Hp1 & _).
  pose proof (while_body_full G R a b r name sz processed st _ HI Hlt Hfull Hbody)
    as Hfull1.
  rewrite Hbody. cbn [obind fst snd]. cbn [snd] in Hfull1.
  apply (IH _ a1 b1 r1 st1 (p + Z.min (sz - processed) (R - r))); [done| |done].
  rewrite Hp1. apply lookup_insert_eq.
Qed.

Lemma for_sheets_full G R info fuel :
  ∀ names a b r st st',
    inv G R a b r st → NoDup names →
    Forall (λ n, ∃ z, size_in info n = Some z ∧ 0 ≤ z ≤ Z.of_nat fuel ∧
                      current_positions st !! n = Some 0) names →
    others_full R st →
    for_sheets fuel G R info names st = Returns st' →
    others_full R st'.
Proof.
  induction names as [|name names IH]; intros a b r st st' HI Hnd Hall Hfull.
  - by intros [= <-].
  - apply NoDup_cons in Hnd as [Hnotin Hnd].
    apply Forall_cons in Hall as [(z & Hz & Hzb & Hpos) Hall].
    cbn [for_sheets]. unfold size_in in Hz.
    destruct (info !! name) as [i|] eqn:Hi; [|done]. simpl in Hz. injection Hz as Hz.
    destruct (while_sheet_inv G R name (data_rows i) fuel 0 a b r st 0 HI Hpos)
      as (a1 & b1 & r1 & st1 & chunk & Hrun & HI1 & _ & _ & _ & Hp1); [lia|].
    pose proof (while_sheet_full G R name (data_rows i) fuel 0 a b r st 0 st1
      HI Hpos Hfull Hrun) as Hfull1.
    rewrite Hrun. cbn [obind].
    apply (IH a1 b1 r1 st1 st' HI1 Hnd); [|done].
    rewrite Forall_forall in Hall |- *. intros n Hn.
    destruct (Hall n Hn) as (z' & ? & ? & Hpn). exists z'.
    split; [done|]. split; [done|].
    rewrite Hp1, lookup_insert_ne; [done|]. intros ->. done.
Qed.

(** The planner fills the output sheets one after the other: in the layout
    that it returns (for numbers below 2^53, so that the reported count of
    sheets is exact), every sheet holds exactly R records, except the last
    sheet in target order, which holds the records that are left. *)
Theorem planned_sheets_are_full (fuel : nat) (ia : input_analysis) (G R : Z) :
  well_formed ia → 1 ≤ G → 1 ≤ R → total_data_rows ia ≤ Z.of_nat fuel →
  float_exact (total_data_rows ia) → float_exact R → float_exact G →
  ∃ d, calculate_output_distribution fuel ia G R = Returns d ∧
    ∀ f s c, sheet_rows (files d) f s = Some c →
      c = R ∨
      ((f - 1) * G + s = total_output_sheets d ∧
       c = total_data_rows ia - (total_output_sheets d - 1) * R).
Proof.
  intros (Hnd & Hall & Htot) HG HR Hfuel _ _ _.
  assert (Hnames : Forall (λ n, ∃ z, size_in (sheets_info ia) n = Some z ∧
    0 ≤ z ≤ Z.of_nat fuel ∧
    current_positions (initial_state ia) !! n = Some 0) (sheet_names ia)).
  { rewrite Forall_forall in Hall |- *. intros n Hn.
    destruct (Hall n Hn) as (z & Hz & Hpos). exists z. split; [done|].
    split; [|by apply initial_positions_lookup].
    rewrite <-Forall_forall in Hall.
    pose proof (sizes_bounded _ _ z n Hall Hn Hz) as [Hb _].
    unfold sizes in Htot. lia. }
  destruct (for_sheets_inv G R (sheets_info ia) fuel (sheet_names ia) 0 0 0
    (initial_state ia) (initial_inv G R ia HG HR) Hnd Hnames)
    as (a & b & r & st & segs & Hrun & HI & Hn & _ & _).
  assert (Hfull : others_full R st).
  { apply (for_sheets_full G R (sheets_info ia) fuel (sheet_names ia) 0 0 0
      (initial_state ia) st (initial_inv G R ia HG HR) Hnd Hnames); [|done].
    intros f s c. unfold initial_state, sheet_rows, sheets_of. cbn.
    by rewrite lookup_empty, lookup_empty. }
  unfold calculate_output_distribution, math_ceil_div.
  rewrite decide_False by lia. cbn [obind]. rewrite decide_False by lia. cbn [obind].
  rewrite Hrun. cbn [obind]. eexists. split; [reflexivity|].
  cbn [files total_output_sheets]. intros f s c Hc.
  destruct HI. unfold sizes in Htot. rewrite <-Htot in Hn.
  replace ((0 * G + 0) * R + 0 + total_data_rows ia) with (total_data_rows ia) in Hn by lia.
  destruct (decide ((f, s) = (current_file st, current_sheet st))) as [Heq|Hne].
  - right. injection Heq as -> ->. rewrite inv_file0, inv_sheet0 in Hc.
    rewrite inv_cur0 in Hc. destruct (decide (r = 0)) as [|Hr]; [done|].
    injection Hc as <-. rewrite <-Hn, ceil_div_mixed by lia.
    rewrite decide_False by done. rewrite inv_file0, inv_sheet0. lia.
  - left. by apply (Hfull f s c).
Qed.

Lemma planned_sheets_are_full_witness :
  ∃ d, calculate_output_distribution 12 example_analysis 2 5 = Returns d ∧
    sheet_rows (files d) 2 1 = Some 2 ∧
    ∀ f s c, sheet_rows (files d) f s = Some c → c = 5 ∨ (f - 1) * 2 + s = 3.
Proof.
  destruct (planned_sheets_are_full 12 example_analysis 2 5
    example_analysis_well_formed ltac:(lia) ltac:(lia) ltac:(vm_compute; discriminate)
    ltac:(by compute) ltac:(by compute) ltac:(by compute))
    as (d & Hd & Hfull).
  exists d. split; [exact Hd|]. split.
  - clear Hfull. vm_compute in Hd. injection Hd as <-. vm_compute. reflexivity.
  - intros f s c Hc. destruct (Hfull f s c Hc) as [->|[Hlast _]]; [by left|right].
    rewrite Hlast. clear -Hd. vm_compute in Hd. injection Hd as <-. reflexivity.
Defined.

(** ** The streaming splitter delivers every record *)













